(** * radio / preprocessing: nodule geometry, sampling and patch tiling

    A shallow embedding of [preprocessing/ct_masked_batch.py] (class
    [CTImagesMaskedBatch]) and [preprocessing/patches.py]
    ([put_patches_numba], [assemble_patches]).

    Numeric model.  NumPy [int64] values are unbounded integers [Z].  The
    [float64] arithmetic of [_fit_into_bounds] and of the share product of
    [sample_nodules] is that of module [F64]: a finite value is a rational
    on the binary64 grid, every operation rounds to the nearest such value
    with ties to even, and infinities and NaN are values of their own (the
    sign of zero is not tracked).  The other [float64] values (mask
    geometry, nodule sizes, the uniform draws of random boxes) are exact
    rationals [Q]: there rounding error, infinities and NaN are outside the
    model.  Draws from [np.random] are explicit inputs. *)

From Stdlib Require Import ZArith QArith Qabs Qround Qpower Lqa.
From Stdlib Require Import List String Bool Lia.
Import ListNotations.

Local Open Scope Z_scope.

(** ** NumPy scalar operations *)

Module Np.

(** [np.rint]: round to the nearest integer, ties to the even one. *)
Definition rint (x : Q) : Z :=
  let f := Qfloor x in
  match Qcompare (x - inject_Z f) (1 # 2) with
  | Lt => f
  | Gt => f + 1
  | Eq => if Z.even f then f else f + 1
  end.

(** [x.astype(np.int)] and [int(x)] on a float: truncation toward zero. *)
Definition astype_int (x : Q) : Z :=
  if Qle_bool 0 x then Qfloor x else Qceiling x.

End Np.

(** Triples indexed by axis, in the order (z, y, x) of the source. *)
Inductive axis := Az | Ay | Ax.

Definition vec3 (A : Type) : Type := (A * A * A)%type.

Definition ax {A} (a : axis) (v : vec3 A) : A :=
  match a, v with
  | Az, (z, _, _) => z
  | Ay, (_, y, _) => y
  | Ax, (_, _, x) => x
  end.

Definition vmap {A B} (f : A -> B) (v : vec3 A) : vec3 B :=
  let '(z, y, x) := v in (f z, f y, f x).

Definition vmap2 {A B C} (f : A -> B -> C) (u : vec3 A) (v : vec3 B) : vec3 C :=
  let '(a, b, c) := u in let '(z, y, x) := v in (f a z, f b y, f c x).

(** ** Arrays

    A 3-d [ndarray] is a list of planes, each a list of rows. *)

Definition array3 (A : Type) : Type := list (list (list A)).

(** [np.zeros_like]. *)
Definition zeros_like (a : array3 Q) : array3 Q :=
  map (map (map (fun _ => 0%Q))) a.

(** ** Exceptions, diagnostics *)

Inductive exn :=
| AttributeError
| IndexError
| ValueError
| TypeError
| OverflowError
| NameError (name : string).

Inductive outcome (A : Type) :=
| Return (a : A)
| Raise (e : exn).
Arguments Return {A} a.
Arguments Raise {A} e.

(** ** IEEE 754 binary64

    A [float64] value is a rational, an infinity or NaN; an operation gives
    the exact result rounded to the nearest binary64 number, ties to the
    even one, with overflow to an infinity.  The sign of a zero is not
    kept: a zero divisor is read as [+0.0]. *)

Module F64.

Inductive t :=
| Fin (q : Q)
| Inf (negative : bool)
| NaN.

Definition pow2 (e : Z) : Q := Qpower 2 e.

(** [floor (log2 |q|)], for [q] other than zero. *)
Definition ilog2 (q : Q) : Z :=
  let e := Z.log2 (Z.abs (Qnum q)) - Z.log2 (Zpos (Qden q)) in
  if Qle_bool (pow2 e) (Qabs q) then e else e - 1.

(** The exponent of the unit in the last place of the binary64 numbers
    around [q]: 53 significant bits, least exponent -1022. *)
Definition grid (q : Q) : Z := Z.max (ilog2 q) (-1022) - 52.

(** Rounding to nearest, ties to even. *)
Definition round (q : Q) : t :=
  if Qeq_bool q 0 then Fin 0
  else
    let g := grid q in
    let r := Qred (inject_Z (Np.rint (q / pow2 g)) * pow2 g) in
    if Qle_bool (pow2 1024) (Qabs r) then Inf (negb (Qle_bool 0 r))
    else Fin r.

(** A Python or NumPy number read as a [float64]. *)
Definition of_Q (q : Q) : t := round q.
Definition of_Z (n : Z) : t := round (inject_Z n).

Definition opp (x : t) : t :=
  match x with
  | Fin a => Fin (- a)
  | Inf s => Inf (negb s)
  | NaN => NaN
  end.

Definition abs (x : t) : t :=
  match x with
  | Fin a => Fin (Qabs a)
  | Inf _ => Inf false
  | NaN => NaN
  end.

Definition add (x y : t) : t :=
  match x, y with
  | NaN, _ | _, NaN => NaN
  | Fin a, Fin b => round (a + b)
  | Inf s, Fin _ | Fin _, Inf s => Inf s
  | Inf s, Inf s' => if Bool.eqb s s' then Inf s else NaN
  end.

Definition sub (x y : t) : t := add x (opp y).

Definition is_neg (a : Q) : bool := negb (Qle_bool 0 a).

Definition mul (x y : t) : t :=
  match x, y with
  | NaN, _ | _, NaN => NaN
  | Fin a, Fin b => round (a * b)
  | Inf s, Fin b | Fin b, Inf s =>
      if Qeq_bool b 0 then NaN else Inf (xorb s (is_neg b))
  | Inf s, Inf s' => Inf (xorb s s')
  end.

Definition div (x y : t) : t :=
  match x, y with
  | NaN, _ | _, NaN => NaN
  | Fin a, Fin b =>
      if Qeq_bool b 0
      then if Qeq_bool a 0 then NaN else Inf (is_neg a)
      else round (a / b)
  | Fin _, Inf _ => Fin 0
  | Inf s, Fin b => Inf (xorb s (is_neg b))
  | Inf _, Inf _ => NaN
  end.

(** [np.rint]. *)
Definition rint (x : t) : t :=
  match x with
  | Fin a => Fin (inject_Z (Np.rint a))
  | _ => x
  end.

(** [np.maximum]: a NaN operand gives NaN. *)
Definition maximum (x y : t) : t :=
  match x, y with
  | NaN, _ | _, NaN => NaN
  | Inf false, _ | _, Inf false => Inf false
  | Inf true, z | z, Inf true => z
  | Fin a, Fin b => if Qle_bool a b then Fin b else Fin a
  end.

(** [x.astype(np.int)] to [int64]: truncation toward zero; NaN, the
    infinities and the values out of range give the least [int64]. *)
Definition astype_int (x : t) : Z :=
  match x with
  | Fin a =>
      let z := Np.astype_int a in
      if (- 2 ^ 63 <=? z) && (z <? 2 ^ 63) then z else - 2 ^ 63
  | _ => - 2 ^ 63
  end.

(** Whether [x] is finite with [|x| <= 2 ^ k]. *)
Definition within (k : Z) (x : t) : bool :=
  match x with
  | Fin a => Qle_bool (Qabs a) (pow2 k)
  | _ => false
  end.

End F64.

(** Python's [int(x)] on a float: truncation toward zero; an infinity
    raises [OverflowError], NaN raises [ValueError]. *)
Definition py_int (x : F64.t) : outcome Z :=
  match x with
  | F64.Fin a => Return (Np.astype_int a)
  | F64.Inf _ => Raise OverflowError
  | F64.NaN => Raise ValueError
  end.

(** ** The nodule record array ([nodules_dtype]) *)

Module Nodule.
Record t := mk {
  patient_pos : Z;
  offset : vec3 Z;
  img_size : vec3 Z;
  nodule_center : vec3 Q;
  nodule_size : vec3 Q;
  spacing : vec3 Q;
  origin : vec3 Q
}.
End Nodule.

(** ** The batch

    Modelled from the spec: the base class [CTImagesBatch] (module
    [ct_batch], not part of these sources) is the spec's VolumeStore; it
    exposes the stacked [data], the patient [indices] and, per patient,
    [lower_bounds], [shape], [spacing] and [origin], one row per patient. *)

Module Batch.
Record t := mk {
  indices : list string;
  data : array3 Q;
  lower_bounds : list Z;
  shape : list (vec3 Z);
  spacing : list (vec3 Q);
  origin : list (vec3 Q);
  mask : option (array3 Q);
  nodules : option (list Nodule.t)
}.

(** [len(self)]. *)
Definition len (self : t) : Z := Z.of_nat (List.length (indices self)).
End Batch.

(** The draws taken from [np.random], one field per call site; array-valued
    draws are given by row. *)
Record draws := {
  (** rows of [np.random.multivariate_normal(np.zeros(3), np.diag(variance), n)] *)
  normal_shift : nat -> vec3 Q;
  (** [np.random.choice(np.arange(self.num_nodules), size=cancer_n, replace=False)] *)
  sample_indices : nat -> Z;
  (** [np.random.choice(all_indices, num_nodules, replace=True)] *)
  sampled_indices : nat -> Z;
  (** rows of [np.random.rand(num_nodules, 3)] *)
  uniform : nat -> vec3 Q
}.

(** ** [_fit_into_bounds] *)

Definition Zq (v : vec3 Z) : vec3 Q := vmap inject_Z v.

(** [np.maximum(x, 0)] on a [float64]. *)
Definition fmax0 (x : F64.t) : F64.t := F64.maximum x (F64.of_Z 0).

(** [center_pix] of one record:
    [np.abs(nodule_center - origin) / spacing]. *)
Definition center_pix (nd : Nodule.t) : vec3 F64.t :=
  vmap2 F64.div
    (vmap F64.abs
       (vmap2 F64.sub (vmap F64.of_Q (Nodule.nodule_center nd))
                      (vmap F64.of_Q (Nodule.origin nd))))
    (vmap F64.of_Q (Nodule.spacing nd)).

(** One row of the array computation of [_fit_into_bounds], up to the two
    clamps: the pair [(start_pix, end_pix)] just before the final
    [start_pix + self.nodules.offset]. *)
Definition fit_row (nd : Nodule.t) (size : vec3 Z) (shift : option (vec3 Q))
  : vec3 F64.t * vec3 F64.t :=
  let center_pix := center_pix nd in
  let start_pix :=
    vmap2 F64.sub (vmap F64.rint center_pix)
      (vmap (fun s => F64.rint (F64.div (F64.of_Z s) (F64.of_Z 2))) size) in
  let start_pix :=
    match shift with
    | Some d => vmap2 F64.add start_pix (vmap F64.of_Q d)
    | None => start_pix
    end in
  let end_pix := vmap2 F64.add start_pix (vmap F64.of_Z size) in
  let bias_upper :=
    vmap fmax0
      (vmap2 F64.sub end_pix (vmap F64.of_Z (Nodule.img_size nd))) in
  let start_pix := vmap2 F64.sub start_pix bias_upper in
  let end_pix := vmap2 F64.sub end_pix bias_upper in
  let bias_lower := vmap fmax0 (vmap F64.opp start_pix) in
  let start_pix := vmap2 F64.add start_pix bias_lower in
  let end_pix := vmap2 F64.add end_pix bias_lower in
  (start_pix, end_pix).

(** [f] applied to every row together with its row number. *)
Fixpoint imap_from {A B} (i : nat) (f : nat -> A -> B) (l : list A) : list B :=
  match l with
  | [] => []
  | x :: l' => f i x :: imap_from (S i) f l'
  end.

(** The jitter of row [i]: drawn when [variance] is given. *)
Definition jitter (variance : option (vec3 Q)) (rnd : draws) (i : nat)
  : option (vec3 Q) :=
  match variance with
  | Some _ => Some (normal_shift rnd i)
  | None => None
  end.

Definition _fit_into_bounds (self : Batch.t) (size : vec3 Z)
    (variance : option (vec3 Q)) (rnd : draws) : outcome (list (vec3 Z)) :=
  match Batch.nodules self with
  | None => Raise AttributeError
  | Some nodules =>
      Return
        (imap_from 0
           (fun i nd =>
              vmap F64.astype_int
                (vmap2 F64.add (fst (fit_row nd size (jitter variance rnd i)))
                               (vmap F64.of_Z (Nodule.offset nd))))
           nodules)
  end.

(** ** The clamped start, as the specification words it

    The operations are those of the code's arithmetic. *)


(** [clamped_start] on one axis, steps 1 to 5: the pair [(start, end)]. *)
Definition spec_clamped_start (center_pixel : F64.t) (size img_size : Z)
    (jitter : option Q) : F64.t * F64.t :=
  let start :=
    F64.sub (F64.rint center_pixel)
            (F64.rint (F64.div (F64.of_Z size) (F64.of_Z 2))) in
  let start :=
    match jitter with
    | Some j => F64.add start (F64.of_Q j)
    | None => start
    end in
  let end_ := F64.add start (F64.of_Z size) in
  let overflow := fmax0 (F64.sub end_ (F64.of_Z img_size)) in
  let start := F64.sub start overflow in
  let end_ := F64.sub end_ overflow in
  let underflow := fmax0 (F64.opp start) in
  (F64.add start underflow, F64.add end_ underflow).


(** The bounds within which the magnitudes of a record, a box and a jitter
    are called moderate: [2 ^ 40]. *)
Definition moderate_bound : Z := 1099511627776.

(** On axis [a], the pixel centre of the record is finite and, like the box
    size, the image size, the offset and the jitter, of moderate
    magnitude. *)
Definition moderate (nd : Nodule.t) (size : vec3 Z) (shift : option (vec3 Q))
    (a : axis) : Prop :=
  F64.within 40 (ax a (center_pix nd)) = true /\
  0 <= ax a size <= moderate_bound /\
  0 <= ax a (Nodule.img_size nd) <= moderate_bound /\
  0 <= ax a (Nodule.offset nd) <= moderate_bound /\
  match shift with
  | Some d => (Qabs (ax a d) <= inject_Z moderate_bound)%Q
  | None => True
  end.

(** ** Auxiliary: the two clamps

    Steps 3 to 5 of the computation on one axis, from the start before the
    clamps. *)
Definition clamp_steps (start : F64.t) (size img_size : Z) : F64.t * F64.t :=
  let end_ := F64.add start (F64.of_Z size) in
  let overflow := fmax0 (F64.sub end_ (F64.of_Z img_size)) in
  let start := F64.sub start overflow in
  let end_ := F64.sub end_ overflow in
  let underflow := fmax0 (F64.opp start) in
  (F64.add start underflow, F64.add end_ underflow).

(** The same steps on integers. *)
Definition clamp_steps_Z (start size img_size : Z) : Z * Z :=
  let end_ := start + size in
  let overflow := Z.max (end_ - img_size) 0 in
  let start := start - overflow in
  let end_ := end_ - overflow in
  let underflow := Z.max (- start) 0 in
  (start + underflow, end_ + underflow).

(** Steps 1 and 2 on one axis: the start before the clamps. *)
Definition start_before_clamps (center_pixel : F64.t) (size : Z)
    (jitter : option Q) : F64.t :=
  let start :=
    F64.sub (F64.rint center_pixel)
            (F64.rint (F64.div (F64.of_Z size) (F64.of_Z 2))) in
  match jitter with
  | Some j => F64.add start (F64.of_Q j)
  | None => start
  end.


(** ** NumPy indexing *)

(** [a[i]] for an integer [i]: a negative index counts from the end, an
    index out of range raises [IndexError] ([None] here). *)
Definition np_getitem {A} (a : list A) (i : Z) : option A :=
  let n := Z.of_nat (List.length a) in
  if (0 <=? i) && (i <? n) then nth_error a (Z.to_nat i)
  else if (- n <=? i) && (i <? 0) then nth_error a (Z.to_nat (n + i))
  else None.

(** [a[idx]] (and [a[idx, :]]) for an integer array [idx]. *)
Fixpoint np_take {A} (a : list A) (idx : list Z) : option (list A) :=
  match idx with
  | [] => Some []
  | i :: idx' =>
      match np_getitem a i, np_take a idx' with
      | Some x, Some xs => Some (x :: xs)
      | _, _ => None
      end
  end.

(** Row-wise combination of two arrays with the same number of rows. *)
Definition map2 {A B C} (f : A -> B -> C) (l : list A) (m : list B) : list C :=
  map (fun p => f (fst p) (snd p)) (combine l m).

(** ** Methods: state, exceptions and the logger

    A method runs on the batch [self], may mutate it, may emit warnings
    through [logger] and either returns or raises; the mutations made before
    an exception remain. *)

Record run (A : Type) := Run {
  value : outcome A;
  self_after : Batch.t;
  logged : list string
}.
Arguments Run {A} value self_after logged.
Arguments value {A} r.
Arguments self_after {A} r.
Arguments logged {A} r.

Definition M (A : Type) : Type := Batch.t -> run A.

Definition ret {A} (a : A) : M A := fun self => Run (Return a) self [].

Definition raise {A} (e : exn) : M A := fun self => Run (Raise e) self [].

Definition bind {A B} (m : M A) (k : A -> M B) : M B :=
  fun self =>
    let r := m self in
    match value r with
    | Return a =>
        let r' := k a (self_after r) in
        Run (value r') (self_after r') (logged r ++ logged r')
    | Raise e => Run (Raise e) (self_after r) (logged r)
    end.

Notation "x <- m ;; k" := (bind m (fun x => k))
  (at level 61, m at next level, right associativity).
Notation "m ;;; k" := (bind m (fun _ => k))
  (at level 61, right associativity).

Definition get_self : M Batch.t := fun self => Run (Return self) self [].

Definition logger_warning (msg : string) : M unit :=
  fun self => Run (Return tt) self [msg].

(** [self.mask = m]. *)
Definition set_mask (m : option (array3 Q)) : M unit :=
  fun self =>
    Run (Return tt)
      (Batch.mk (Batch.indices self) (Batch.data self) (Batch.lower_bounds self)
         (Batch.shape self) (Batch.spacing self) (Batch.origin self)
         m (Batch.nodules self)) [].

(** [self.nodules = n]. *)
Definition set_nodules (n : option (list Nodule.t)) : M unit :=
  fun self =>
    Run (Return tt)
      (Batch.mk (Batch.indices self) (Batch.data self) (Batch.lower_bounds self)
         (Batch.shape self) (Batch.spacing self) (Batch.origin self)
         (Batch.mask self) n) [].

(** Reading an attribute of [self.nodules]: [AttributeError] when it is
    [None]. *)
Definition self_nodules : M (list Nodule.t) :=
  self <- get_self ;;
  match Batch.nodules self with
  | Some nodules => ret nodules
  | None => raise AttributeError
  end.

(** An index expression that may raise [IndexError]. *)
Definition indexed {A} (o : option A) : M A :=
  match o with
  | Some a => ret a
  | None => raise IndexError
  end.

(** The value a method returns when it ends in [return self]. *)
Inductive self_ref := Self.

(** ** [num_nodules] *)

Definition num_nodules (self : Batch.t) : Z :=
  match Batch.nodules self with
  | Some nodules => Z.of_nat (List.length (map Nodule.patient_pos nodules))
  | None => 0
  end.

(** ** [_refresh_nodules_info] *)

Definition set_offset0 (nd : Nodule.t) (v : Z) : Nodule.t :=
  let '(_, y, x) := Nodule.offset nd in
  Nodule.mk (Nodule.patient_pos nd) (v, y, x) (Nodule.img_size nd)
    (Nodule.nodule_center nd) (Nodule.nodule_size nd) (Nodule.spacing nd)
    (Nodule.origin nd).

Definition set_spacing (nd : Nodule.t) (v : vec3 Q) : Nodule.t :=
  Nodule.mk (Nodule.patient_pos nd) (Nodule.offset nd) (Nodule.img_size nd)
    (Nodule.nodule_center nd) (Nodule.nodule_size nd) v (Nodule.origin nd).

Definition set_origin (nd : Nodule.t) (v : vec3 Q) : Nodule.t :=
  Nodule.mk (Nodule.patient_pos nd) (Nodule.offset nd) (Nodule.img_size nd)
    (Nodule.nodule_center nd) (Nodule.nodule_size nd) (Nodule.spacing nd) v.

Definition set_img_size (nd : Nodule.t) (v : vec3 Z) : Nodule.t :=
  Nodule.mk (Nodule.patient_pos nd) (Nodule.offset nd) v
    (Nodule.nodule_center nd) (Nodule.nodule_size nd) (Nodule.spacing nd)
    (Nodule.origin nd).

(** One statement [self.nodules.<field> = <table>[self.nodules.patient_pos]]. *)
Definition refresh_field {A} (table : Batch.t -> list A)
    (set : Nodule.t -> A -> Nodule.t) : M unit :=
  nodules <- self_nodules ;;
  self <- get_self ;;
  rows <- indexed (np_take (table self) (map Nodule.patient_pos nodules)) ;;
  set_nodules (Some (map2 set nodules rows)).

Definition _refresh_nodules_info : M unit :=
  refresh_field Batch.lower_bounds set_offset0 ;;;
  refresh_field Batch.spacing set_spacing ;;;
  refresh_field Batch.origin set_origin ;;;
  refresh_field Batch.shape set_img_size.

(** ** [fetch_nodules_info] *)

(** A row of the annotation table [nodules_df]. *)
Record annotation := {
  seriesuid : string;
  coordZ : Q;
  coordY : Q;
  coordX : Q;
  diameter_mm : Q
}.

Fixpoint insert_sorted (x : string) (l : list string) : list string :=
  match l with
  | [] => [x]
  | y :: l' => if String.leb x y then x :: l else y :: insert_sorted x l'
  end.

(** [np.intersect1d(a, b)]: the sorted values that occur in both. *)
Definition intersect1d (a b : list string) : list string :=
  fold_right insert_sorted []
    (filter (fun x => existsb (String.eqb x) b) (nodup string_dec a)).

(** [df.loc[labels, ...]] on the table indexed by [seriesuid]: for each label
    in turn, the rows that carry it. *)
Definition loc (df : list annotation) (labels : list string) : list annotation :=
  flat_map (fun l => filter (fun r => String.eqb (seriesuid r) l) df) labels.

(** Modelled from the spec: [self.index.get_pos] belongs to the dataset index
    class, not part of these sources; it gives the position of a patient id
    in the batch. *)
Fixpoint index_get_pos (indices : list string) (pat_id : string) : option Z :=
  match indices with
  | [] => None
  | i :: rest =>
      if String.eqb i pat_id then Some 0
      else option_map Z.succ (index_get_pos rest pat_id)
  end.

(** [np.zeros(..., dtype=nodules_dtype)]: one record. *)
Definition zero_nodule : Nodule.t :=
  Nodule.mk 0 (0, 0, 0) (0, 0, 0) (0, 0, 0)%Q (0, 0, 0)%Q (0, 0, 0)%Q (0, 0, 0)%Q.

(** [l[i] = x] for [i] within range. *)
Fixpoint list_set {A} (l : list A) (i : nat) (x : A) : list A :=
  match l, i with
  | [], _ => []
  | _ :: l', O => x :: l'
  | y :: l', S i' => y :: list_set l' i' x
  end.

(** The body of the loop over [nodules_df.itertuples()]. *)
Definition fetch_row (counter : nat) (row : annotation) : M unit :=
  self <- get_self ;;
  pat_pos <- indexed (index_get_pos (Batch.indices self) (seriesuid row)) ;;
  nodules <- self_nodules ;;
  let nd := nth counter nodules zero_nodule in
  let diam := diameter_mm row in
  set_nodules
    (Some (list_set nodules counter
             (Nodule.mk pat_pos (Nodule.offset nd) (Nodule.img_size nd)
                (coordZ row, coordY row, coordX row) (diam, diam, diam)
                (Nodule.spacing nd) (Nodule.origin nd)))).

Fixpoint fetch_rows (counter : nat) (rows : list annotation) : M unit :=
  match rows with
  | [] => ret tt
  | row :: rows' => fetch_row counter row ;;; fetch_rows (S counter) rows'
  end.

Definition is_some {A} (o : option A) : bool :=
  match o with Some _ => true | None => false end.

Definition fetch_nodules_info (nodules_df : list annotation) (update : bool)
  : M self_ref :=
  self <- get_self ;;
  if is_some (Batch.nodules self) && negb update then
    logger_warning
      "Nodules have already been extracted. Put update argument as True for refreshing" ;;;
    ret Self
  else
    let unique_indices := nodup string_dec (map seriesuid nodules_df) in
    let inter_index := intersect1d unique_indices (Batch.indices self) in
    let nodules_df := loc nodules_df inter_index in
    let num_nodules := List.length nodules_df in
    set_nodules (Some (repeat zero_nodule num_nodules)) ;;;
    fetch_rows 0 nodules_df ;;;
    _refresh_nodules_info ;;;
    ret Self.

(** ** [create_mask] *)

Section Masks.

(** [make_mask_numba(mask, offsets, ends, starts, sizes)] of module [mask],
    which is not part of these sources: it fills the boxes into [mask]. *)
Variable make_mask_numba :
  array3 Q -> list (vec3 Z) -> list (vec3 Z) -> list (vec3 Z) ->
  list (vec3 Z) -> array3 Q.

Definition mask_start_pix (nd : Nodule.t) : vec3 Z :=
  let center_pix :=
    vmap2 Qdiv
      (vmap Qabs (vmap2 Qminus (Nodule.nodule_center nd) (Nodule.origin nd)))
      (Nodule.spacing nd) in
  let half :=
    vmap (fun s => inject_Z (Np.rint (s / 2)))
         (vmap2 Qdiv (Nodule.nodule_size nd) (Nodule.spacing nd)) in
  vmap Np.rint (vmap2 Qminus center_pix half).

Definition mask_size_pix (nd : Nodule.t) : vec3 Z :=
  vmap Np.rint (vmap2 Qdiv (Nodule.nodule_size nd) (Nodule.spacing nd)).

Definition create_mask : M self_ref :=
  self <- get_self ;;
  (if is_some (Batch.nodules self) then ret tt
   else logger_warning
     "Info about nodules location must be loaded before calling this method. Nothing happened.") ;;;
  set_mask (Some (zeros_like (Batch.data self))) ;;;
  nodules <- self_nodules ;;
  set_mask
    (Some (make_mask_numba (zeros_like (Batch.data self))
             (map Nodule.offset nodules)
             (map (fun nd => vmap2 Z.add (Nodule.img_size nd) (Nodule.offset nd))
                  nodules)
             (map mask_start_pix nodules)
             (map mask_size_pix nodules))) ;;;
  ret Self.

End Masks.

(** ** Sampling *)

(** [np.random.choice(np.arange(population), size, replace)], given the
    drawn values by row: it raises [ValueError] on a negative size, on an
    empty population unless no sample is taken, and without replacement on a
    size above the population. *)
Definition np_random_choice (population size : Z) (replace : bool)
    (drawn : nat -> Z) : M (list Z) :=
  if size <? 0 then raise ValueError
  else if (population <=? 0) && (0 <? size) then raise ValueError
  else if negb replace && (Z.max population 0 <? size) then raise ValueError
  else ret (map drawn (seq 0 (Z.to_nat size))).

(** One row of [np.asarray(samples + offset, dtype=np.int)]. *)
Definition random_row (u : vec3 Q) (data_shape nodule_size : vec3 Z)
    (lower_bound : Z) : vec3 Z :=
  let samples := vmap2 Qmult u (Zq (vmap2 Z.sub data_shape nodule_size)) in
  let offset := (inject_Z lower_bound, 0%Q, 0%Q) in
  vmap Np.astype_int (vmap2 Qplus samples offset).

Definition sample_random_nodules (num_nodules : Z) (nodule_size : vec3 Z)
    (rnd : draws) : M (list (vec3 Z)) :=
  self <- get_self ;;
  sampled <- np_random_choice (Batch.len self) num_nodules true
               (sampled_indices rnd) ;;
  lower <- indexed (np_take (Batch.lower_bounds self) sampled) ;;
  data_shape <- indexed (np_take (Batch.shape self) sampled) ;;
  ret (imap_from 0
         (fun i p => random_row (uniform rnd i) (snd p) nodule_size (fst p))
         (combine lower data_shape)).

(** [sample_nodules] up to the computation of [nodules_indices]: the two
    blocks [cancer_nodules] and [random_nodules] that [np.vstack] joins,
    whose rows are the start positions of the boxes cropped afterwards. *)
Definition sample_nodules_indices (batch_size : Z) (nodule_size : vec3 Z)
    (share : Q) (variance : option (list Q)) (rnd : draws)
  : M (list (vec3 Z) * list (vec3 Z)) :=
  self <- get_self ;;
  (if is_some (Batch.nodules self) then ret tt else raise AttributeError) ;;;
  variance <-
    match variance with
    | None => ret None
    | Some v =>
        match map Np.astype_int v with
        | [vz; vy; vx] => ret (Some (inject_Z vz, inject_Z vy, inject_Z vx))
        | _ =>
            logger_warning
              "Argument variance be np.array-likeand has shape (3,). Would be used no-scale-shift." ;;;
            ret None
        end
    end ;;
  cancer_n <-
    match py_int (F64.mul (F64.of_Q share) (F64.of_Z batch_size)) with
    | Return n => ret n
    | Raise e => raise e
    end ;;
  let cancer_n :=
    if cancer_n >? num_nodules self then num_nodules self else cancer_n in
  cancer_nodules <-
    (if num_nodules self =? 0 then ret []
     else
       sample_indices <- np_random_choice (num_nodules self) cancer_n false
                           (sample_indices rnd) ;;
       match _fit_into_bounds self nodule_size variance rnd with
       | Raise e => raise e
       | Return cancer_nodules =>
           indexed (np_take cancer_nodules sample_indices)
       end) ;;
  random_nodules <- sample_random_nodules (batch_size - cancer_n) nodule_size rnd ;;
  ret (cancer_nodules, random_nodules).

(** Modelled from the specification's words: the number of positive samples
    before the cap, [round(positive_share * batch_size)]. *)
Definition spec_positive_count (share : Q) (batch_size : Z) : Z :=
  F64.astype_int (F64.rint (F64.mul (F64.of_Q share) (F64.of_Z batch_size))).

(** ** Kernels on plain values: exceptions without state *)

Definition obind {A B} (o : outcome A) (k : A -> outcome B) : outcome B :=
  match o with
  | Return a => k a
  | Raise e => Raise e
  end.

Notation "x <~ o ;; k" := (obind o (fun x => k))
  (at level 61, o at next level, right associativity).

(** [for i in range(n): s = body(i, s)]. *)
Fixpoint for_each {S} (l : list Z) (body : Z -> S -> outcome S) (s : S)
  : outcome S :=
  match l with
  | [] => Return s
  | i :: l' => s' <~ body i s ;; for_each l' body s'
  end.

Definition range (n : Z) : list Z := map Z.of_nat (seq 0 (Z.to_nat n)).

(** ** Slices of arrays

    The shape of a nested list is read off its first elements; an array with
    an empty axis is represented with its later axes empty too. *)

Definition shape3 {A} (a : array3 A) : vec3 Z :=
  (Z.of_nat (List.length a),
   Z.of_nat (List.length (hd [] a)),
   Z.of_nat (List.length (hd [] (hd [] a)))).

(** A bound of a Python slice on a sequence of length [n]. *)
Definition slice_bound (n i : Z) : Z :=
  if i <? 0 then Z.max (i + n) 0 else Z.min i n.

(** [l[a:b]]. *)
Definition py_slice {A} (a b : Z) (l : list A) : list A :=
  let n := Z.of_nat (List.length l) in
  let lo := slice_bound n a in
  let hi := slice_bound n b in
  firstn (Z.to_nat (hi - lo)) (skipn (Z.to_nat lo) l).

(** [img[slc_x, slc_y, slc_z]], each slice given by its two bounds. *)
Definition slice3 {A} (img : array3 A) (slc_x slc_y slc_z : Z * Z) : array3 A :=
  map (fun plane =>
         map (py_slice (fst slc_z) (snd slc_z))
             (py_slice (fst slc_y) (snd slc_y) plane))
      (py_slice (fst slc_x) (snd slc_x) img).

(** NumPy broadcasting of one axis to length [n]. *)
Definition broadcast_to {A} (n : nat) (l : list A) : option (list A) :=
  if Nat.eqb (List.length l) n then Some l
  else match l with
       | [x] => Some (repeat x n)
       | _ => None
       end.

Fixpoint option_all {A} (l : list (option A)) : option (list A) :=
  match l with
  | [] => Some []
  | o :: l' =>
      match o, option_all l' with
      | Some x, Some xs => Some (x :: xs)
      | _, _ => None
      end
  end.

(** The array stored by [dst[:, :, :] = src]: [src] broadcast to the shape of
    [dst], or [None] when the shapes do not agree. *)
Definition assign3 {A} (dst src : array3 A) : option (array3 A) :=
  match broadcast_to (List.length dst) src with
  | None => None
  | Some planes =>
      option_all
        (map2 (fun dplane splane =>
                 match broadcast_to (List.length dplane) splane with
                 | None => None
                 | Some rows =>
                     option_all
                       (map2 (fun drow srow =>
                                broadcast_to (List.length drow) srow)
                             dplane rows)
                 end)
              dst planes)
  end.

(** [int(x)] of the section count [d // s + 1], which the source computes
    in floating point, as the interpreter runs it: a zero stride gives
    [nan] for [d = 0], which [int] rejects with [ValueError], and an
    infinity otherwise, which it rejects with [OverflowError].  For a
    stride other than zero the quotient is taken on the integers. *)
Definition int_sections (d s : Z) : outcome Z :=
  if s =? 0 then
    if d =? 0 then Raise ValueError else Raise OverflowError
  else Return (d / s + 1).

(** ** [put_patches_numba] *)

(** [out_arr[ctr, :, :, :] = patch]. *)
Definition put_patch {A} (out_arr : list (array3 A)) (ctr : Z) (patch : array3 A)
  : outcome (list (array3 A)) :=
  match np_getitem out_arr ctr with
  | None => Raise IndexError
  | Some dst =>
      match assign3 dst patch with
      | None => Raise ValueError
      | Some v =>
          Return (list_set out_arr
                    (Z.to_nat (if ctr <? 0
                               then ctr + Z.of_nat (List.length out_arr)
                               else ctr)) v)
      end
  end.

(** The kernel; it returns the filled [out_arr] and the final [ctr]. *)
Definition put_patches_numba {A} (img : array3 A) (patch_shape stride : vec3 Z)
    (out_arr : list (array3 A)) : outcome (list (array3 A) * Z) :=
  let img_shape := shape3 img in
  let d := vmap2 Z.sub img_shape patch_shape in
  n0 <~ int_sections (ax Az d) (ax Az stride) ;;
  for_each (range n0)
    (fun ix st =>
       n1 <~ int_sections (ax Ay d) (ax Ay stride) ;;
       for_each (range n1)
         (fun iy st =>
            n2 <~ int_sections (ax Ax d) (ax Ax stride) ;;
            for_each (range n2)
              (fun iz st =>
                 let '(out_arr, ctr) := st in
                 let slc_x := (ix * ax Az stride,
                               ix * ax Az stride + ax Az patch_shape) in
                 let slc_y := (iy * ax Ay stride,
                               iy * ax Ay stride + ax Ay patch_shape) in
                 let slc_z := (iz * ax Ax stride,
                               iz * ax Ax stride + ax Ax patch_shape) in
                 out_arr <~ put_patch out_arr ctr (slice3 img slc_x slc_y slc_z) ;;
                 Return (out_arr, ctr + 1))
              st)
         st)
    (out_arr, 0).

(** ** [assemble_patches] *)

(** The names bound at module level in [patches.py]. *)
Definition module_globals : list string :=
  ["np"; "guvectorize"; "int64"; "float64"; "put_patches_numba";
   "assemble_patches"]%string.

(** [f] applied, with the position inside the slice, to the elements of
    [l[a:b]]; the others are kept. *)
Definition map_slice {X} (a b : Z) (f : nat -> X -> X) (l : list X) : list X :=
  let n := Z.of_nat (List.length l) in
  let lo := Z.to_nat (slice_bound n a) in
  let hi := Z.to_nat (slice_bound n b) in
  imap_from 0
    (fun i x => if Nat.leb lo i && Nat.ltb i hi then f (i - lo)%nat x else x) l.

Section Assemble.

(** The element type with the operations the kernel uses. *)
Variable A : Type.
Variables (zero one : A) (add div : A -> A -> A).

(** The array-valued local variables, by name. *)
Definition env : Type := list (string * array3 A).

Fixpoint lookup (e : env) (name : string) : option (array3 A) :=
  match e with
  | [] => None
  | (n, v) :: e' => if String.eqb n name then Some v else lookup e' name
  end.

Fixpoint store (e : env) (name : string) (v : array3 A) : env :=
  match e with
  | [] => []
  | (n, w) :: e' =>
      if String.eqb n name then (n, v) :: e' else (n, w) :: store e' name v
  end.

(** Evaluation of a name used as an array: a local, else a module global
    (none of which is an array), else [NameError]. *)
Definition load_name (e : env) (name : string) : outcome (array3 A) :=
  match lookup e name with
  | Some v => Return v
  | None =>
      if existsb (String.eqb name) module_globals then Raise TypeError
      else Raise (NameError name)
  end.

Definition cell (v : array3 A) (i j k : nat) : A :=
  nth k (nth j (nth i v []) []) zero.

(** [arr[slc_x, slc_y, slc_z] += v], for [v] of the shape of the slice. *)
Definition add_into (arr : array3 A) (slc_x slc_y slc_z : Z * Z)
    (v : array3 A) : array3 A :=
  map_slice (fst slc_x) (snd slc_x)
    (fun i plane =>
       map_slice (fst slc_y) (snd slc_y)
         (fun j row =>
            map_slice (fst slc_z) (snd slc_z)
              (fun k c => add c (cell v i j k)) row)
         plane)
    arr.

(** The statement [name[slc_x, slc_y, slc_z] += v]. *)
Definition iadd_slice3 (e : env) (name : string) (slc_x slc_y slc_z : Z * Z)
    (v : array3 A -> outcome (array3 A)) : outcome env :=
  arr <~ load_name e name ;;
  let cur := slice3 arr slc_x slc_y slc_z in
  v <~ v cur ;;
  match assign3 cur v with
  | None => Raise ValueError
  | Some v => Return (store e name (add_into arr slc_x slc_y slc_z v))
  end.

(** [out_arr /= weights_inv]. *)
Definition idiv3 (a w : array3 A) : array3 A :=
  map2 (map2 (map2 div)) a w.

(** The kernel; it returns the final [out_arr]. *)
Definition assemble_patches (patches : list (array3 A)) (stride : vec3 Z)
    (out_arr : array3 A) : outcome (array3 A) :=
  let out_arr_shape := shape3 out_arr in
  let patch_shape := shape3 (hd [] patches) in
  let d := vmap2 Z.sub out_arr_shape patch_shape in
  let weights_inv := map (map (map (fun _ => zero))) out_arr in
  let locals : env :=
    [("out_arr", out_arr); ("weights_inv", weights_inv)]%string in
  n0 <~ int_sections (ax Az d) (ax Az stride) ;;
  st <~ for_each (range n0)
    (fun ix st =>
       n1 <~ int_sections (ax Ay d) (ax Ay stride) ;;
       for_each (range n1)
         (fun iy st =>
            n2 <~ int_sections (ax Ax d) (ax Ax stride) ;;
            for_each (range n2)
              (fun iz st =>
                 let '(locals, ctr) := st in
                 let slc_x := (ix * ax Az stride,
                               ix * ax Az stride + ax Az patch_shape) in
                 let slc_y := (iy * ax Ay stride,
                               iy * ax Ay stride + ax Ay patch_shape) in
                 let slc_z := (iz * ax Ax stride,
                               iz * ax Ax stride + ax Ax patch_shape) in
                 locals <~ iadd_slice3 locals "img" slc_x slc_y slc_z
                   (fun _ =>
                      match np_getitem patches ctr with
                      | Some patch => Return patch
                      | None => Raise IndexError
                      end) ;;
                 locals <~ iadd_slice3 locals "weights_inv" slc_x slc_y slc_z
                   (fun cur => Return (map (map (map (fun _ => one))) cur)) ;;
                 Return (locals, ctr + 1))
              st)
         st)
    (locals, 0) ;;
  out_arr <~ load_name (fst st) "out_arr" ;;
  weights_inv <~ load_name (fst st) "weights_inv" ;;
  Return (idiv3 out_arr weights_inv).

End Assemble.

(** ** Example inputs *)

(** The specification's two scenarios: a 10x10x10 patient with unit spacing
    and origin 0, a nodule of size 4 centred at [c] on every axis. *)
Definition scenario_nodule (c : Q) : Nodule.t :=
  Nodule.mk 0 (0, 0, 0) (10, 10, 10) (c, c, c) (4, 4, 4)%Q (1, 1, 1)%Q (0, 0, 0)%Q.

(** Two patients of 10 slices each, stacked; data of one row per slice is
    enough here. *)
Definition example_batch : Batch.t :=
  Batch.mk ["p0"; "p1"]%string (repeat [[0%Q]] 20) [0; 10]
    [(10, 10, 10); (10, 10, 10)] [(1, 1, 1)%Q; (1, 1, 1)%Q]
    [(0, 0, 0)%Q; (0, 0, 0)%Q] None
    (Some [scenario_nodule 5; scenario_nodule 1]).

Definition example_table : list annotation :=
  [ {| seriesuid := "p1"; coordZ := 2; coordY := 3; coordX := 4;
       diameter_mm := 6 |} ].

(** A batch whose registry has not been ingested, with a mask loaded. *)
Definition empty_batch : Batch.t :=
  Batch.mk ["p0"]%string [[[7%Q; 8%Q]]] [0] [(1, 1, 2)] [(1, 1, 1)%Q]
    [(0, 0, 0)%Q] (Some [[[1%Q; 1%Q]]]) None.

(** ** Auxiliary: [refresh_field] on one record *)

(** What one statement of [_refresh_nodules_info] does to one record. *)
Definition refresh_one {A} (table : list A) (set : Nodule.t -> A -> Nodule.t)
    (nd : Nodule.t) : Nodule.t :=
  match np_getitem table (Nodule.patient_pos nd) with
  | Some v => set nd v
  | None => nd
  end.

(** Whether the patient position of every record indexes [table]. *)
Definition positions_ok {A} (table : list A) (nodules : list Nodule.t) : bool :=
  forallb (fun nd => is_some (np_getitem table (Nodule.patient_pos nd))) nodules.

(** The batch with its registry replaced. *)
Definition with_nodules (self : Batch.t) (nodules : list Nodule.t) : Batch.t :=
  Batch.mk (Batch.indices self) (Batch.data self) (Batch.lower_bounds self)
    (Batch.shape self) (Batch.spacing self) (Batch.origin self)
    (Batch.mask self) (Some nodules).

(** The registry after the four statements, record by record. *)
Definition refreshed (self : Batch.t) (stage : nat) (nd : Nodule.t) : Nodule.t :=
  let nd1 := refresh_one (Batch.lower_bounds self) set_offset0 nd in
  let nd2 := refresh_one (Batch.spacing self) set_spacing nd1 in
  let nd3 := refresh_one (Batch.origin self) set_origin nd2 in
  let nd4 := refresh_one (Batch.shape self) set_img_size nd3 in
  match stage with
  | O => nd
  | 1%nat => nd1
  | 2%nat => nd2
  | 3%nat => nd3
  | _ => nd4
  end.

(** The stage at which [_refresh_nodules_info] stops: 4 when it returns. *)
Definition refresh_stage (self : Batch.t) (nodules : list Nodule.t) : nat :=
  if negb (positions_ok (Batch.lower_bounds self) nodules) then 0
  else if negb (positions_ok (Batch.spacing self) nodules) then 1
  else if negb (positions_ok (Batch.origin self) nodules) then 2
  else if negb (positions_ok (Batch.shape self) nodules) then 3
  else 4.

(** Draws that always pick the second patient and the same uniform sample. *)
Definition example_draws : draws :=
  {| normal_shift := fun _ => (0, 0, 0)%Q;
     sample_indices := fun i => Z.of_nat (Nat.modulo i 2);
     sampled_indices := fun _ => 1;
     uniform := fun _ => (1 # 2, 1 # 3, 0)%Q |}.

(** ** Tilings

    The notions in which the result of [put_patches_numba] is described. *)

(** [a] is a regular array of shape [sh]. *)
Definition has_shape3 {A} (sh : vec3 Z) (a : array3 A) : Prop :=
  Z.of_nat (List.length a) = ax Az sh /\
  Forall (fun plane =>
            Z.of_nat (List.length plane) = ax Ay sh /\
            Forall (fun row => Z.of_nat (List.length row) = ax Ax sh) plane)
         a.

(** [a[i, j, k]]. *)
Definition get3 {A} (a : array3 A) (i j k : Z) : option A :=
  match np_getitem a i with
  | None => None
  | Some plane =>
      match np_getitem plane j with
      | None => None
      | Some row => np_getitem row k
      end
  end.

(** The number of patch positions along axis [a]. *)
Definition num_sections (shape patch_shape stride : vec3 Z) (a : axis) : Z :=
  (ax a shape - ax a patch_shape) / ax a stride + 1.

(** The position in the output of the patch with grid indices
    [(ix, iy, iz)], the last index running fastest. *)
Definition patch_number (n1 n2 ix iy iz : Z) : Z := (ix * n1 + iy) * n2 + iz.

(** The sub-volume of [img] of shape [patch_shape] that starts at
    [(ix * stride[0], iy * stride[1], iz * stride[2])]. *)
Definition sub_volume {A} (img : array3 A) (patch_shape stride : vec3 Z)
    (ix iy iz : Z) : array3 A :=
  slice3 img
    (ix * ax Az stride, ix * ax Az stride + ax Az patch_shape)
    (iy * ax Ay stride, iy * ax Ay stride + ax Ay patch_shape)
    (iz * ax Ax stride, iz * ax Ax stride + ax Ax patch_shape).

(** The sub-volumes of the grid, the first grid index running slowest. *)
Definition tiling {A} (img : array3 A) (patch_shape stride : vec3 Z)
  : list (array3 A) :=
  let n := num_sections (shape3 img) patch_shape stride in
  flat_map
    (fun ix =>
       flat_map
         (fun iy =>
            flat_map (fun iz => [sub_volume img patch_shape stride ix iy iz])
                     (range (n Ax)))
         (range (n Ay)))
    (range (n Az)).

(** A 2x2x2 volume and four output slots for patches of shape (1, 2, 1). *)
Definition example_volume : array3 Z :=
  [[[1; 2]; [3; 4]]; [[5; 6]; [7; 8]]].

Definition example_slots : list (array3 Z) := repeat [[[0]; [0]]] 4.

(** The specification's tiling scenario: a 10x10x10 volume, and eight
    output slots for patches of shape (5, 5, 5). *)
Definition scenario_volume : array3 Z := repeat (repeat (repeat 1 10) 10) 10.

Definition scenario_slots : list (array3 Z) :=
  repeat (repeat (repeat (repeat 0 5) 5) 5) 8.

(** ** [get_nodules_numba] *)

(** [np.zeros((n, size[0], size[1], size[2]))]: a negative dimension is
    rejected. *)
Definition np_zeros4 (n : nat) (size : vec3 Z) : outcome (list (array3 Q)) :=
  if (ax Az size <? 0) || (ax Ay size <? 0) || (ax Ax size <? 0)
  then Raise ValueError
  else
    Return
      (repeat
         (repeat (repeat (repeat 0%Q (Z.to_nat (ax Ax size)))
                         (Z.to_nat (ax Ay size)))
                 (Z.to_nat (ax Az size)))
         n).

(** The box of [size] cut out of [data] at [position]. *)
Definition crop {A} (data : array3 A) (position size : vec3 Z) : array3 A :=
  slice3 data
    (ax Az position, ax Az position + ax Az size)
    (ax Ay position, ax Ay position + ax Ay size)
    (ax Ax position, ax Ax position + ax Ax size).

(** The function; the final [reshape] joins the boxes along the first
    axis. *)
Definition get_nodules_numba (data : array3 Q) (positions : list (vec3 Z))
    (size : vec3 Z) : outcome (array3 Q) :=
  out_arr <~ np_zeros4 (List.length positions) size ;;
  let n_positions := Z.of_nat (List.length positions) in
  out_arr <~
    for_each (range n_positions)
      (fun i out_arr =>
         match np_getitem positions i with
         | None => Raise IndexError
         | Some p => put_patch out_arr i (crop data p size)
         end)
      out_arr ;;
  Return (List.concat out_arr).

(** The 2x2x2 volume as scan data. *)
Definition example_scan : array3 Q :=
  [[[1; 2]; [3; 4]]; [[5; 6]; [7; 8]]]%Q.

(** ** [fetch_mask_data] *)

(** [np.zeros(shape=...)] for a 3-d shape: a negative dimension is
    rejected. *)
Definition np_zeros3 (shape : vec3 Z) : outcome (array3 Q) :=
  if (ax Az shape <? 0) || (ax Ay shape <? 0) || (ax Ax shape <? 0)
  then Raise ValueError
  else
    Return
      (repeat (repeat (repeat 0%Q (Z.to_nat (ax Ax shape)))
                      (Z.to_nat (ax Ay shape)))
              (Z.to_nat (ax Az shape))).

(** A kernel's outcome inside a method. *)
Definition lift {A} (o : outcome A) : M A :=
  match o with
  | Return a => ret a
  | Raise e => raise e
  end.

Section MaskData.

(** [make_mask_numba], as for [create_mask]. *)
Variable make_mask_numba :
  array3 Q -> list (vec3 Z) -> list (vec3 Z) -> list (vec3 Z) ->
  list (vec3 Z) -> array3 Q.

Definition center_scaled (scale_factor : vec3 Q) (nd : Nodule.t) : vec3 Q :=
  vmap2 Qmult
    (vmap2 Qdiv
       (vmap Qabs (vmap2 Qminus (Nodule.nodule_center nd) (Nodule.origin nd)))
       (Nodule.spacing nd))
    scale_factor.

Definition size_scaled (scale_factor : vec3 Q) (nd : Nodule.t) : vec3 Q :=
  vmap2 Qdiv (vmap2 Qmult scale_factor (Nodule.nodule_size nd))
             (Nodule.spacing nd).

Definition start_scaled (scale_factor : vec3 Q) (nd : Nodule.t) : vec3 Z :=
  vmap Np.rint
    (vmap2 Qminus (center_scaled scale_factor nd)
                  (vmap (fun s => s / 2)%Q (size_scaled scale_factor nd))).

Definition fetch_mask_data (mask_shape : vec3 Z) : M (array3 Q) :=
  self <- get_self ;;
  (if is_some (Batch.nodules self) then ret tt
   else logger_warning
     "Info about nodules location must be loaded before calling this method. Nothing happened.") ;;;
  mask <- lift (np_zeros3 (Batch.len self * ax Az mask_shape,
                           ax Ay mask_shape, ax Ax mask_shape)) ;;
  shape0 <- indexed (np_getitem (Batch.shape self) 0) ;;
  let scale_factor := vmap2 Qdiv (Zq mask_shape) (Zq shape0) in
  nodules <- self_nodules ;;
  let offset_scaled nd :=
    vmap Np.rint (vmap2 Qmult (Zq (Nodule.offset nd)) scale_factor) in
  let img_size_scaled nd :=
    vmap Np.rint (vmap2 Qmult (Zq (Nodule.img_size nd)) scale_factor) in
  let nod_size_scaled nd := vmap Np.rint (size_scaled scale_factor nd) in
  ret (make_mask_numba mask
         (map offset_scaled nodules)
         (map (fun nd => vmap2 Z.add (img_size_scaled nd) (offset_scaled nd))
              nodules)
         (map (start_scaled scale_factor) nodules)
         (map nod_size_scaled nodules)).

End MaskData.

(** ** [sample_nodules], the cropping of the data *)

(** [sample_nodules] up to and including
    [data = get_nodules_numba(self.data, nodules_indices, nodule_size)],
    where [nodules_indices] stacks the two blocks. *)
Definition sample_nodules_data (batch_size : Z) (nodule_size : vec3 Z)
    (share : Q) (variance : option (list Q)) (rnd : draws) : M (array3 Q) :=
  blocks <- sample_nodules_indices batch_size nodule_size share variance rnd ;;
  let nodules_indices := fst blocks ++ snd blocks in
  self <- get_self ;;
  lift (get_nodules_numba (Batch.data self) nodules_indices nodule_size).

(** The box of [size] that starts at [start] lies inside an array of shape
    [shape]. *)
Definition box_inside (shape size start : vec3 Z) : Prop :=
  forall a, 0 <= ax a start /\ ax a start + ax a size <= ax a shape.

(** A patient's block, given by its offset and its shape, lies inside an
    array of shape [shape] and is at least as large as the box. *)
Definition block_inside (shape size offset block : vec3 Z) : Prop :=
  forall a,
    ax a size <= ax a block /\
    0 <= ax a offset /\ ax a offset + ax a block <= ax a shape.

(** Two patients of two 2x2 slices each, with one nodule each. *)
Definition stacked_batch : Batch.t :=
  Batch.mk ["p0"; "p1"]%string (example_scan ++ example_scan) [0; 2]
    [(2, 2, 2); (2, 2, 2)] [(1, 1, 1)%Q; (1, 1, 1)%Q]
    [(0, 0, 0)%Q; (0, 0, 0)%Q] None
    (Some [Nodule.mk 0 (0, 0, 0) (2, 2, 2) (1, 1, 1)%Q (1, 1, 1)%Q
             (1, 1, 1)%Q (0, 0, 0)%Q;
           Nodule.mk 1 (2, 0, 0) (2, 2, 2) (0, 1, 0)%Q (1, 1, 1)%Q
             (1, 1, 1)%Q (0, 0, 0)%Q]).

(** ** Auxiliary: the registry that [fetch_nodules_info] builds *)

(** The record that the loop of [fetch_nodules_info] writes for one row of
    the table, before the refresh. *)
Definition annotated_record (indices : list string) (row : annotation)
  : Nodule.t :=
  let pos := match index_get_pos indices (seriesuid row) with
             | Some p => p
             | None => 0
             end in
  let diam := diameter_mm row in
  Nodule.mk pos (0, 0, 0) (0, 0, 0) (coordZ row, coordY row, coordX row)
    (diam, diam, diam) (0, 0, 0)%Q (0, 0, 0)%Q.

(** The rows of the table whose patient is in the batch. *)
Definition rows_in_batch (df : list annotation) (indices : list string)
  : list annotation :=
  filter (fun r => existsb (String.eqb (seriesuid r)) indices) df.

(** ** [_update_nodule_size] *)





(* ================================================================= *)
(** * Properties *)

Lemma ax_vmap {A B} (f : A -> B) a v : ax a (vmap f v) = f (ax a v).
Proof. destruct v as [[z y] x], a; reflexivity. Qed.

Lemma ax_vmap2 {A B C} (f : A -> B -> C) a u v :
  ax a (vmap2 f u v) = f (ax a u) (ax a v).
Proof. destruct u as [[p q] r], v as [[z y] x], a; reflexivity. Qed.

Lemma ax_Zq a v : ax a (Zq v) = inject_Z (ax a v).
Proof. apply ax_vmap. Qed.

Ltac axes := repeat (rewrite ?ax_vmap2, ?ax_vmap, ?ax_Zq).

(** ** Clamping *)

(** *** Rounding to [float64] *)

Lemma rint_floor (x : Q) : Qfloor x <= Np.rint x <= Qfloor x + 1.
Proof.
  unfold Np.rint.
  destruct (Qcompare (x - inject_Z (Qfloor x)) (1 # 2)); [| lia | lia].
  destruct (Z.even (Qfloor x)); lia.
Qed.

Lemma rint_ge (x : Q) (n : Z) : (inject_Z n <= x)%Q -> n <= Np.rint x.
Proof.
  intros H. pose proof (Qfloor_resp_le _ _ H) as F. rewrite Qfloor_Z in F.
  pose proof (rint_floor x). lia.
Qed.

Lemma rint_le (x : Q) (n : Z) : (x <= inject_Z n)%Q -> Np.rint x <= n.
Proof.
  intros H. pose proof (Qfloor_resp_le _ _ H) as F. rewrite Qfloor_Z in F.
  destruct (Z.eq_dec (Qfloor x) n) as [E | E].
  - unfold Np.rint. rewrite E.
    assert (L : (x - inject_Z n <= 0)%Q) by lra.
    destruct (Qcompare_spec (x - inject_Z n) (1 # 2)) as [C | C | C];
      [exfalso; lra | lia | exfalso; lra].
  - pose proof (rint_floor x). lia.
Qed.

Lemma rint_near (x : Q) :
  (x - (1 # 2) <= inject_Z (Np.rint x) <= x + (1 # 2))%Q.
Proof.
  pose proof (Qfloor_le x) as L. pose proof (Qlt_floor x) as U.
  rewrite inject_Z_plus in U. change (inject_Z 1) with 1%Q in U.
  unfold Np.rint.
  destruct (Qcompare_spec (x - inject_Z (Qfloor x)) (1 # 2)) as [C | C | C].
  - destruct (Z.even (Qfloor x)); [lra |].
    rewrite inject_Z_plus. change (inject_Z 1) with 1%Q. lra.
  - lra.
  - rewrite inject_Z_plus. change (inject_Z 1) with 1%Q. lra.
Qed.

Lemma pow2_pos (e : Z) : (0 < F64.pow2 e)%Q.
Proof. apply Qpower_0_lt. reflexivity. Qed.

Lemma pow2_le (a b : Z) : a <= b -> (F64.pow2 a <= F64.pow2 b)%Q.
Proof. intros H. apply Qpower_le_compat_l; [exact H | discriminate]. Qed.

Lemma pow2_lt (a b : Z) : a < b -> (F64.pow2 a < F64.pow2 b)%Q.
Proof. intros H. apply Qpower_lt_compat_l; [exact H | reflexivity]. Qed.

Lemma pow2_add (a b : Z) : (F64.pow2 (a + b) == F64.pow2 a * F64.pow2 b)%Q.
Proof. apply Qpower_plus. discriminate. Qed.

Lemma pow2_Z (n : Z) : 0 <= n -> (F64.pow2 n == inject_Z (2 ^ n))%Q.
Proof. intros H. unfold F64.pow2. now rewrite Zpower_Qpower. Qed.

Lemma pow2_inv (g : Z) : (F64.pow2 g * F64.pow2 (- g) == 1)%Q.
Proof.
  rewrite <- pow2_add. replace (g + - g) with 0 by lia. reflexivity.
Qed.

Lemma Qdiv_lt_cross (x y z w : Q) :
  (0 < y)%Q -> (0 < w)%Q -> (x * w < z * y)%Q -> (x / y < z / w)%Q.
Proof.
  intros Hy Hw H. apply Qlt_shift_div_r; [exact Hy |].
  setoid_replace (z / w * y)%Q with (z * y / w)%Q
    by (field; intros E; rewrite E in Hw; discriminate).
  apply Qlt_shift_div_l; [exact Hw | exact H].
Qed.

(** [ilog2] brackets [|q|] between two powers of two. *)
Lemma ilog2_spec (q : Q) :
  ~ (q == 0)%Q ->
  (F64.pow2 (F64.ilog2 q) <= Qabs q < F64.pow2 (F64.ilog2 q + 1))%Q.
Proof.
  intros Hq. destruct q as [n d].
  assert (Hn : 0 < Z.abs n).
  { destruct (Z.eq_dec n 0) as [-> | E]; [exfalso; apply Hq; reflexivity | lia]. }
  pose proof (Z.log2_spec _ Hn) as [Ln Un].
  pose proof (Z.log2_spec (Zpos d) ltac:(lia)) as [Ld Ud].
  pose proof (Z.log2_nonneg (Z.abs n)) as Na.
  pose proof (Z.log2_nonneg (Zpos d)) as Nb.
  set (a := Z.log2 (Z.abs n)) in *. set (b := Z.log2 (Zpos d)) in *.
  assert (Eabs : (Qabs (n # d) == inject_Z (Z.abs n) / inject_Z (Zpos d))%Q).
  { unfold Qabs. apply Qmake_Qdiv. }
  assert (Dpos : (0 < inject_Z (Zpos d))%Q) by reflexivity.
  assert (Ea : forall k, (F64.pow2 (a - b + k)
                          == inject_Z (2 ^ a) * F64.pow2 k / inject_Z (2 ^ b))%Q).
  { intros k. replace (a - b + k) with (a + (k + - b)) by lia.
    rewrite !pow2_add, (pow2_Z a) by lia.
    unfold F64.pow2 at 2. rewrite Qpower_opp. fold (F64.pow2 b).
    rewrite (pow2_Z b) by lia. field.
    intros E. pose proof (Z.pow_pos_nonneg 2 b ltac:(lia) ltac:(lia)).
    apply (inject_Z_injective (2 ^ b) 0) in E. lia. }
  assert (B2 : (0 < inject_Z (2 ^ b))%Q).
  { change 0%Q with (inject_Z 0). rewrite <- Zlt_Qlt.
    apply Z.pow_pos_nonneg; lia. }
  assert (Up : (Qabs (n # d) < F64.pow2 (a - b + 1))%Q).
  { rewrite Eabs, (Ea 1). change (F64.pow2 1) with (inject_Z 2).
    apply Qdiv_lt_cross; [exact Dpos | exact B2 |].
    replace (Z.succ a) with (a + 1) in Un by lia.
    rewrite Z.pow_add_r in Un by lia.
    rewrite <- !inject_Z_mult, <- Zlt_Qlt. nia. }
  assert (Lo : (F64.pow2 (a - b - 1) < Qabs (n # d))%Q).
  { replace (a - b - 1) with (a - b + -1) by lia.
    rewrite Eabs, (Ea (-1)). change (F64.pow2 (-1)) with (1 # 2)%Q.
    apply Qdiv_lt_cross; [exact B2 | exact Dpos |].
    replace (Z.succ b) with (b + 1) in Ud by lia.
    rewrite Z.pow_add_r in Ud by lia.
    assert (G : (inject_Z (2 ^ a) * inject_Z (Zpos d)
                 < inject_Z (Z.abs n) * inject_Z (2 ^ b) * inject_Z 2)%Q).
    { rewrite <- !inject_Z_mult, <- Zlt_Qlt. nia. }
    change (inject_Z 2) with 2%Q in G. lra. }
  unfold F64.ilog2. cbn [Qnum Qden]. fold a b.
  destruct (Qle_bool (F64.pow2 (a - b)) (Qabs (n # d))) eqn:T.
  - apply Qle_bool_iff in T. split; [exact T | exact Up].
  - split; [apply Qlt_le_weak; exact Lo |].
    replace (a - b - 1 + 1) with (a - b) by lia.
    apply Qnot_le_lt. intros C. apply Qle_bool_iff in C. congruence.
Qed.

Lemma ilog2_le (q : Q) (k : Z) :
  ~ (q == 0)%Q -> (Qabs q <= F64.pow2 k)%Q -> F64.ilog2 q <= k.
Proof.
  intros Hq H. destruct (ilog2_spec q Hq) as [L _].
  apply (Qpower_le_compat_l_inv 2); [| reflexivity].
  exact (Qle_trans _ _ _ L H).
Qed.

(** Rounding a number of magnitude at most [2 ^ 48]: the result is finite,
    in lowest terms, within [1 / 32] of the number, and on the same side of
    every integer. *)
Lemma round_small (q : Q) :
  (Qabs q <= 281474976710656)%Q ->
  exists r,
    F64.round q = F64.Fin r /\ Qred r = r /\
    (q - (1 # 32) <= r <= q + (1 # 32))%Q /\
    (forall n, (inject_Z n <= q)%Q -> (inject_Z n <= r)%Q) /\
    (forall n, (q <= inject_Z n)%Q -> (r <= inject_Z n)%Q).
Proof.
  intros Hq. unfold F64.round.
  destruct (Qeq_bool q 0) eqn:Z0.
  - apply Qeq_bool_eq in Z0. exists 0%Q.
    split; [reflexivity |]. split; [reflexivity |].
    split; [lra |]. split; intros n Hn; lra.
  - apply Qeq_bool_neq in Z0. cbv zeta.
    set (g := F64.grid q).
    assert (Hg : g <= -4).
    { unfold g, F64.grid.
      pose proof (ilog2_le q 48 Z0 Hq). lia. }
    pose proof (pow2_pos g) as Ppos.
    pose proof (pow2_le g (-4) Hg) as Ple.
    change (F64.pow2 (-4)) with (1 # 16)%Q in Ple.
    pose proof (pow2_inv g) as Pinv.
    assert (Ip : (F64.pow2 (- g) == inject_Z (2 ^ (- g)))%Q)
      by (apply pow2_Z; lia).
    set (P := F64.pow2 g) in *.
    set (x := (q / P)%Q).
    assert (Ex : (x * P == q)%Q).
    { unfold x. field. intros E. rewrite E in Ppos. discriminate. }
    assert (Ex' : (x == q * F64.pow2 (- g))%Q).
    { rewrite <- Ex.
      setoid_replace (x * P * F64.pow2 (- g))%Q
        with (x * (P * F64.pow2 (- g)))%Q by ring.
      rewrite Pinv. ring. }
    pose proof (rint_near x) as [N1 N2].
    set (m := Np.rint x) in *.
    set (y := (inject_Z m * P)%Q).
    assert (Ey : (Qred y == y)%Q) by apply Qred_correct.
    assert (Near : (q - (1 # 32) <= y <= q + (1 # 32))%Q).
    { unfold y. split; nra. }
    assert (Ge : forall n, (inject_Z n <= q)%Q -> (inject_Z n <= y)%Q).
    { intros n Hn.
      assert (K : n * 2 ^ (- g) <= m).
      { apply rint_ge. rewrite inject_Z_mult, <- Ip, Ex'.
        apply Qmult_le_compat_r; [exact Hn |].
        apply Qlt_le_weak, pow2_pos. }
      rewrite Zle_Qle, inject_Z_mult, <- Ip in K.
      unfold y.
      setoid_replace (inject_Z n)
        with (inject_Z n * F64.pow2 (- g) * P)%Q.
      - apply Qmult_le_compat_r; [exact K | lra].
      - rewrite <- Qmult_assoc, (Qmult_comm (F64.pow2 (- g))). fold P.
        rewrite Pinv. ring. }
    assert (Le : forall n, (q <= inject_Z n)%Q -> (y <= inject_Z n)%Q).
    { intros n Hn.
      assert (K : m <= n * 2 ^ (- g)).
      { apply rint_le. rewrite inject_Z_mult, <- Ip, Ex'.
        apply Qmult_le_compat_r; [exact Hn |].
        apply Qlt_le_weak, pow2_pos. }
      rewrite Zle_Qle, inject_Z_mult, <- Ip in K.
      unfold y.
      setoid_replace (inject_Z n)
        with (inject_Z n * F64.pow2 (- g) * P)%Q.
      - apply Qmult_le_compat_r; [exact K | lra].
      - rewrite <- Qmult_assoc, (Qmult_comm (F64.pow2 (- g))). fold P.
        rewrite Pinv. ring. }
    assert (Big : Qle_bool (F64.pow2 1024) (Qabs (Qred y)) = false).
    { destruct (Qle_bool (F64.pow2 1024) (Qabs (Qred y))) eqn:B;
        [| reflexivity].
      exfalso. apply Qle_bool_iff in B. rewrite Ey in B.
      apply Qabs_Qle_condition in Hq.
      assert (Hy : (Qabs y <= 281474976710657)%Q)
        by (apply Qabs_Qle_condition; lra).
      pose proof (pow2_lt 49 1024 ltac:(lia)) as C.
      change (F64.pow2 49) with 562949953421312%Q in C. lra. }
    fold y. rewrite Big. exists (Qred y).
    split; [reflexivity |]. split; [apply Qred_complete, Qred_correct |].
    split; [rewrite Ey; exact Near |].
    split; intros n Hn; rewrite Ey; auto.
Qed.

(** *** The clamps *)

Lemma Qred_inject_Z (n : Z) : Qred (inject_Z n) = inject_Z n.
Proof.
  unfold Qred, inject_Z.
  pose proof (Z.ggcd_gcd n 1) as G.
  pose proof (Z.ggcd_correct_divisors n 1) as D.
  destruct (Z.ggcd n 1) as [g [aa bb]]. cbn [fst] in G.
  rewrite Z.gcd_1_r in G. subst g. destruct D as [Da Db].
  rewrite Z.mul_1_l in Da, Db. now subst aa bb.
Qed.

(** Rounding is exact on the integers up to [2 ^ 48]. *)
Lemma round_int (q : Q) (n : Z) :
  (q == inject_Z n)%Q -> Z.abs n <= 281474976710656 ->
  F64.round q = F64.Fin (inject_Z n).
Proof.
  intros E Hn.
  destruct (round_small q) as (r & Er & Cr & _ & Ge & Le).
  - rewrite E. apply Qabs_Qle_condition.
    change 281474976710656%Q with (inject_Z 281474976710656).
    rewrite <- inject_Z_opp, <- !Zle_Qle. lia.
  - rewrite Er. f_equal.
    assert (R : (r == inject_Z n)%Q).
    { apply Qle_antisym; [apply Le | apply Ge]; rewrite E; apply Qle_refl. }
    rewrite <- Cr, <- (Qred_inject_Z n). now apply Qred_complete.
Qed.

Lemma of_Z_small (n : Z) :
  Z.abs n <= 281474976710656 -> F64.of_Z n = F64.Fin (inject_Z n).
Proof. intros H. apply round_int; [reflexivity | exact H]. Qed.

Lemma fmax0_Fin (a : Q) :
  fmax0 (F64.Fin a) = if Qle_bool a 0 then F64.Fin 0 else F64.Fin a.
Proof. reflexivity. Qed.

Lemma fmax0_int (k : Z) :
  fmax0 (F64.Fin (inject_Z k)) = F64.Fin (inject_Z (Z.max k 0)).
Proof.
  rewrite fmax0_Fin.
  destruct (Qle_bool (inject_Z k) 0) eqn:T.
  - apply Qle_bool_iff in T. change 0%Q with (inject_Z 0) in T.
    rewrite <- Zle_Qle in T. now rewrite Z.max_r by exact T.
  - assert (0 < k).
    { apply Z.lt_nge. intros C. rewrite Zle_Qle in C.
      apply Qle_bool_iff in C. change (inject_Z 0) with 0%Q in C. congruence. }
    now rewrite Z.max_l by lia.
Qed.

Lemma fadd_int (a b : Z) :
  Z.abs (a + b) <= 281474976710656 ->
  F64.add (F64.Fin (inject_Z a)) (F64.Fin (inject_Z b))
  = F64.Fin (inject_Z (a + b)).
Proof.
  intros H. apply round_int; [now rewrite inject_Z_plus | exact H].
Qed.

Lemma fsub_int (a b : Z) :
  Z.abs (a - b) <= 281474976710656 ->
  F64.sub (F64.Fin (inject_Z a)) (F64.Fin (inject_Z b))
  = F64.Fin (inject_Z (a - b)).
Proof.
  intros H. apply round_int; [| exact H].
  unfold Z.sub. now rewrite inject_Z_plus, inject_Z_opp.
Qed.

(** The two clamps on integers of moderate magnitude are exact. *)
Lemma clamp_steps_int (n size img : Z) :
  Z.abs n <= 4 * moderate_bound ->
  0 <= size <= moderate_bound -> 0 <= img <= moderate_bound ->
  clamp_steps (F64.Fin (inject_Z n)) size img
  = (F64.Fin (inject_Z (fst (clamp_steps_Z n size img))),
     F64.Fin (inject_Z (snd (clamp_steps_Z n size img)))).
Proof.
  unfold moderate_bound. intros Hn Hs Hi.
  unfold clamp_steps, clamp_steps_Z. cbn [fst snd].
  rewrite !of_Z_small by lia.
  rewrite fadd_int by lia.
  rewrite fsub_int by lia.
  rewrite fmax0_int.
  rewrite !fsub_int by lia.
  change (F64.opp (F64.Fin (inject_Z ?k))) with (F64.Fin (inject_Z (- k))).
  rewrite fmax0_int.
  rewrite !fadd_int by lia.
  reflexivity.
Qed.

Lemma round_zero (q : Q) : (q == 0)%Q -> F64.round q = F64.Fin 0.
Proof.
  intros E. unfold F64.round. now rewrite (Qeq_eq_bool _ _ E).
Qed.

Lemma fadd_Fin (a b : Q) :
  F64.add (F64.Fin a) (F64.Fin b) = F64.round (a + b).
Proof. reflexivity. Qed.

Lemma fsub_Fin (a b : Q) :
  F64.sub (F64.Fin a) (F64.Fin b) = F64.round (a + - b).
Proof. reflexivity. Qed.

Ltac round_step r Nr :=
  match goal with
  | |- context [F64.round ?q] =>
      let Er := fresh "Er" in
      destruct (round_small q) as (r & Er & _ & Nr & _);
      [apply Qabs_Qle_condition; split; lra | rewrite Er; clear Er]
  end.

Lemma inject_Z_moderate (n lo hi : Z) :
  lo <= n <= hi -> (inject_Z lo <= inject_Z n <= inject_Z hi)%Q.
Proof. intros [H1 H2]. split; now rewrite <- Zle_Qle. Qed.

(** The two clamps from a start of moderate magnitude: both results are
    finite, the start is not negative, it exceeds [img_size - size] by at
    most [1 / 8], and it is zero for a box larger than the image. *)
Lemma clamp_steps_near (s1 : Q) (size img : Z) :
  (Qabs s1 <= 4398046511104)%Q ->
  0 <= size <= moderate_bound -> 0 <= img <= moderate_bound ->
  exists s e,
    clamp_steps (F64.Fin s1) size img = (F64.Fin s, F64.Fin e) /\
    (0 <= s)%Q /\
    (size <= img -> (s + inject_Z size <= inject_Z img + (1 # 8))%Q) /\
    (img < size -> s = 0%Q).
Proof.
  unfold moderate_bound. intros H1 Hs Hi.
  apply Qabs_Qle_condition in H1.
  pose proof (inject_Z_moderate _ _ _ Hs) as Qs.
  pose proof (inject_Z_moderate _ _ _ Hi) as Qi.
  change (inject_Z 0) with 0%Q in Qs, Qi.
  change (inject_Z 1099511627776) with 1099511627776%Q in Qs, Qi.
  assert (Cmp : (size <= img ->
                 (inject_Z size <= inject_Z img)%Q) /\
                (img < size ->
                 (inject_Z img + 1 <= inject_Z size)%Q)).
  { split; intros C.
    - now rewrite <- Zle_Qle.
    - change 1%Q with (inject_Z 1). rewrite <- inject_Z_plus, <- Zle_Qle. lia. }
  destruct Cmp as [CmpLe CmpLt].
  unfold clamp_steps.
  rewrite !of_Z_small by lia.
  rewrite fadd_Fin. round_step e1 Ne1.
  rewrite fsub_Fin. round_step b0 Nb0.
  rewrite fmax0_Fin.
  destruct (Qle_bool b0 0) eqn:Tb;
    [apply Qle_bool_iff in Tb
    | assert (Tb' : (0 < b0)%Q)
        by (apply Qnot_le_lt; intros C; apply Qle_bool_iff in C; congruence)];
    rewrite !fsub_Fin;
    round_step s' Ns'; round_step e' Ne';
    change (F64.opp (F64.Fin s')) with (F64.Fin (- s'));
    rewrite fmax0_Fin;
    (destruct (Qle_bool (- s') 0) eqn:Ts;
     [apply Qle_bool_iff in Ts
     | assert (Ts' : (s' < 0)%Q)
         by (apply Qnot_le_lt; intros C;
             assert (C' : (- s' <= 0)%Q) by lra;
             apply Qle_bool_iff in C'; congruence)]);
    rewrite !fadd_Fin.
  - (* no overflow, no underflow *)
    destruct (round_small (s' + 0)) as (s2 & E2 & _ & N2 & G2 & _);
      [apply Qabs_Qle_condition; split; lra |].
    rewrite E2. round_step e2 Ne2.
    exists s2, e2. split; [reflexivity |]. split; [| split].
    + change 0%Q with (inject_Z 0). apply G2.
      change (inject_Z 0) with 0%Q. lra.
    + intros C. specialize (CmpLe C). lra.
    + intros C. specialize (CmpLt C). exfalso. lra.
  - (* no overflow, underflow *)
    rewrite (round_zero (s' + - s')) by ring.
    round_step e2 Ne2.
    exists 0%Q, e2. split; [reflexivity |]. split; [lra |]. split.
    + intros C. specialize (CmpLe C). lra.
    + reflexivity.
  - (* overflow, no underflow *)
    destruct (round_small (s' + 0)) as (s2 & E2 & _ & N2 & G2 & _);
      [apply Qabs_Qle_condition; split; lra |].
    rewrite E2. round_step e2 Ne2.
    exists s2, e2. split; [reflexivity |]. split; [| split].
    + change 0%Q with (inject_Z 0). apply G2.
      change (inject_Z 0) with 0%Q. lra.
    + intros C. specialize (CmpLe C). lra.
    + intros C. specialize (CmpLt C). exfalso. lra.
  - (* overflow, underflow *)
    rewrite (round_zero (s' + - s')) by ring.
    round_step e2 Ne2.
    exists 0%Q, e2. split; [reflexivity |]. split; [lra |]. split.
    + intros C. specialize (CmpLe C). lra.
    + reflexivity.
Qed.

Lemma clamped_start_steps (center_pixel : F64.t) (size img : Z)
    (j : option Q) :
  spec_clamped_start center_pixel size img j
  = clamp_steps (start_before_clamps center_pixel size j) size img.
Proof. reflexivity. Qed.

(** The start before the clamps is finite and of moderate magnitude; it is
    an integer when there is no jitter. *)
Lemma start_before_clamps_moderate (x : Q) (size : Z) (j : option Q) :
  (Qabs x <= inject_Z moderate_bound)%Q ->
  0 <= size <= moderate_bound ->
  match j with
  | Some d => (Qabs d <= inject_Z moderate_bound)%Q
  | None => True
  end ->
  exists s1,
    start_before_clamps (F64.Fin x) size j = F64.Fin s1 /\
    (Qabs s1 <= 4398046511104)%Q /\
    (j = None ->
     exists n, s1 = inject_Z n /\ Z.abs n <= 4 * moderate_bound).
Proof.
  unfold moderate_bound. intros Hx Hs Hj.
  apply Qabs_Qle_condition in Hx.
  change (inject_Z 1099511627776) with 1099511627776%Q in *.
  pose proof (inject_Z_moderate _ _ _ Hs) as Qs.
  change (inject_Z 0) with 0%Q in Qs.
  change (inject_Z 1099511627776) with 1099511627776%Q in Qs.
  unfold start_before_clamps.
  change (F64.rint (F64.Fin x)) with (F64.Fin (inject_Z (Np.rint x))).
  assert (Hc : -1099511627776 <= Np.rint x <= 1099511627776).
  { split; [apply rint_ge | apply rint_le];
      change (inject_Z (-1099511627776)) with (-1099511627776)%Q;
      change (inject_Z 1099511627776) with 1099511627776%Q; lra. }
  rewrite !of_Z_small by lia.
  change (F64.div (F64.Fin (inject_Z size)) (F64.Fin (inject_Z 2)))
    with (F64.round (inject_Z size / inject_Z 2)).
  destruct (round_small (inject_Z size / inject_Z 2))
    as (r0 & E0 & _ & _ & G0 & L0).
  { apply Qabs_Qle_condition. change (inject_Z 2) with 2%Q.
    split; [| apply Qle_shift_div_r; [reflexivity | lra]].
    apply (Qle_trans _ 0); [discriminate |].
    apply Qle_shift_div_l; [reflexivity | lra]. }
  rewrite E0.
  change (F64.rint (F64.Fin r0)) with (F64.Fin (inject_Z (Np.rint r0))).
  assert (Hh : 0 <= Np.rint r0 <= 1099511627776).
  { split; [apply rint_ge, G0 | apply rint_le, L0];
      change (inject_Z 2) with 2%Q;
      change (inject_Z 0) with 0%Q;
      change (inject_Z 1099511627776) with 1099511627776%Q.
    - apply Qle_shift_div_l; [reflexivity | lra].
    - apply Qle_shift_div_r; [reflexivity | lra]. }
  rewrite fsub_int by lia.
  set (n := Np.rint x - Np.rint r0) in *.
  assert (Hn : -2199023255552 <= n <= 2199023255552) by (unfold n; lia).
  pose proof (inject_Z_moderate _ _ _ Hn) as Qn.
  change (inject_Z (-2199023255552)) with (-2199023255552)%Q in Qn.
  change (inject_Z 2199023255552) with 2199023255552%Q in Qn.
  destruct j as [d |].
  - apply Qabs_Qle_condition in Hj.
    unfold F64.of_Q.
    destruct (round_small d) as (d' & Ed & _ & _ & Gd & Ld);
      [apply Qabs_Qle_condition; split; lra |].
    rewrite Ed.
    assert (Hd : (-1099511627776 <= d' <= 1099511627776)%Q).
    { split.
      - change (-1099511627776)%Q with (inject_Z (-1099511627776)).
        apply Gd. change (inject_Z (-1099511627776)) with (-1099511627776)%Q.
        lra.
      - change 1099511627776%Q with (inject_Z 1099511627776).
        apply Ld. change (inject_Z 1099511627776) with 1099511627776%Q.
        lra. }
    rewrite fadd_Fin.
    destruct (round_small (inject_Z n + d')) as (s1 & E1 & _ & N1 & _);
      [apply Qabs_Qle_condition; split; lra |].
    rewrite E1. exists s1. split; [reflexivity |]. split.
    + apply Qabs_Qle_condition. split; lra.
    + discriminate.
  - exists (inject_Z n). split; [reflexivity |]. split.
    + apply Qabs_Qle_condition. split; lra.
    + intros _. exists n. split; [reflexivity | lia].
Qed.

(** The clamped start from a finite centre of moderate magnitude. *)
Lemma clamped_start_moderate (x : Q) (size img : Z) (j : option Q) :
  (Qabs x <= inject_Z moderate_bound)%Q ->
  0 <= size <= moderate_bound -> 0 <= img <= moderate_bound ->
  match j with
  | Some d => (Qabs d <= inject_Z moderate_bound)%Q
  | None => True
  end ->
  exists s e,
    spec_clamped_start (F64.Fin x) size img j = (F64.Fin s, F64.Fin e) /\
    (0 <= s)%Q /\
    (size <= img -> (s + inject_Z size <= inject_Z img + (1 # 8))%Q) /\
    (img < size -> s = 0%Q) /\
    (j = None ->
     exists n,
       s = inject_Z n /\ e = inject_Z (n + size) /\
       (size <= img -> n + size <= img)).
Proof.
  intros Hx Hs Hi Hj. rewrite clamped_start_steps.
  destruct (start_before_clamps_moderate x size j Hx Hs Hj)
    as (s1 & -> & H1 & Hint).
  destruct j as [d |].
  - destruct (clamp_steps_near s1 size img H1 Hs Hi)
      as (s & e & E & P0 & P1 & P2).
    exists s, e. repeat (split; [assumption |]). discriminate.
  - destruct (Hint eq_refl) as (n & -> & Hn).
    rewrite clamp_steps_int by assumption.
    unfold moderate_bound in *. unfold clamp_steps_Z. cbn [fst snd].
    eexists. eexists. split; [reflexivity |].
    split; [change 0%Q with (inject_Z 0); rewrite <- Zle_Qle; lia |].
    split; [| split].
    + intros C. rewrite <- inject_Z_plus.
      apply (Qle_trans _ (inject_Z img)); [rewrite <- Zle_Qle; lia |].
      rewrite <- (Qplus_0_r (inject_Z img)) at 1.
      apply Qplus_le_r. discriminate.
    + intros C. change 0%Q with (inject_Z 0). f_equal. lia.
    + intros _. eexists. split; [reflexivity |].
      split; [f_equal; lia | lia].
Qed.

Lemma fit_row_axis (nd : Nodule.t) (size : vec3 Z) (shift : option (vec3 Q))
    (a : axis) :
  (ax a (fst (fit_row nd size shift)), ax a (snd (fit_row nd size shift)))
  = spec_clamped_start (ax a (center_pix nd)) (ax a size)
      (ax a (Nodule.img_size nd)) (option_map (ax a) shift).
Proof.
  unfold fit_row, spec_clamped_start.
  destruct shift; cbn [option_map fst snd]; axes; reflexivity.
Qed.


(** The box of a record on one axis, under the magnitude conditions. *)
Lemma fit_row_moderate (nd : Nodule.t) (size : vec3 Z)
    (shift : option (vec3 Q)) (a : axis) :
  moderate nd size shift a ->
  exists s e,
    ax a (fst (fit_row nd size shift)) = F64.Fin s /\
    ax a (snd (fit_row nd size shift)) = F64.Fin e /\
    (0 <= s)%Q /\
    (ax a size <= ax a (Nodule.img_size nd) ->
     (s + inject_Z (ax a size)
      <= inject_Z (ax a (Nodule.img_size nd)) + (1 # 8))%Q) /\
    (ax a (Nodule.img_size nd) < ax a size -> s = 0%Q) /\
    (shift = None ->
     exists n,
       s = inject_Z n /\ e = inject_Z (n + ax a size) /\
       (ax a size <= ax a (Nodule.img_size nd) ->
        n + ax a size <= ax a (Nodule.img_size nd))).
Proof.
  intros (Hc & Hs & Hi & _ & Hj).
  pose proof (fit_row_axis nd size shift a) as E.
  destruct (ax a (center_pix nd)) as [x | |]; try discriminate Hc.
  cbn [F64.within] in Hc. apply Qle_bool_iff in Hc.
  change (F64.pow2 40) with (inject_Z moderate_bound) in Hc.
  destruct (clamped_start_moderate x (ax a size) (ax a (Nodule.img_size nd))
              (option_map (ax a) shift) Hc Hs Hi)
    as (s & e & Es & P).
  { destruct shift; [exact Hj | exact I]. }
  rewrite Es in E. injection E as E1 E2.
  exists s, e. split; [exact E1 |]. split; [exact E2 |].
  destruct P as (P0 & P1 & P2 & P3).
  repeat (split; [assumption |]).
  intros ->. now apply P3.
Qed.

Lemma astype_int_floor (x : Q) : (0 <= x)%Q -> Np.astype_int x = Qfloor x.
Proof.
  intros H. unfold Np.astype_int.
  destruct (Qle_bool 0 x) eqn:E; [reflexivity |].
  apply Qle_bool_iff in H. congruence.
Qed.

Example scenario_centre :
  fit_row (scenario_nodule 5) (4, 4, 4) None
  = ((F64.Fin 3, F64.Fin 3, F64.Fin 3), (F64.Fin 7, F64.Fin 7, F64.Fin 7)).
Proof. vm_compute. reflexivity. Qed.

Example scenario_corner :
  fit_row (scenario_nodule 1) (4, 4, 4) None
  = ((F64.Fin 0, F64.Fin 0, F64.Fin 0), (F64.Fin 4, F64.Fin 4, F64.Fin 4)).
Proof. vm_compute. reflexivity. Qed.

(** A record without extent: zero spacing makes the pixel centre [nan], and
    the cast gives the least [int64]. *)
Example zero_spacing_row :
  _fit_into_bounds
    (Batch.mk [] [] [] [] [] [] None
       (Some [Nodule.mk 0 (0, 0, 0) (3, 3, 3) (0, 0, 0)%Q (1, 1, 1)%Q
                (0, 0, 0)%Q (0, 0, 0)%Q]))
    (3, 3, 3) None example_draws
  = Return [(- 2 ^ 63, - 2 ^ 63, - 2 ^ 63)].
Proof. vm_compute. reflexivity. Qed.




Example jitter_start_value :
  ax Az (fst (fit_row (scenario_nodule 8) (4, 4, 4) (Some (1 # 5, 0, 0)%Q)))
  = F64.Fin (6755399441055745 # 1125899906842624).
Proof. vm_compute. reflexivity. Qed.





(** ** Running methods *)

Lemma bind_get_self {A} (k : Batch.t -> M A) (self : Batch.t) :
  bind get_self k self = k self self.
Proof.
  unfold bind, get_self. cbn [value self_after logged app].
  now destruct (k self self).
Qed.

Lemma bind_return {A B} (m : M A) (k : A -> M B) self a s l :
  m self = Run (Return a) s l ->
  bind m k self = Run (value (k a s)) (self_after (k a s)) (l ++ logged (k a s)).
Proof. intros E. unfold bind. rewrite E. reflexivity. Qed.

Lemma bind_raise {A B} (m : M A) (k : A -> M B) self e s l :
  m self = Run (Raise e) s l -> bind m k self = Run (Raise e) s l.
Proof. intros E. unfold bind. rewrite E. reflexivity. Qed.

Lemma self_nodules_none (self : Batch.t) :
  Batch.nodules self = None -> self_nodules self = Run (Raise AttributeError) self [].
Proof. intros H. unfold self_nodules. rewrite bind_get_self, H. reflexivity. Qed.

Lemma self_nodules_some (self : Batch.t) nodules :
  Batch.nodules self = Some nodules ->
  self_nodules self = Run (Return nodules) self [].
Proof. intros H. unfold self_nodules. rewrite bind_get_self, H. reflexivity. Qed.

(** ** The registry *)

(** C10. [num_nodules] is 0 when the registry has not been ingested
    ([self.nodules is None]) and otherwise the number of nodule records; it
    is a total function, so it never raises. *)
Theorem num_nodules_counts_records (self : Batch.t) :
  num_nodules self =
  match Batch.nodules self with
  | None => 0
  | Some nodules => Z.of_nat (List.length nodules)
  end.
Proof.
  unfold num_nodules. destruct (Batch.nodules self) as [nodules |].
  - now rewrite length_map.
  - reflexivity.
Qed.

(** C6. On an already populated registry, [fetch_nodules_info] without the
    overwrite flag ([update=False]) returns [self], leaves the batch, hence
    [self.nodules], as it was, and only emits one warning. *)
Theorem fetch_nodules_info_keeps_registry (self : Batch.t)
    (nodules : list Nodule.t) (nodules_df : list annotation) :
  Batch.nodules self = Some nodules ->
  fetch_nodules_info nodules_df false self =
  Run (Return Self) self
    ["Nodules have already been extracted. Put update argument as True for refreshing"%string].
Proof.
  intros H. unfold fetch_nodules_info. rewrite bind_get_self, H.
  cbn [is_some negb andb].
  erewrite bind_return by (unfold logger_warning; reflexivity).
  reflexivity.
Qed.

Lemma fetch_nodules_info_keeps_registry_witness :
  Batch.nodules example_batch = Some [scenario_nodule 5; scenario_nodule 1] /\
  fetch_nodules_info example_table false example_batch =
  Run (Return Self) example_batch
    ["Nodules have already been extracted. Put update argument as True for refreshing"%string].
Proof.
  split.
  - reflexivity.
  - apply (fetch_nodules_info_keeps_registry example_batch
             [scenario_nodule 5; scenario_nodule 1] example_table).
    reflexivity.
Defined.

(** C5 (what the code does). With no registry ([self.nodules is None])
    [create_mask] logs its warning, then overwrites [self.mask] with zeros
    and raises [AttributeError] on [self.nodules.nodule_center]. *)
Theorem create_mask_without_registry
    (make_mask_numba : array3 Q -> list (vec3 Z) -> list (vec3 Z) ->
                       list (vec3 Z) -> list (vec3 Z) -> array3 Q)
    (self : Batch.t) :
  Batch.nodules self = None ->
  value (create_mask make_mask_numba self) = Raise AttributeError /\
  Batch.mask (self_after (create_mask make_mask_numba self))
    = Some (zeros_like (Batch.data self)) /\
  logged (create_mask make_mask_numba self) =
    ["Info about nodules location must be loaded before calling this method. Nothing happened."%string].
Proof.
  intros H. unfold create_mask. rewrite bind_get_self, H.
  cbn [is_some].
  erewrite bind_return by (unfold logger_warning; reflexivity).
  erewrite bind_return by (unfold set_mask; reflexivity).
  erewrite bind_raise by (apply self_nodules_none; exact H).
  repeat split.
Qed.

Lemma create_mask_without_registry_witness :
  Batch.nodules empty_batch = None /\
  value (create_mask (fun m _ _ _ _ => m) empty_batch) = Raise AttributeError /\
  Batch.mask (self_after (create_mask (fun m _ _ _ _ => m) empty_batch))
    = Some [[[0%Q; 0%Q]]] /\
  Batch.mask empty_batch = Some [[[1%Q; 1%Q]]].
Proof.
  split; [reflexivity |].
  destruct (create_mask_without_registry (fun m _ _ _ _ => m) empty_batch
              eq_refl) as (Hv & Hm & _).
  split; [exact Hv |]. split; [exact Hm | reflexivity].
Defined.

(** ** Refreshing the registry *)

Lemma np_take_map2 {A} (table : list A) (set : Nodule.t -> A -> Nodule.t)
    (nodules : list Nodule.t) :
  match np_take table (map Nodule.patient_pos nodules) with
  | Some rows =>
      positions_ok table nodules = true /\
      map2 set nodules rows = map (refresh_one table set) nodules
  | None => positions_ok table nodules = false
  end.
Proof.
  induction nodules as [| nd nodules IH]; simpl.
  - split; reflexivity.
  - unfold refresh_one at 1.
    destruct (np_getitem table (Nodule.patient_pos nd)) as [v |]; simpl.
    + destruct (np_take table (map Nodule.patient_pos nodules)) as [rows |].
      * destruct IH as [-> IH]. split; [reflexivity |].
        unfold map2 in *; simpl. now rewrite IH.
      * exact IH.
    + reflexivity.
Qed.

Lemma refresh_field_run {A} (table : Batch.t -> list A)
    (set : Nodule.t -> A -> Nodule.t) (self : Batch.t) :
  refresh_field table set self =
  match Batch.nodules self with
  | None => Run (Raise AttributeError) self []
  | Some nodules =>
      if positions_ok (table self) nodules
      then Run (Return tt)
             (with_nodules self (map (refresh_one (table self) set) nodules)) []
      else Run (Raise IndexError) self []
  end.
Proof.
  unfold refresh_field, self_nodules, bind, get_self; simpl.
  destruct (Batch.nodules self) as [nodules |]; simpl; [| reflexivity].
  pose proof (np_take_map2 (table self) set nodules) as H.
  destruct (np_take (table self) (map Nodule.patient_pos nodules)) as [rows |];
    simpl.
  - destruct H as [-> ->]. reflexivity.
  - rewrite H. reflexivity.
Qed.

Lemma positions_ok_refreshed {A B} (table : list A) (table' : list B)
    (set : Nodule.t -> B -> Nodule.t) (nodules : list Nodule.t) :
  (forall nd v, Nodule.patient_pos (set nd v) = Nodule.patient_pos nd) ->
  positions_ok table (map (refresh_one table' set) nodules)
  = positions_ok table nodules.
Proof.
  intros Hpos. unfold positions_ok.
  induction nodules as [| nd nodules IH]; simpl; [reflexivity |].
  rewrite IH. f_equal. unfold refresh_one.
  destruct (np_getitem table' (Nodule.patient_pos nd)); [| reflexivity].
  now rewrite Hpos.
Qed.

Lemma patient_pos_set_offset0 nd v :
  Nodule.patient_pos (set_offset0 nd v) = Nodule.patient_pos nd.
Proof. unfold set_offset0. destruct (Nodule.offset nd) as [[z y] x]. reflexivity. Qed.

Lemma patient_pos_set_spacing nd v :
  Nodule.patient_pos (set_spacing nd v) = Nodule.patient_pos nd.
Proof. reflexivity. Qed.

Lemma patient_pos_set_origin nd v :
  Nodule.patient_pos (set_origin nd v) = Nodule.patient_pos nd.
Proof. reflexivity. Qed.

Lemma patient_pos_set_img_size nd v :
  Nodule.patient_pos (set_img_size nd v) = Nodule.patient_pos nd.
Proof. reflexivity. Qed.

(** Reduction of the projections of a finished run and of the batch. *)
Ltac red_run :=
  cbn [value self_after logged app negb Nat.eqb with_nodules
       Batch.nodules Batch.lower_bounds Batch.spacing Batch.origin
       Batch.shape Batch.indices Batch.data Batch.mask].

Lemma refresh_run (self : Batch.t) :
  _refresh_nodules_info self =
  match Batch.nodules self with
  | None => Run (Raise AttributeError) self []
  | Some nodules =>
      let stage := refresh_stage self nodules in
      Run (if Nat.eqb stage 4 then Return tt else Raise IndexError)
          (if Nat.eqb stage 0 then self
           else with_nodules self (map (refreshed self stage) nodules))
          []
  end.
Proof.
  unfold _refresh_nodules_info, bind.
  rewrite (refresh_field_run Batch.lower_bounds).
  destruct (Batch.nodules self) as [nodules |] eqn:Hn; red_run;
    [| reflexivity].
  unfold refresh_stage.
  destruct (positions_ok (Batch.lower_bounds self) nodules) eqn:H1; red_run;
    [| reflexivity].
  rewrite (refresh_field_run Batch.spacing); red_run.
  rewrite positions_ok_refreshed by apply patient_pos_set_offset0.
  destruct (positions_ok (Batch.spacing self) nodules) eqn:H2; red_run;
    [| reflexivity].
  rewrite (refresh_field_run Batch.origin); red_run.
  rewrite !positions_ok_refreshed
    by (apply patient_pos_set_offset0 || reflexivity).
  destruct (positions_ok (Batch.origin self) nodules) eqn:H3; red_run;
    [| now rewrite map_map].
  rewrite (refresh_field_run Batch.shape); red_run.
  rewrite !positions_ok_refreshed
    by (apply patient_pos_set_offset0 || reflexivity).
  destruct (positions_ok (Batch.shape self) nodules) eqn:H4; red_run;
    now rewrite !map_map.
Qed.

Section RefreshOne.
Context {A B : Type} (t : list A) (u : list B).
Variables (f : Nodule.t -> A -> Nodule.t) (g : Nodule.t -> B -> Nodule.t).
Hypothesis f_pos : forall nd v, Nodule.patient_pos (f nd v) = Nodule.patient_pos nd.
Hypothesis g_pos : forall nd w, Nodule.patient_pos (g nd w) = Nodule.patient_pos nd.
Hypothesis f_idem : forall nd v, f (f nd v) v = f nd v.
Hypothesis f_g : forall nd v w, f (g nd w) v = g (f nd v) w.

Lemma refresh_one_pos nd :
  Nodule.patient_pos (refresh_one t f nd) = Nodule.patient_pos nd.
Proof.
  unfold refresh_one.
  destruct (np_getitem t (Nodule.patient_pos nd)); [apply f_pos | reflexivity].
Qed.

Lemma refresh_one_idem nd :
  refresh_one t f (refresh_one t f nd) = refresh_one t f nd.
Proof.
  unfold refresh_one.
  destruct (np_getitem t (Nodule.patient_pos nd)) as [v |] eqn:E.
  - rewrite f_pos, E. apply f_idem.
  - rewrite E. reflexivity.
Qed.

Lemma refresh_one_comm nd :
  refresh_one t f (refresh_one u g nd) = refresh_one u g (refresh_one t f nd).
Proof.
  unfold refresh_one.
  destruct (np_getitem u (Nodule.patient_pos nd)) as [w |] eqn:Eu;
    destruct (np_getitem t (Nodule.patient_pos nd)) as [v |] eqn:Et;
    rewrite ?f_pos, ?g_pos, ?Eu, ?Et; [apply f_g | reflexivity ..].
Qed.
End RefreshOne.

Ltac setter_fact :=
  intros n0; intros; destruct n0 as [pos [[oz oy] ox] img centre size sp og];
  reflexivity.

Lemma refreshed_idempotent (self : Batch.t) (stage : nat) (nd : Nodule.t) :
  refreshed self stage (refreshed self stage nd) = refreshed self stage nd
  /\ Nodule.patient_pos (refreshed self stage nd) = Nodule.patient_pos nd.
Proof.
  pose proof (refresh_one_idem (Batch.lower_bounds self) set_offset0
                patient_pos_set_offset0 ltac:(setter_fact)) as i1.
  pose proof (refresh_one_idem (Batch.spacing self) set_spacing
                patient_pos_set_spacing ltac:(setter_fact)) as i2.
  pose proof (refresh_one_idem (Batch.origin self) set_origin
                patient_pos_set_origin ltac:(setter_fact)) as i3.
  pose proof (refresh_one_idem (Batch.shape self) set_img_size
                patient_pos_set_img_size ltac:(setter_fact)) as i4.
  pose proof (refresh_one_comm (Batch.lower_bounds self) (Batch.spacing self)
                set_offset0 set_spacing patient_pos_set_offset0
                patient_pos_set_spacing ltac:(setter_fact)) as c12.
  pose proof (refresh_one_comm (Batch.lower_bounds self) (Batch.origin self)
                set_offset0 set_origin patient_pos_set_offset0
                patient_pos_set_origin ltac:(setter_fact)) as c13.
  pose proof (refresh_one_comm (Batch.lower_bounds self) (Batch.shape self)
                set_offset0 set_img_size patient_pos_set_offset0
                patient_pos_set_img_size ltac:(setter_fact)) as c14.
  pose proof (refresh_one_comm (Batch.spacing self) (Batch.origin self)
                set_spacing set_origin patient_pos_set_spacing
                patient_pos_set_origin ltac:(setter_fact)) as c23.
  pose proof (refresh_one_comm (Batch.spacing self) (Batch.shape self)
                set_spacing set_img_size patient_pos_set_spacing
                patient_pos_set_img_size ltac:(setter_fact)) as c24.
  pose proof (refresh_one_comm (Batch.origin self) (Batch.shape self)
                set_origin set_img_size patient_pos_set_origin
                patient_pos_set_img_size ltac:(setter_fact)) as c34.
  split.
  - destruct stage as [| [| [| [| stage]]]]; unfold refreshed; cbv zeta;
      repeat first [ rewrite c12 | rewrite c13 | rewrite c14 | rewrite c23
                   | rewrite c24 | rewrite c34
                   | rewrite i1 | rewrite i2 | rewrite i3 | rewrite i4 ];
      reflexivity.
  - destruct stage as [| [| [| [| stage]]]]; unfold refreshed; cbv zeta;
      rewrite ?(refresh_one_pos _ _ patient_pos_set_img_size),
              ?(refresh_one_pos _ _ patient_pos_set_origin),
              ?(refresh_one_pos _ _ patient_pos_set_spacing),
              ?(refresh_one_pos _ _ patient_pos_set_offset0);
      reflexivity.
Qed.

Lemma positions_ok_same_pos {A} (table : list A) (f : Nodule.t -> Nodule.t)
    (nodules : list Nodule.t) :
  (forall nd, Nodule.patient_pos (f nd) = Nodule.patient_pos nd) ->
  positions_ok table (map f nodules) = positions_ok table nodules.
Proof.
  intros Hpos. unfold positions_ok.
  induction nodules as [| nd nodules IH]; simpl; [reflexivity |].
  now rewrite IH, Hpos.
Qed.

Lemma refresh_stage_refreshed (self : Batch.t) (stage : nat)
    (nodules : list Nodule.t) :
  refresh_stage self (map (refreshed self stage) nodules)
  = refresh_stage self nodules.
Proof.
  unfold refresh_stage.
  rewrite !positions_ok_same_pos by (intros nd; apply refreshed_idempotent).
  reflexivity.
Qed.

(** C7. Refresh idempotence: a second call of [_refresh_nodules_info] right
    after a first one ends as the first did and leaves the batch, hence every
    field of every nodule record, as the first call left it. *)
Theorem refresh_nodules_info_idempotent (self : Batch.t) :
  let once := _refresh_nodules_info self in
  let twice := _refresh_nodules_info (self_after once) in
  self_after twice = self_after once /\
  Batch.nodules (self_after twice) = Batch.nodules (self_after once) /\
  value twice = value once.
Proof.
  cbv zeta.
  assert (H : self_after (_refresh_nodules_info
                            (self_after (_refresh_nodules_info self)))
              = self_after (_refresh_nodules_info self)
              /\ value (_refresh_nodules_info
                          (self_after (_refresh_nodules_info self)))
                 = value (_refresh_nodules_info self)).
  { rewrite (refresh_run self).
    destruct (Batch.nodules self) as [nodules |] eqn:Hn; red_run.
    - cbv zeta. set (stage := refresh_stage self nodules).
      destruct stage as [| k] eqn:Hk; red_run.
      + rewrite (refresh_run self), Hn. cbv zeta. fold stage. rewrite Hk.
        split; reflexivity.
      + rewrite refresh_run; red_run. cbv zeta.
        change (refresh_stage (with_nodules self ?l) ?m)
          with (refresh_stage self m).
        rewrite refresh_stage_refreshed. fold stage. rewrite Hk; red_run.
        change (refreshed (with_nodules self ?l)) with (refreshed self).
        rewrite map_map.
        rewrite (map_ext (fun x => refreshed self (S k) (refreshed self (S k) x))
                         (refreshed self (S k)))
          by (intros nd; apply refreshed_idempotent).
        split; reflexivity.
    - rewrite (refresh_run self), Hn. split; reflexivity. }
  destruct H as [Hs Hv]. repeat split; [exact Hs | now rewrite Hs | exact Hv].
Qed.

(** ** Random sampling *)

Lemma astype_int_shift (x : Q) (l d : Z) :
  (0 <= x)%Q -> (x <= inject_Z d)%Q ->
  l <= Np.astype_int (x + inject_Z l) <= l + d.
Proof.
  intros H0 Hd. unfold Np.astype_int.
  assert (Hlo : (inject_Z l <= x + inject_Z l)%Q).
  { rewrite <- (Qplus_0_l (inject_Z l)) at 1.
    apply Qplus_le_compat; [exact H0 | apply Qle_refl]. }
  assert (Hhi : (x + inject_Z l <= inject_Z (l + d))%Q).
  { rewrite inject_Z_plus, (Qplus_comm (inject_Z l)).
    apply Qplus_le_compat; [exact Hd | apply Qle_refl]. }
  pose proof (Qfloor_resp_le _ _ Hlo) as F1.
  pose proof (Qfloor_resp_le _ _ Hhi) as F2.
  pose proof (Qceiling_resp_le _ _ Hlo) as C1.
  pose proof (Qceiling_resp_le _ _ Hhi) as C2.
  rewrite Qfloor_Z in F1, F2. rewrite Qceiling_Z in C1, C2.
  destruct (Qle_bool 0 (x + inject_Z l)); lia.
Qed.

Lemma uniform_scaled (u : Q) (d : Z) :
  (0 <= u)%Q -> (u < 1)%Q -> 0 <= d ->
  (0 <= u * inject_Z d)%Q /\ (u * inject_Z d <= inject_Z d)%Q.
Proof.
  intros H0 H1 Hd. rewrite Zle_Qle in Hd. change (inject_Z 0) with 0%Q in Hd.
  split; nra.
Qed.

Lemma random_row_within (u : vec3 Q) (data_shape nodule_size : vec3 Z)
    (lower_bound : Z) (a : axis) :
  (0 <= ax a u)%Q -> (ax a u < 1)%Q ->
  ax a nodule_size <= ax a data_shape ->
  0 <= ax a (random_row u data_shape nodule_size lower_bound)
       - ax a (lower_bound, 0, 0)
    <= ax a data_shape - ax a nodule_size.
Proof.
  intros H0 H1 Hs. unfold random_row.
  rewrite !ax_vmap, !ax_vmap2, ax_Zq, ax_vmap2.
  destruct (uniform_scaled (ax a u) (ax a data_shape - ax a nodule_size) H0 H1)
    as [Hlo Hhi]; [lia |].
  assert (E : ax a (inject_Z lower_bound, 0%Q, 0%Q)
              = inject_Z (ax a (lower_bound, 0, 0))) by (destruct a; reflexivity).
  rewrite E.
  pose proof (astype_int_shift _ (ax a (lower_bound, 0, 0)) _ Hlo Hhi). lia.
Qed.

Lemma np_getitem_in_range {A} (a : list A) (i : Z) :
  0 <= i < Z.of_nat (List.length a) ->
  exists x, np_getitem a i = Some x.
Proof.
  intros H. unfold np_getitem.
  replace ((0 <=? i) && (i <? Z.of_nat (List.length a))) with true
    by (symmetry; apply andb_true_iff; split; [apply Z.leb_le | apply Z.ltb_lt]; lia).
  destruct (nth_error a (Z.to_nat i)) as [x |] eqn:E; [now exists x |].
  apply nth_error_None in E. lia.
Qed.

Lemma np_take_in_range {A} (a : list A) (idx : list Z) :
  Forall (fun i => 0 <= i < Z.of_nat (List.length a)) idx ->
  exists rows,
    np_take a idx = Some rows /\
    Forall2 (fun i x => np_getitem a i = Some x) idx rows.
Proof.
  induction 1 as [| i idx Hi _ IH]; simpl.
  - exists []. split; [reflexivity | constructor].
  - destruct (np_getitem_in_range a i Hi) as [x Hx].
    destruct IH as (rows & -> & HF). rewrite Hx.
    exists (x :: rows). split; [reflexivity | now constructor].
Qed.

Lemma imap_from_nth_error {A B} (f : nat -> A -> B) (l : list A) (s k : nat) :
  nth_error (imap_from s f l) k = option_map (f (s + k)%nat) (nth_error l k).
Proof.
  revert s k. induction l as [| x l IH]; intros s [| k]; simpl; try reflexivity.
  - now rewrite Nat.add_0_r.
  - rewrite IH. now rewrite Nat.add_succ_r.
Qed.

Lemma imap_from_length {A B} (f : nat -> A -> B) (l : list A) (s : nat) :
  List.length (imap_from s f l) = List.length l.
Proof. revert s. induction l; intros s; simpl; [reflexivity | now rewrite IHl]. Qed.

Lemma Forall2_nth_error {A B} (R : A -> B -> Prop) (l : list A) (m : list B) :
  Forall2 R l m ->
  forall k x, nth_error l k = Some x ->
  exists y, nth_error m k = Some y /\ R x y.
Proof.
  induction 1 as [| a b l m Hab _ IH]; intros [| k] x E; simpl in *;
    try discriminate.
  - injection E as <-. now exists b.
  - now apply IH.
Qed.

Lemma nth_error_combine {A B} (l : list A) (m : list B) (k : nat) x y :
  nth_error l k = Some x -> nth_error m k = Some y ->
  nth_error (combine l m) k = Some (x, y).
Proof.
  revert m k. induction l as [| a l IH]; intros [| b m] [| k]; simpl;
    try discriminate; intros E1 E2.
  - now injection E1 as <-; injection E2 as <-.
  - now apply IH.
Qed.

(** What [sample_random_nodules] returns on valid draws. *)
Lemma sample_random_nodules_returns (self : Batch.t) (num_nodules : Z)
    (nodule_size : vec3 Z) (rnd : draws) :
  0 <= num_nodules ->
  0 < Batch.len self ->
  List.length (Batch.lower_bounds self) = List.length (Batch.indices self) ->
  List.length (Batch.shape self) = List.length (Batch.indices self) ->
  (forall i, 0 <= sampled_indices rnd i < Batch.len self) ->
  (forall i a, (0 <= ax a (uniform rnd i))%Q /\ (ax a (uniform rnd i) < 1)%Q) ->
  exists rows,
    sample_random_nodules num_nodules nodule_size rnd self
      = Run (Return rows) self [] /\
    List.length rows = Z.to_nat num_nodules /\
    forall k, (k < Z.to_nat num_nodules)%nat ->
      exists row lower shape,
        nth_error rows k = Some row /\
        np_getitem (Batch.lower_bounds self) (sampled_indices rnd k) = Some lower /\
        np_getitem (Batch.shape self) (sampled_indices rnd k) = Some shape /\
        forall a, ax a nodule_size <= ax a shape ->
          0 <= ax a row - ax a (lower, 0, 0) <= ax a shape - ax a nodule_size.
Proof.
  intros Hn Hlen Hlb Hsh Hidx Hu.
  set (sampled := map (sampled_indices rnd) (seq 0 (Z.to_nat num_nodules))).
  assert (Hrange : forall (A : Type) (t : list A),
             List.length t = List.length (Batch.indices self) ->
             Forall (fun i => 0 <= i < Z.of_nat (List.length t)) sampled).
  { intros A t Ht. subst sampled. apply Forall_forall. intros i Hi.
    apply in_map_iff in Hi. destruct Hi as (k & <- & _).
    rewrite Ht. apply Hidx. }
  destruct (np_take_in_range (Batch.lower_bounds self) sampled (Hrange _ _ Hlb))
    as (lower & El & Fl).
  destruct (np_take_in_range (Batch.shape self) sampled (Hrange _ _ Hsh))
    as (shapes & Es & Fs).
  exists (imap_from 0
            (fun i p => random_row (uniform rnd i) (snd p) nodule_size (fst p))
            (combine lower shapes)).
  assert (Ll : List.length lower = Z.to_nat num_nodules).
  { rewrite <- (Forall2_length Fl). subst sampled.
    now rewrite length_map, length_seq. }
  assert (Ls : List.length shapes = Z.to_nat num_nodules).
  { rewrite <- (Forall2_length Fs). subst sampled.
    now rewrite length_map, length_seq. }
  split; [| split].
  - unfold sample_random_nodules, bind, get_self, np_random_choice; simpl.
    replace (num_nodules <? 0) with false by (symmetry; apply Z.ltb_ge; lia).
    replace (Batch.len self <=? 0) with false by (symmetry; apply Z.leb_gt; lia).
    simpl. fold sampled. rewrite El; simpl. rewrite Es; simpl. reflexivity.
  - rewrite imap_from_length, length_combine. lia.
  - intros k Hk.
    assert (Ek : nth_error sampled k = Some (sampled_indices rnd k)).
    { subst sampled. rewrite nth_error_map, nth_error_seq.
      destruct (Nat.ltb_spec k (Z.to_nat num_nodules)); [reflexivity | lia]. }
    destruct (Forall2_nth_error _ _ _ Fl k _ Ek) as (lo & Elo & Hlo).
    destruct (Forall2_nth_error _ _ _ Fs k _ Ek) as (sh & Esh & Hsh').
    exists (random_row (uniform rnd k) sh nodule_size lo), lo, sh.
    split; [| split; [exact Hlo | split; [exact Hsh' |]]].
    + rewrite imap_from_nth_error, (nth_error_combine _ _ _ _ _ Elo Esh).
      reflexivity.
    + intros a Ha. apply random_row_within; [apply Hu | apply Hu | exact Ha].
Qed.

(** C8. With valid draws (patient positions within the batch, uniform
    samples in [0, 1)) [sample_random_nodules] returns one start position per
    requested draw; on every axis where [nodule_size] fits the sampled
    patient's shape, the start minus the patient's lower bound (on axis 0;
    nothing is added on the other axes) is an integer between 0 and
    [shape - nodule_size], so the box lies within that patient's range. *)
Theorem sample_random_nodules_within (self : Batch.t) (num_nodules : Z)
    (nodule_size : vec3 Z) (rnd : draws) :
  0 <= num_nodules ->
  0 < Batch.len self ->
  List.length (Batch.lower_bounds self) = List.length (Batch.indices self) ->
  List.length (Batch.shape self) = List.length (Batch.indices self) ->
  (forall i, 0 <= sampled_indices rnd i < Batch.len self) ->
  (forall i a, (0 <= ax a (uniform rnd i))%Q /\ (ax a (uniform rnd i) < 1)%Q) ->
  exists rows,
    sample_random_nodules num_nodules nodule_size rnd self
      = Run (Return rows) self [] /\
    List.length rows = Z.to_nat num_nodules /\
    forall k, (k < Z.to_nat num_nodules)%nat ->
      exists row lower shape,
        nth_error rows k = Some row /\
        np_getitem (Batch.lower_bounds self) (sampled_indices rnd k) = Some lower /\
        np_getitem (Batch.shape self) (sampled_indices rnd k) = Some shape /\
        forall a, ax a nodule_size <= ax a shape ->
          0 <= ax a row - ax a (lower, 0, 0) <= ax a shape - ax a nodule_size.
Proof. apply sample_random_nodules_returns. Qed.

Lemma sample_random_nodules_within_witness :
  (0 <= 2 /\ 0 < Batch.len example_batch /\
   List.length (Batch.lower_bounds example_batch)
     = List.length (Batch.indices example_batch) /\
   List.length (Batch.shape example_batch)
     = List.length (Batch.indices example_batch) /\
   (forall i, 0 <= sampled_indices example_draws i < Batch.len example_batch) /\
   (forall i a, (0 <= ax a (uniform example_draws i))%Q /\
                (ax a (uniform example_draws i) < 1)%Q)) /\
  exists rows,
    sample_random_nodules 2 (4, 4, 4) example_draws example_batch
      = Run (Return rows) example_batch [] /\
    List.length rows = Z.to_nat 2 /\
    forall k, (k < Z.to_nat 2)%nat ->
      exists row lower shape,
        nth_error rows k = Some row /\
        np_getitem (Batch.lower_bounds example_batch)
          (sampled_indices example_draws k) = Some lower /\
        np_getitem (Batch.shape example_batch)
          (sampled_indices example_draws k) = Some shape /\
        forall a, ax a (4, 4, 4) <= ax a shape ->
          0 <= ax a row - ax a (lower, 0, 0) <= ax a shape - ax a (4, 4, 4).
Proof.
  assert (Hidx : forall i : nat,
             0 <= sampled_indices example_draws i < Batch.len example_batch)
    by (intros i; vm_compute; split; [discriminate | reflexivity]).
  assert (Hu : forall (i : nat) a,
             (0 <= ax a (uniform example_draws i))%Q /\
             (ax a (uniform example_draws i) < 1)%Q)
    by (intros i a; destruct a; vm_compute; split;
        (discriminate || reflexivity)).
  split.
  - repeat split; try reflexivity; try apply Hidx; try apply Hu; lia.
  - apply (sample_random_nodules_within example_batch 2 (4, 4, 4) example_draws);
      [lia | reflexivity | reflexivity | reflexivity | exact Hidx | exact Hu].
Defined.

Example sample_random_nodules_example :
  value (sample_random_nodules 2 (4, 4, 4) example_draws example_batch)
  = Return [(13, 2, 0); (13, 2, 0)].
Proof. vm_compute. reflexivity. Qed.

(** ** Batch composition *)

Lemma bind_value_pure {A B} (m : M A) (k : A -> M B) self a l :
  m self = Run (Return a) self l ->
  value (bind m k self) = value (k a self).
Proof. intros E. unfold bind. rewrite E. reflexivity. Qed.

Lemma astype_int_nonneg (x : Q) : (0 <= x)%Q -> 0 <= Np.astype_int x.
Proof.
  intros H. unfold Np.astype_int.
  pose proof (Qfloor_resp_le _ _ H) as F. pose proof (Qceiling_resp_le _ _ H) as C.
  change 0%Q with (inject_Z 0) in F, C. rewrite Qfloor_Z in F. rewrite Qceiling_Z in C.
  destruct (Qle_bool 0 x); lia.
Qed.

Lemma astype_int_le (x : Q) (n : Z) :
  (0 <= x)%Q -> (x <= inject_Z n)%Q -> Np.astype_int x <= n.
Proof.
  intros H0 H. unfold Np.astype_int.
  rewrite <- Qle_bool_iff in H0. rewrite H0.
  pose proof (Qfloor_resp_le _ _ H) as F. now rewrite Qfloor_Z in F.
Qed.

Lemma share_count (share : Q) (batch_size : Z) :
  (0 <= share)%Q -> (share <= 1)%Q -> 0 <= batch_size <= 281474976710656 ->
  exists n,
    py_int (F64.mul (F64.of_Q share) (F64.of_Z batch_size)) = Return n /\
    0 <= n <= batch_size.
Proof.
  intros H0 H1 Hb.
  pose proof (inject_Z_moderate _ _ _ Hb) as Qb.
  change (inject_Z 0) with 0%Q in Qb.
  change (inject_Z 281474976710656) with 281474976710656%Q in Qb.
  unfold F64.of_Q.
  destruct (round_small share) as (r & Er & _ & _ & Gr & Lr);
    [apply Qabs_Qle_condition; split; lra |].
  specialize (Gr 0 H0). specialize (Lr 1 H1).
  change (inject_Z 0) with 0%Q in Gr. change (inject_Z 1) with 1%Q in Lr.
  rewrite Er, of_Z_small by lia.
  change (F64.mul (F64.Fin r) (F64.Fin (inject_Z batch_size)))
    with (F64.round (r * inject_Z batch_size)).
  destruct (round_small (r * inject_Z batch_size))
    as (p & Ep & _ & _ & Gp & Lp);
    [apply Qabs_Qle_condition; split; nra |].
  specialize (Gp 0). specialize (Lp batch_size).
  change (inject_Z 0) with 0%Q in Gp.
  rewrite Ep. exists (Np.astype_int p). split; [reflexivity |].
  split.
  - apply astype_int_nonneg. apply Gp. nra.
  - apply astype_int_le; [apply Gp | apply Lp]; nra.
Qed.

Lemma fit_into_bounds_returns self nodules size variance rnd :
  Batch.nodules self = Some nodules ->
  exists rows, _fit_into_bounds self size variance rnd = Return rows /\
               List.length rows = List.length nodules.
Proof.
  intros H. unfold _fit_into_bounds. rewrite H.
  eexists. split; [reflexivity |]. apply imap_from_length.
Qed.

Lemma gtb_min (a b : Z) : (if a >? b then b else a) = Z.min a b.
Proof. rewrite Z.gtb_ltb. destruct (Z.ltb_spec b a); lia. Qed.

Lemma np_random_choice_returns population size replace drawn self :
  0 <= size -> 0 < population -> (replace = false -> size <= population) ->
  np_random_choice population size replace drawn self
  = Run (Return (map drawn (seq 0 (Z.to_nat size)))) self [].
Proof.
  intros Hs Hp Hr. unfold np_random_choice.
  replace (size <? 0) with false by (symmetry; apply Z.ltb_ge; lia).
  replace (population <=? 0) with false by (symmetry; apply Z.leb_gt; lia).
  cbn [andb].
  destruct replace; cbn [negb andb]; [reflexivity |].
  replace (Z.max population 0 <? size) with false
    by (symmetry; apply Z.ltb_ge; specialize (Hr eq_refl); lia).
  reflexivity.
Qed.

(** C4 (as the code has it).  On a batch with a registry and valid draws,
    with [0 <= share <= 1] and [0 <= batch_size <= 2 ^ 48], [sample_nodules]
    takes [min(int(share * batch_size), num_nodules)] positive samples, the
    product being the [float64] product and [int] truncating it toward
    zero, and [batch_size] minus that number of negative samples. *)
Theorem sample_nodules_counts (self : Batch.t) (nodules : list Nodule.t)
    (batch_size : Z) (nodule_size : vec3 Z) (share : Q)
    (variance : option (list Q)) (rnd : draws) :
  Batch.nodules self = Some nodules ->
  0 <= batch_size <= 281474976710656 -> (0 <= share)%Q -> (share <= 1)%Q ->
  0 < Batch.len self ->
  List.length (Batch.lower_bounds self) = List.length (Batch.indices self) ->
  List.length (Batch.shape self) = List.length (Batch.indices self) ->
  (num_nodules self <> 0 ->
   forall i, 0 <= sample_indices rnd i < num_nodules self) ->
  (forall i, 0 <= sampled_indices rnd i < Batch.len self) ->
  (forall i a, (0 <= ax a (uniform rnd i))%Q /\ (ax a (uniform rnd i) < 1)%Q) ->
  exists n cancer_nodules random_nodules,
    py_int (F64.mul (F64.of_Q share) (F64.of_Z batch_size)) = Return n /\
    value (sample_nodules_indices batch_size nodule_size share variance rnd self)
      = Return (cancer_nodules, random_nodules) /\
    Z.of_nat (List.length cancer_nodules) = Z.min n (num_nodules self) /\
    Z.of_nat (List.length random_nodules)
      = batch_size - Z.min n (num_nodules self).
Proof.
  intros Hn Hb Hs0 Hs1 Hlen Hlb Hsh Hsi Hidx Hu.
  destruct (share_count share batch_size Hs0 Hs1 Hb) as (n & En & Ht).
  assert (Hnum : num_nodules self = Z.of_nat (List.length nodules)).
  { unfold num_nodules. rewrite Hn. now rewrite length_map. }
  set (n_pos := Z.min n (num_nodules self)).
  assert (Hpos : 0 <= n_pos <= batch_size /\ n_pos <= num_nodules self)
    by (subst n_pos; lia).
  unfold sample_nodules_indices. rewrite bind_get_self, Hn. cbn [is_some].
  erewrite bind_value_pure by reflexivity.
  (* the variance argument *)
  match goal with
  | |- context [bind ?m _ self] =>
      assert (Hv : exists v l, m self = Run (Return v) self l)
  end.
  { destruct variance as [v |]; [| now eexists; eexists].
    destruct (map Np.astype_int v) as [| a [| b [| c [| d rest]]]];
      eexists; eexists; reflexivity. }
  destruct Hv as (v & l & Hv). erewrite bind_value_pure by exact Hv.
  rewrite En. erewrite bind_value_pure by reflexivity.
  cbv zeta. rewrite gtb_min. fold n_pos.
  (* the positive block *)
  match goal with
  | |- context [bind ?m _ self] =>
      assert (Hc : exists c, m self = Run (Return c) self [] /\
                             Z.of_nat (List.length c) = n_pos)
  end.
  { destruct (Z.eqb_spec (num_nodules self) 0) as [E | E].
    - exists []. split; [reflexivity |]. cbn [List.length]. lia.
    - destruct (fit_into_bounds_returns self nodules nodule_size v rnd Hn)
        as (rows & Er & Lr).
      rewrite Er.
      destruct (np_take_in_range rows
                  (map (sample_indices rnd) (seq 0 (Z.to_nat n_pos))))
        as (c & Ec & Fc).
      { apply Forall_forall. intros i Hi. apply in_map_iff in Hi.
        destruct Hi as (k & <- & _). rewrite Lr, <- Hnum. now apply Hsi. }
      exists c. split.
      + unfold bind.
        rewrite np_random_choice_returns by lia.
        cbn [value self_after logged app]. rewrite Ec. reflexivity.
      + rewrite <- (Forall2_length Fc), length_map, length_seq. lia. }
  destruct Hc as (c & Hc & Lc). erewrite bind_value_pure by exact Hc.
  (* the negative block *)
  destruct (sample_random_nodules_returns self (batch_size - n_pos) nodule_size
              rnd ltac:(lia) Hlen Hlb Hsh Hidx Hu) as (r & Er & Lr & _).
  erewrite bind_value_pure by exact Er.
  exists n, c, r. split; [reflexivity |].
  split; [reflexivity |]. split; [exact Lc | lia].
Qed.

Lemma sample_nodules_counts_witness :
  exists n cancer_nodules random_nodules,
    py_int (F64.mul (F64.of_Q (3 # 4)) (F64.of_Z 2)) = Return n /\
    value (sample_nodules_indices 2 (4, 4, 4) (3 # 4) None example_draws
             example_batch)
      = Return (cancer_nodules, random_nodules) /\
    Z.of_nat (List.length cancer_nodules)
      = Z.min n (num_nodules example_batch) /\
    Z.of_nat (List.length random_nodules)
      = 2 - Z.min n (num_nodules example_batch).
Proof.
  apply (sample_nodules_counts example_batch
           [scenario_nodule 5; scenario_nodule 1] 2 (4, 4, 4) (3 # 4) None
           example_draws).
  - reflexivity.
  - lia.
  - discriminate.
  - discriminate.
  - reflexivity.
  - reflexivity.
  - reflexivity.
  - intros _ i. change (num_nodules example_batch) with 2.
    change (sample_indices example_draws i) with (Z.of_nat (Nat.modulo i 2)).
    pose proof (Nat.mod_upper_bound i 2). lia.
  - intros i. vm_compute. split; [discriminate | reflexivity].
  - intros i a. destruct a; vm_compute; split; (discriminate || reflexivity).
Defined.

(** The [float64] product, not the exact one, is truncated: 0.58 * 50 is
    28.999999999999996, and 0.7 * 10 is 7.000000000000001. *)
Example share_product_truncated :
  py_int (F64.mul (F64.of_Q (58 # 100)) (F64.of_Z 50)) = Return 28 /\
  py_int (F64.mul (F64.of_Q (7 # 10)) (F64.of_Z 10)) = Return 7 /\
  F64.mul (F64.of_Q (7 # 10)) (F64.of_Z 10) = F64.Fin 7.
Proof. vm_compute. repeat split. Qed.

(** C4 as stated, with rounding to nearest, fails: for [share = 0.75] and
    [batch_size = 2] on a registry of two nodules the code takes one positive
    and one negative sample, where rounding 1.5 would give two and none. *)
Lemma sample_nodules_counts_rounding_counterexample :
  ~ (forall cancer_nodules random_nodules,
       value (sample_nodules_indices 2 (4, 4, 4) (3 # 4) None example_draws
                example_batch)
         = Return (cancer_nodules, random_nodules) ->
       Z.of_nat (List.length cancer_nodules)
         = Z.min (spec_positive_count (3 # 4) 2) (num_nodules example_batch) /\
       Z.of_nat (List.length random_nodules)
         = 2 - Z.min (spec_positive_count (3 # 4) 2)
                     (num_nodules example_batch)).
Proof.
  intros H.
  specialize (H [(3, 3, 3)] [(13, 2, 0)] ltac:(vm_compute; reflexivity)).
  destruct H as [H _]. vm_compute in H. discriminate H.
Qed.


(** ** Tiling *)

Lemma slice_bound_in_range (n i : Z) : 0 <= i <= n -> slice_bound n i = i.
Proof. intros H. unfold slice_bound. destruct (Z.ltb_spec i 0); lia. Qed.

Lemma py_slice_in_range {A} (l : list A) (a n : Z) :
  0 <= a -> 0 <= n -> a + n <= Z.of_nat (List.length l) ->
  py_slice a (a + n) l = firstn (Z.to_nat n) (skipn (Z.to_nat a) l).
Proof.
  intros Ha Hn Hl. unfold py_slice.
  rewrite !slice_bound_in_range by lia. f_equal. lia.
Qed.

Lemma py_slice_length {A} (l : list A) (a n : Z) :
  0 <= a -> 0 <= n -> a + n <= Z.of_nat (List.length l) ->
  Z.of_nat (List.length (py_slice a (a + n) l)) = n.
Proof.
  intros Ha Hn Hl. rewrite py_slice_in_range by assumption.
  rewrite length_firstn, length_skipn. lia.
Qed.

Lemma Forall_firstn_skipn {A} (P : A -> Prop) (l : list A) (a n : nat) :
  Forall P l -> Forall P (firstn n (skipn a l)).
Proof.
  intros H. apply Forall_forall. intros x Hx.
  apply In_nth_error in Hx. destruct Hx as [i Hi].
  rewrite nth_error_firstn in Hi.
  destruct (Nat.ltb i n); [| discriminate].
  rewrite nth_error_skipn in Hi. apply nth_error_In in Hi.
  revert x Hi. now apply Forall_forall.
Qed.

Lemma py_slice_Forall {A} (P : A -> Prop) (l : list A) (a b : Z) :
  Forall P l -> Forall P (py_slice a b l).
Proof. intros H. unfold py_slice. now apply Forall_firstn_skipn. Qed.

Lemma np_getitem_nonneg {A} (l : list A) (i : Z) :
  0 <= i < Z.of_nat (List.length l) ->
  np_getitem l i = nth_error l (Z.to_nat i).
Proof.
  intros H. unfold np_getitem.
  destruct (Z.leb_spec 0 i); [| lia].
  destruct (Z.ltb_spec i (Z.of_nat (List.length l))); [reflexivity | lia].
Qed.

Lemma np_getitem_py_slice {A} (l : list A) (a n i : Z) :
  0 <= a -> a + n <= Z.of_nat (List.length l) -> 0 <= i < n ->
  np_getitem (py_slice a (a + n) l) i = np_getitem l (a + i).
Proof.
  intros Ha Hl Hi.
  rewrite !np_getitem_nonneg by (try rewrite py_slice_length; lia).
  rewrite py_slice_in_range by lia.
  rewrite nth_error_firstn.
  destruct (Nat.ltb_spec (Z.to_nat i) (Z.to_nat n)); [| lia].
  rewrite nth_error_skipn. f_equal. lia.
Qed.

Lemma np_getitem_map {A B} (g : A -> B) (l : list A) (i : Z) :
  np_getitem (map g l) i = option_map g (np_getitem l i).
Proof.
  unfold np_getitem. rewrite length_map.
  destruct ((0 <=? i) && (i <? Z.of_nat (List.length l))).
  - apply nth_error_map.
  - destruct ((- Z.of_nat (List.length l) <=? i) && (i <? 0));
      [apply nth_error_map | reflexivity].
Qed.

Lemma np_getitem_Forall {A} (P : A -> Prop) (l : list A) (i : Z) :
  Forall P l -> 0 <= i < Z.of_nat (List.length l) ->
  exists x, np_getitem l i = Some x /\ P x.
Proof.
  intros HF Hi. rewrite np_getitem_nonneg by assumption.
  destruct (nth_error l (Z.to_nat i)) as [x |] eqn:E.
  - exists x. split; [reflexivity |].
    apply nth_error_In in E. revert x E. now apply Forall_forall.
  - apply nth_error_None in E. lia.
Qed.

Section Slice3.

Context {A : Type}.
Variables (img : array3 A) (sh p : vec3 Z) (x y z : Z).
Hypothesis Himg : has_shape3 sh img.
Hypothesis Hx : 0 <= x /\ 0 <= ax Az p /\ x + ax Az p <= ax Az sh.
Hypothesis Hy : 0 <= y /\ 0 <= ax Ay p /\ y + ax Ay p <= ax Ay sh.
Hypothesis Hz : 0 <= z /\ 0 <= ax Ax p /\ z + ax Ax p <= ax Ax sh.

Local Abbreviation sub :=
  (slice3 img (x, x + ax Az p) (y, y + ax Ay p) (z, z + ax Ax p)).

Lemma slice3_shape : has_shape3 p sub.
Proof.
  destruct Himg as [H0 HF]. unfold slice3, has_shape3. cbn [fst snd].
  split.
  - rewrite length_map. apply py_slice_length; lia.
  - apply Forall_map. apply py_slice_Forall.
    eapply Forall_impl; [| exact HF].
    intros plane [H1 HR]. split.
    + rewrite length_map. apply py_slice_length; lia.
    + apply Forall_map. apply py_slice_Forall.
      eapply Forall_impl; [| exact HR].
      intros row H2. cbv beta in H2 |- *. apply py_slice_length; lia.
Qed.

Lemma slice3_get3 (i j k : Z) :
  0 <= i < ax Az p -> 0 <= j < ax Ay p -> 0 <= k < ax Ax p ->
  get3 sub i j k = get3 img (x + i) (y + j) (z + k).
Proof.
  intros Hi Hj Hk. destruct Himg as [H0 HF].
  unfold slice3, get3. cbn [fst snd].
  rewrite np_getitem_map, np_getitem_py_slice by lia.
  destruct (np_getitem_Forall _ img (x + i) HF) as (plane & -> & H1 & HR);
    [lia |].
  cbn [option_map].
  rewrite np_getitem_map, np_getitem_py_slice by lia.
  destruct (np_getitem_Forall _ plane (y + j) HR) as (row & -> & H2);
    [lia |].
  cbn [option_map].
  apply np_getitem_py_slice; lia.
Qed.

End Slice3.

Lemma option_all_map2_snd {X Y} (F : X -> Y -> option Y) (l : list X) (m : list Y) :
  Forall2 (fun x y => F x y = Some y) l m ->
  option_all (map2 F l m) = Some m.
Proof.
  unfold map2. induction 1 as [| x y l m H _ IH]; [reflexivity |].
  cbn [combine map option_all fst snd]. now rewrite H, IH.
Qed.

Lemma Forall2_of_Forall {X Y} (P : X -> Prop) (Q : Y -> Prop)
    (R : X -> Y -> Prop) (l : list X) (m : list Y) :
  (forall x y, P x -> Q y -> R x y) ->
  List.length l = List.length m -> Forall P l -> Forall Q m -> Forall2 R l m.
Proof.
  intros HR. revert m. induction l as [| x l IH]; intros [| y m] Hlen HP HQ;
    try discriminate; constructor.
  - apply HR; [now inversion HP | now inversion HQ].
  - apply IH; [now injection Hlen | now inversion HP | now inversion HQ].
Qed.

Lemma broadcast_to_same {X} (l : list X) : broadcast_to (List.length l) l = Some l.
Proof. unfold broadcast_to. now rewrite Nat.eqb_refl. Qed.

Lemma assign3_same_shape {A} (sh : vec3 Z) (dst src : array3 A) :
  has_shape3 sh dst -> has_shape3 sh src -> assign3 dst src = Some src.
Proof.
  intros [Hd HFd] [Hs HFs]. unfold assign3.
  replace (List.length dst) with (List.length src) by lia.
  rewrite broadcast_to_same. apply option_all_map2_snd.
  eapply Forall2_of_Forall; [| lia | exact HFd | exact HFs].
  intros dplane splane [Hdp HRd] [Hsp HRs]. cbv beta.
  replace (List.length dplane) with (List.length splane) by lia.
  rewrite broadcast_to_same. apply option_all_map2_snd.
  eapply Forall2_of_Forall; [| lia | exact HRd | exact HRs].
  intros drow srow Hdr Hsr. cbv beta in Hdr, Hsr |- *.
  replace (List.length drow) with (List.length srow) by lia.
  apply broadcast_to_same.
Qed.

Lemma list_set_middle {X} (pre post : list X) (x v : X) :
  list_set (pre ++ x :: post) (List.length pre) v = pre ++ v :: post.
Proof. induction pre as [| y pre IH]; [reflexivity |]. cbn. now rewrite IH. Qed.

Lemma put_patch_slot {A} (sh : vec3 Z) (pre post : list (array3 A))
    (slot patch : array3 A) :
  has_shape3 sh slot -> has_shape3 sh patch ->
  put_patch (pre ++ slot :: post) (Z.of_nat (List.length pre)) patch
  = Return (pre ++ patch :: post).
Proof.
  intros Hslot Hpatch. unfold put_patch.
  rewrite np_getitem_nonneg by (rewrite length_app; cbn [List.length]; lia).
  rewrite Nat2Z.id, nth_error_app2, Nat.sub_diag by lia. cbn [nth_error].
  rewrite (assign3_same_shape sh) by assumption.
  destruct (Z.ltb_spec (Z.of_nat (List.length pre)) 0); [lia |].
  now rewrite Nat2Z.id, list_set_middle.
Qed.

(** A loop whose body fills, for each [i], the next [m] slots with the
    block [F i] fills the next [length l * m] slots with the blocks in turn. *)
Lemma for_each_blocks {A} (sh : vec3 Z) (m : nat) (F : Z -> list (array3 A))
    (B : Z -> list (array3 A) * Z -> outcome (list (array3 A) * Z))
    (l : list Z) :
  (forall i pre slots post,
     In i l -> List.length slots = m -> Forall (has_shape3 sh) slots ->
     B i (pre ++ slots ++ post, Z.of_nat (List.length pre))
     = Return (pre ++ F i ++ post, Z.of_nat (List.length pre + m)) /\
     List.length (F i) = m) ->
  forall pre slots post,
    List.length slots = (List.length l * m)%nat ->
    Forall (has_shape3 sh) slots ->
    for_each l B (pre ++ slots ++ post, Z.of_nat (List.length pre))
    = Return (pre ++ flat_map F l ++ post,
              Z.of_nat (List.length pre + List.length l * m)).
Proof.
  induction l as [| i l IH]; intros HB pre slots post Hlen HF.
  - destruct slots; [| discriminate]. cbn. now rewrite Nat.add_0_r.
  - cbn [for_each flat_map List.length] in *.
    rewrite <- (firstn_skipn m slots) in HF |- *.
    apply Forall_app in HF. destruct HF as [HF1 HF2].
    assert (L1 : List.length (firstn m slots) = m)
      by (rewrite length_firstn; lia).
    assert (L2 : List.length (skipn m slots) = (List.length l * m)%nat)
      by (rewrite length_skipn; lia).
    rewrite <- app_assoc.
    destruct (HB i pre (firstn m slots) (skipn m slots ++ post)
                (or_introl eq_refl) L1 HF1) as [-> HFi].
    cbn [obind].
    replace (pre ++ F i ++ skipn m slots ++ post)
      with ((pre ++ F i) ++ skipn m slots ++ post)
      by now rewrite <- app_assoc.
    replace (Z.of_nat (List.length pre + m))
      with (Z.of_nat (List.length (pre ++ F i)))
      by (rewrite length_app; lia).
    rewrite IH; [| intros; apply HB; [now right | assumption..] | exact L2 | exact HF2].
    rewrite length_app, HFi, <- !app_assoc. do 3 f_equal. lia.
Qed.

Lemma in_range (n i : Z) : In i (range n) <-> 0 <= i < n.
Proof.
  unfold range. rewrite in_map_iff. split.
  - intros (k & <- & Hk). apply in_seq in Hk. lia.
  - intros H. exists (Z.to_nat i). split; [lia | apply in_seq; lia].
Qed.

Lemma range_length (n : Z) : List.length (range n) = Z.to_nat n.
Proof. unfold range. now rewrite length_map, length_seq. Qed.

Lemma range_nth_error (n : Z) (i : nat) :
  (i < Z.to_nat n)%nat -> nth_error (range n) i = Some (Z.of_nat i).
Proof.
  intros H. unfold range. rewrite nth_error_map, nth_error_seq.
  destruct (Nat.ltb_spec i (Z.to_nat n)); [reflexivity | lia].
Qed.

Lemma flat_map_length_blocks {X Y} (F : X -> list Y) (m : nat) (l : list X) :
  (forall x, In x l -> List.length (F x) = m) ->
  List.length (flat_map F l) = (List.length l * m)%nat.
Proof.
  induction l as [| x l IH]; intros H; [reflexivity |].
  cbn [flat_map List.length]. rewrite length_app, H by (now left).
  rewrite IH; [reflexivity | intros; apply H; now right].
Qed.

Lemma nth_error_flat_map_blocks {X Y} (F : X -> list Y) (m : nat)
    (l : list X) (i j : nat) (x : X) :
  (forall x, In x l -> List.length (F x) = m) ->
  nth_error l i = Some x -> (j < m)%nat ->
  nth_error (flat_map F l) (i * m + j) = nth_error (F x) j.
Proof.
  revert i. induction l as [| y l IH]; intros i H Hi Hj.
  - destruct i; discriminate.
  - cbn [flat_map]. destruct i as [| i].
    + injection Hi as ->. cbn [Nat.mul Nat.add].
      apply nth_error_app1. rewrite H by (now left). exact Hj.
    + cbn [nth_error] in Hi.
      rewrite nth_error_app2 by (rewrite H by (now left); cbn; lia).
      rewrite H by (now left).
      replace (S i * m + j - m)%nat with (i * m + j)%nat by (cbn; lia).
      apply IH; [intros; apply H; now right | exact Hi | exact Hj].
Qed.

Lemma section_in_bounds (d s i : Z) :
  1 <= s -> 0 <= i < d / s + 1 -> 0 <= i * s /\ i * s <= d.
Proof.
  intros Hs Hi. pose proof (Z.mul_div_le d s ltac:(lia)). nia.
Qed.

Lemma sections_positive (d s : Z) : 1 <= s -> 0 <= d -> 1 <= d / s + 1.
Proof. intros Hs Hd. pose proof (Z.div_pos d s Hd ltac:(lia)). lia. Qed.

Lemma for_each_blocks_all {A} (sh : vec3 Z) (m : nat) (F : Z -> list (array3 A))
    (B : Z -> list (array3 A) * Z -> outcome (list (array3 A) * Z))
    (l : list Z) (slots : list (array3 A)) :
  (forall i pre slots post,
     In i l -> List.length slots = m -> Forall (has_shape3 sh) slots ->
     B i (pre ++ slots ++ post, Z.of_nat (List.length pre))
     = Return (pre ++ F i ++ post, Z.of_nat (List.length pre + m)) /\
     List.length (F i) = m) ->
  List.length slots = (List.length l * m)%nat ->
  Forall (has_shape3 sh) slots ->
  for_each l B (slots, 0)
  = Return (flat_map F l, Z.of_nat (List.length l * m)).
Proof.
  intros HB Hlen HF.
  pose proof (for_each_blocks sh m F B l HB [] slots [] Hlen HF) as R.
  rewrite !app_nil_r in R. exact R.
Qed.

Section Tiling.

Context {A : Type}.
Variables (img : array3 A) (patch_shape stride : vec3 Z).
Local Abbreviation n := (num_sections (shape3 img) patch_shape stride).
Hypothesis Himg : has_shape3 (shape3 img) img.
Hypothesis Hstride : forall a, 1 <= ax a stride.
Hypothesis Hpatch : forall a, 0 <= ax a patch_shape <= ax a (shape3 img).

Lemma grid_in_bounds (a : axis) (i : Z) :
  0 <= i < n a ->
  0 <= i * ax a stride /\ 0 <= ax a patch_shape /\
  i * ax a stride + ax a patch_shape <= ax a (shape3 img).
Proof.
  intros Hi. unfold num_sections in Hi.
  destruct (section_in_bounds _ _ _ (Hstride a) Hi).
  specialize (Hpatch a). lia.
Qed.

Lemma sections_at_least_one (a : axis) : 1 <= n a.
Proof.
  unfold num_sections. specialize (Hpatch a).
  apply sections_positive; [apply Hstride | lia].
Qed.

Lemma sub_volume_shape (ix iy iz : Z) :
  0 <= ix < n Az -> 0 <= iy < n Ay -> 0 <= iz < n Ax ->
  has_shape3 patch_shape (sub_volume img patch_shape stride ix iy iz).
Proof.
  intros Hx Hy Hz. unfold sub_volume.
  apply (slice3_shape img (shape3 img)); auto using grid_in_bounds.
Qed.

Lemma sub_volume_get3 (ix iy iz i j k : Z) :
  0 <= ix < n Az -> 0 <= iy < n Ay -> 0 <= iz < n Ax ->
  0 <= i < ax Az patch_shape -> 0 <= j < ax Ay patch_shape ->
  0 <= k < ax Ax patch_shape ->
  get3 (sub_volume img patch_shape stride ix iy iz) i j k
  = get3 img (ix * ax Az stride + i) (iy * ax Ay stride + j)
         (iz * ax Ax stride + k).
Proof.
  intros Hx Hy Hz Hi Hj Hk. unfold sub_volume.
  apply (slice3_get3 img (shape3 img)); auto using grid_in_bounds.
Qed.

Lemma put_patches_numba_run (out_arr : list (array3 A)) :
  Z.of_nat (List.length out_arr) = n Az * n Ay * n Ax ->
  Forall (has_shape3 patch_shape) out_arr ->
  put_patches_numba img patch_shape stride out_arr
  = Return (tiling img patch_shape stride, n Az * n Ay * n Ax).
Proof.
  intros Hlen HF.
  pose proof (sections_at_least_one Az) as N0.
  pose proof (sections_at_least_one Ay) as N1.
  pose proof (sections_at_least_one Ax) as N2.
  assert (E : forall a,
             int_sections (ax a (vmap2 Z.sub (shape3 img) patch_shape))
                          (ax a stride) = Return (n a)).
  { intros a. unfold int_sections.
    destruct (Z.eqb_spec (ax a stride) 0) as [E0 |];
      [specialize (Hstride a); lia |].
    unfold num_sections. now rewrite ax_vmap2. }
  unfold put_patches_numba. cbv zeta.
  rewrite (E Az), (E Ay), (E Ax). cbn [obind].
  set (m1 := (List.length (range (n Ax)) * 1)%nat).
  set (m0 := (List.length (range (n Ay)) * m1)%nat).
  rewrite (for_each_blocks_all patch_shape m0
             (fun ix =>
                flat_map
                  (fun iy =>
                     flat_map
                       (fun iz => [sub_volume img patch_shape stride ix iy iz])
                       (range (n Ax)))
                  (range (n Ay)))).
  - unfold tiling. cbv zeta. f_equal. f_equal.
    unfold m0, m1. rewrite !range_length.
    rewrite !Nat2Z.inj_mul, !Z2Nat.id by lia. cbn. ring.
  - intros ix pre slots post Hix Hl Hs. apply in_range in Hix. split.
    + apply (for_each_blocks patch_shape m1
               (fun iy =>
                  flat_map
                    (fun iz => [sub_volume img patch_shape stride ix iy iz])
                    (range (n Ax)))); [| exact Hl | exact Hs].
      intros iy pre1 slots1 post1 Hiy Hl1 Hs1. apply in_range in Hiy. split.
      * apply (for_each_blocks patch_shape 1
                 (fun iz => [sub_volume img patch_shape stride ix iy iz]));
          [| exact Hl1 | exact Hs1].
        intros iz pre2 slots2 post2 Hiz Hl2 Hs2. apply in_range in Hiz.
        split; [| reflexivity].
        destruct slots2 as [| slot [| ? ?]]; try discriminate.
        apply Forall_inv in Hs2. cbn [app].
        fold (sub_volume img patch_shape stride ix iy iz).
        rewrite (put_patch_slot patch_shape);
          [| exact Hs2 | now apply sub_volume_shape].
        cbn [obind]. do 2 f_equal. now rewrite Nat2Z.inj_add.
      * now apply flat_map_length_blocks.
    + apply flat_map_length_blocks. intros iy _.
      now apply flat_map_length_blocks.
  - unfold m0, m1. rewrite !range_length. apply Nat2Z.inj.
    rewrite !Nat2Z.inj_mul, !Z2Nat.id by lia. rewrite Hlen. cbn. ring.
  - exact HF.
Qed.

Lemma tiling_nth (ix iy iz : Z) :
  0 <= ix < n Az -> 0 <= iy < n Ay -> 0 <= iz < n Ax ->
  np_getitem (tiling img patch_shape stride)
             (patch_number (n Ay) (n Ax) ix iy iz)
  = Some (sub_volume img patch_shape stride ix iy iz).
Proof.
  intros Hx Hy Hz.
  set (m1 := (List.length (range (n Ax)) * 1)%nat).
  set (m0 := (List.length (range (n Ay)) * m1)%nat).
  pose proof (sections_at_least_one Ay) as N1.
  pose proof (sections_at_least_one Ax) as N2.
  assert (K : 0 <= patch_number (n Ay) (n Ax) ix iy iz).
  { unfold patch_number. apply Z.add_nonneg_nonneg; [| lia].
    apply Z.mul_nonneg_nonneg; [| lia].
    apply Z.add_nonneg_nonneg; [| lia].
    apply Z.mul_nonneg_nonneg; lia. }
  assert (E : nth_error (tiling img patch_shape stride)
                (Z.to_nat (patch_number (n Ay) (n Ax) ix iy iz))
              = Some (sub_volume img patch_shape stride ix iy iz)).
  { replace (Z.to_nat (patch_number (n Ay) (n Ax) ix iy iz))
      with (Z.to_nat ix * m0 + (Z.to_nat iy * m1 + (Z.to_nat iz * 1 + 0)))%nat.
    2:{ unfold m0, m1. rewrite !range_length. apply Nat2Z.inj.
        rewrite !Nat2Z.inj_add, !Nat2Z.inj_mul, !Z2Nat.id by lia.
        unfold patch_number. cbn. ring. }
    unfold tiling. cbv zeta.
    rewrite (nth_error_flat_map_blocks _ m0 _ _ _ ix).
    - rewrite (nth_error_flat_map_blocks _ m1 _ _ _ iy).
      + rewrite (nth_error_flat_map_blocks _ 1 _ _ _ iz);
          [reflexivity | reflexivity | | lia].
        rewrite range_nth_error by lia. f_equal. lia.
      + intros; now apply flat_map_length_blocks.
      + rewrite range_nth_error by lia. f_equal. lia.
      + unfold m1. rewrite range_length. lia.
    - intros; apply flat_map_length_blocks.
      intros; now apply flat_map_length_blocks.
    - rewrite range_nth_error by lia. f_equal. lia.
    - unfold m0, m1. rewrite !range_length. nia. }
  rewrite np_getitem_nonneg; [exact E |].
  split; [exact K |].
  assert (L : (Z.to_nat (patch_number (n Ay) (n Ax) ix iy iz)
               < List.length (tiling img patch_shape stride))%nat)
    by (apply nth_error_Some; rewrite E; discriminate).
  lia.
Qed.

Lemma tiling_length :
  Z.of_nat (List.length (tiling img patch_shape stride)) = n Az * n Ay * n Ax.
Proof.
  pose proof (sections_at_least_one Az) as N0.
  pose proof (sections_at_least_one Ay) as N1.
  pose proof (sections_at_least_one Ax) as N2.
  unfold tiling. cbv zeta.
  rewrite (flat_map_length_blocks _
             (List.length (range (n Ay)) * (List.length (range (n Ax)) * 1))).
  - rewrite !range_length, !Nat2Z.inj_mul, !Z2Nat.id by lia. cbn. ring.
  - intros ix _. apply flat_map_length_blocks.
    intros iy _. now apply flat_map_length_blocks.
Qed.

End Tiling.

(** X1 ([put_patches_numba], tiling).  On a regular image, with strides of
    at least 1, a patch shape that fits in the image and an [out_arr] of
    exactly [n0 * n1 * n2] slots of the patch shape, where
    [n = (shape - patch_shape) // stride + 1] on each axis, the kernel
    returns with the counter at [n0 * n1 * n2], the output holds that many
    patches, and the patch at position [(ix * n1 + iy) * n2 + iz] has the
    patch shape and holds the image cells from
    [(ix * stride0, iy * stride1, iz * stride2)] on. *)
Theorem put_patches_numba_tiles {A} (img : array3 A)
    (patch_shape stride : vec3 Z) (out_arr : list (array3 A)) :
  let n := num_sections (shape3 img) patch_shape stride in
  has_shape3 (shape3 img) img ->
  (forall a, 1 <= ax a stride) ->
  (forall a, 0 <= ax a patch_shape <= ax a (shape3 img)) ->
  Z.of_nat (List.length out_arr) = n Az * n Ay * n Ax ->
  Forall (has_shape3 patch_shape) out_arr ->
  exists patches,
    put_patches_numba img patch_shape stride out_arr
    = Return (patches, n Az * n Ay * n Ax) /\
    Z.of_nat (List.length patches) = n Az * n Ay * n Ax /\
    forall ix iy iz,
      0 <= ix < n Az -> 0 <= iy < n Ay -> 0 <= iz < n Ax ->
      exists p,
        np_getitem patches (patch_number (n Ay) (n Ax) ix iy iz) = Some p /\
        has_shape3 patch_shape p /\
        forall i j k,
          0 <= i < ax Az patch_shape -> 0 <= j < ax Ay patch_shape ->
          0 <= k < ax Ax patch_shape ->
          get3 p i j k
          = get3 img (ix * ax Az stride + i) (iy * ax Ay stride + j)
                 (iz * ax Ax stride + k).
Proof.
  intros n Himg Hstride Hpatch Hlen HF.
  exists (tiling img patch_shape stride). split; [| split].
  - now apply put_patches_numba_run.
  - now apply tiling_length.
  - intros ix iy iz Hx Hy Hz.
    exists (sub_volume img patch_shape stride ix iy iz). split; [| split].
    + now apply tiling_nth.
    + now apply sub_volume_shape.
    + intros i j k Hi Hj Hk. now apply sub_volume_get3.
Qed.

Lemma put_patches_numba_tiles_witness :
  exists patches,
    put_patches_numba example_volume (1, 2, 1) (1, 1, 1) example_slots
    = Return (patches, 4) /\
    Z.of_nat (List.length patches) = 4.
Proof.
  destruct (put_patches_numba_tiles example_volume (1, 2, 1) (1, 1, 1)
              example_slots) as (patches & H1 & H2 & _).
  - repeat constructor.
  - intros a; destruct a; cbn; lia.
  - intros a; destruct a; cbn; lia.
  - reflexivity.
  - repeat constructor.
  - exists patches. split; [exact H1 | exact H2].
Defined.

Lemma for_each_skip {S} (l : list Z) (body : Z -> S -> outcome S) (s : S) :
  (forall i s, In i l -> body i s = Return s) ->
  for_each l body s = Return s.
Proof.
  induction l as [| i l IH]; intros H; [reflexivity |].
  cbn [for_each]. rewrite H by (now left). cbn [obind].
  apply IH. intros; apply H; now right.
Qed.

Lemma range_nonpos (n : Z) : n <= 0 -> range n = [].
Proof.
  intros H. unfold range. now replace (Z.to_nat n) with 0%nat by lia.
Qed.

(** Three nested loops of which one has an empty range leave the state as
    it is. *)
Lemma nested_loops_skip {S} (n0 n1 n2 : Z)
    (body : Z -> Z -> Z -> S -> outcome S) (s : S) :
  n0 <= 0 \/ n1 <= 0 \/ n2 <= 0 ->
  for_each (range n0)
    (fun ix st =>
       for_each (range n1)
         (fun iy st => for_each (range n2) (fun iz st => body ix iy iz st) st)
         st)
    s
  = Return s.
Proof.
  intros [H | [H | H]].
  - now rewrite (range_nonpos n0).
  - apply for_each_skip. intros ix st _. now rewrite (range_nonpos n1).
  - apply for_each_skip. intros ix st _.
    apply for_each_skip. intros iy st' _. now rewrite (range_nonpos n2).
Qed.

Lemma int_sections_nonzero (shape patch_shape stride : vec3 Z) (a : axis) :
  ax a stride <> 0 ->
  int_sections (ax a (vmap2 Z.sub shape patch_shape)) (ax a stride)
  = Return (num_sections shape patch_shape stride a).
Proof.
  intros H. unfold int_sections, num_sections.
  destruct (Z.eqb_spec (ax a stride) 0); [contradiction |].
  now rewrite ax_vmap2.
Qed.

Lemma exists_axis_nonpos (n : axis -> Z) :
  (exists a, n a <= 0) -> n Az <= 0 \/ n Ay <= 0 \/ n Ax <= 0.
Proof. intros [[| |] H]; auto. Qed.

(** X2 ([put_patches_numba], empty grid).  With non-zero strides, when the
    section count [(shape - patch_shape) // stride + 1] is zero or negative
    on some axis (a patch larger than the image, or a negative stride), the
    kernel returns with [out_arr] untouched and the counter at 0. *)
Theorem put_patches_numba_empty_grid {A} (img : array3 A)
    (patch_shape stride : vec3 Z) (out_arr : list (array3 A)) :
  (forall a, ax a stride <> 0) ->
  (exists a, num_sections (shape3 img) patch_shape stride a <= 0) ->
  put_patches_numba img patch_shape stride out_arr = Return (out_arr, 0).
Proof.
  intros Hs Hn. apply exists_axis_nonpos in Hn.
  unfold put_patches_numba. cbv zeta.
  rewrite !int_sections_nonzero by apply Hs. cbn [obind].
  now apply nested_loops_skip
    with (body := fun ix iy iz st =>
                    let '(out_arr, ctr) := st in
                    _).
Qed.

Lemma put_patches_numba_empty_grid_witness :
  put_patches_numba example_volume (3, 1, 1) (1, 1, 1) example_slots
  = Return (example_slots, 0).
Proof.
  apply put_patches_numba_empty_grid.
  - intros a; destruct a; cbn; lia.
  - exists Az. vm_compute. discriminate.
Defined.

(** ** Assembling *)

Section AssembleFacts.

Variable A : Type.
Variables (zero one : A) (add div : A -> A -> A).

Lemma load_name_img (out_arr weights_inv : array3 A) :
  load_name A [("out_arr", out_arr); ("weights_inv", weights_inv)]%string "img"
  = Raise (NameError "img").
Proof. reflexivity. Qed.

Lemma range_first (n : Z) : 1 <= n -> exists l, range n = 0 :: l.
Proof.
  intros H. unfold range.
  destruct (Z.to_nat n) as [| k] eqn:E; [lia |].
  cbn [seq map]. now eexists.
Qed.

(** What [assemble_patches] does, by the number of grid positions. *)
Lemma assemble_patches_run (patches : list (array3 A)) (stride : vec3 Z)
    (out_arr : array3 A) :
  let n := num_sections (shape3 out_arr) (shape3 (hd [] patches)) stride in
  (forall a, ax a stride <> 0) ->
  assemble_patches A zero one add div patches stride out_arr
  = if (1 <=? n Az) && (1 <=? n Ay) && (1 <=? n Ax)
    then Raise (NameError "img")
    else Return (idiv3 A div out_arr (map (map (map (fun _ => zero))) out_arr)).
Proof.
  intros n Hs. unfold assemble_patches. cbv zeta.
  rewrite !int_sections_nonzero by apply Hs. fold n. cbn [obind].
  destruct (Z.leb_spec 1 (n Az)) as [H0 | H0];
    [destruct (Z.leb_spec 1 (n Ay)) as [H1 | H1];
     [destruct (Z.leb_spec 1 (n Ax)) as [H2 | H2] |] |];
    cbn [andb].
  - destruct (range_first _ H0) as [l0 ->].
    destruct (range_first _ H1) as [l1 ->].
    destruct (range_first _ H2) as [l2 ->].
    cbn [for_each]. unfold iadd_slice3 at 1.
    rewrite load_name_img. reflexivity.
  - rewrite nested_loops_skip
      with (body := fun ix iy iz st => let '(locals, ctr) := st in _)
      by lia.
    reflexivity.
  - rewrite nested_loops_skip
      with (body := fun ix iy iz st => let '(locals, ctr) := st in _)
      by lia.
    reflexivity.
  - rewrite nested_loops_skip
      with (body := fun ix iy iz st => let '(locals, ctr) := st in _)
      by lia.
    reflexivity.
Qed.

End AssembleFacts.

(** X3 ([assemble_patches], undefined name).  With non-zero strides,
    whenever there is at least one grid position on every axis, so that the
    loop body runs, the kernel read as Python raises [NameError] on the
    name [img], which the function never binds: no patch is ever added into
    [out_arr]. *)
Theorem assemble_patches_name_error (A : Type) (zero one : A)
    (add div : A -> A -> A) (patches : list (array3 A)) (stride : vec3 Z)
    (out_arr : array3 A) :
  (forall a, ax a stride <> 0) ->
  (forall a,
     1 <= num_sections (shape3 out_arr) (shape3 (hd [] patches)) stride a) ->
  assemble_patches A zero one add div patches stride out_arr
  = Raise (NameError "img").
Proof.
  intros Hs Hn. rewrite assemble_patches_run by exact Hs.
  rewrite !(proj2 (Z.leb_le 1 _)) by apply Hn. reflexivity.
Qed.

Lemma assemble_patches_name_error_witness :
  assemble_patches Z 0 1 Z.add Z.div [[[[5]]]] (1, 1, 1) [[[0]]]
  = Raise (NameError "img").
Proof.
  apply assemble_patches_name_error.
  - intros a; destruct a; cbn; lia.
  - intros a; destruct a; vm_compute; discriminate.
Defined.

(** X4 ([assemble_patches], empty grid).  With non-zero strides, when the
    section count is zero or negative on some axis, the kernel returns
    [out_arr] divided cell by cell by the all-zero weights, whatever
    [patches] holds. *)
Theorem assemble_patches_empty_grid (A : Type) (zero one : A)
    (add div : A -> A -> A) (patches : list (array3 A)) (stride : vec3 Z)
    (out_arr : array3 A) :
  (forall a, ax a stride <> 0) ->
  (exists a,
     num_sections (shape3 out_arr) (shape3 (hd [] patches)) stride a <= 0) ->
  assemble_patches A zero one add div patches stride out_arr
  = Return (idiv3 A div out_arr (map (map (map (fun _ => zero))) out_arr)).
Proof.
  intros Hs Hn. rewrite assemble_patches_run by exact Hs.
  apply exists_axis_nonpos in Hn.
  destruct (Z.leb_spec 1 (num_sections (shape3 out_arr)
                            (shape3 (hd [] patches)) stride Az));
    destruct (Z.leb_spec 1 (num_sections (shape3 out_arr)
                              (shape3 (hd [] patches)) stride Ay));
    destruct (Z.leb_spec 1 (num_sections (shape3 out_arr)
                              (shape3 (hd [] patches)) stride Ax));
    cbn [andb]; try reflexivity; lia.
Qed.

Lemma assemble_patches_empty_grid_witness :
  assemble_patches Z 0 1 Z.add Z.div [[[[5]; [6]]]] (1, 1, 1) [[[3]]]
  = Return [[[3 / 0]]].
Proof.
  apply (assemble_patches_empty_grid Z 0 1 Z.add Z.div [[[[5]; [6]]]]
           (1, 1, 1) [[[3]]]).
  - intros a; destruct a; cbn; lia.
  - exists Ay. vm_compute. discriminate.
Defined.

Lemma has_shape3_shape3 {A} (sh : vec3 Z) (a : array3 A) :
  has_shape3 sh a -> (forall x, 1 <= ax x sh) -> shape3 a = sh.
Proof.
  intros [H0 HF] Hpos.
  pose proof (Hpos Az) as P0. pose proof (Hpos Ay) as P1.
  pose proof (Hpos Ax) as P2.
  destruct sh as [[s0 s1] s2]. cbn [ax] in *.
  destruct a as [| plane a]; [cbn in H0; lia |].
  apply Forall_inv in HF. destruct HF as [H1 HR].
  destruct plane as [| row plane]; [cbn in H1; lia |].
  apply Forall_inv in HR.
  unfold shape3. cbn [hd]. now rewrite H0, H1, HR.
Qed.

(** X5 (round trip).  Under the conditions of the tiling, with patches of
    at least one cell on every axis, extraction returns its patches and
    assembling them with the same stride into an array of the image's shape
    raises [NameError] on [img]: the round trip never gives the image
    back. *)
Theorem tiling_round_trip_raises (A : Type) (zero one : A)
    (add div : A -> A -> A) (img : array3 A) (patch_shape stride : vec3 Z)
    (out_arr : list (array3 A)) (scan : array3 A) :
  let n := num_sections (shape3 img) patch_shape stride in
  has_shape3 (shape3 img) img ->
  (forall a, 1 <= ax a stride) ->
  (forall a, 1 <= ax a patch_shape <= ax a (shape3 img)) ->
  Z.of_nat (List.length out_arr) = n Az * n Ay * n Ax ->
  Forall (has_shape3 patch_shape) out_arr ->
  shape3 scan = shape3 img ->
  exists patches,
    put_patches_numba img patch_shape stride out_arr
    = Return (patches, n Az * n Ay * n Ax) /\
    assemble_patches A zero one add div patches stride scan
    = Raise (NameError "img").
Proof.
  intros n Himg Hstride Hpatch Hlen HF Hscan.
  assert (Hpatch0 : forall a, 0 <= ax a patch_shape <= ax a (shape3 img))
    by (intros a; specialize (Hpatch a); lia).
  exists (tiling img patch_shape stride). split.
  - now apply put_patches_numba_run.
  - pose proof (sections_at_least_one img patch_shape stride Hstride Hpatch0)
      as Hn.
    assert (B : forall a, 0 <= 0 < num_sections (shape3 img) patch_shape stride a)
      by (intros a; specialize (Hn a); lia).
    assert (Hhd : shape3 (hd [] (tiling img patch_shape stride)) = patch_shape).
    { pose proof (tiling_nth img patch_shape stride Hstride Hpatch0 0 0 0
                    (B Az) (B Ay) (B Ax)) as E.
      unfold patch_number in E. cbn [Z.mul Z.add] in E.
      unfold np_getitem in E.
      destruct (tiling img patch_shape stride) as [| p t]; [discriminate E |].
      cbn in E. injection E as ->. cbn [hd].
      apply has_shape3_shape3.
      - apply sub_volume_shape; auto.
      - intros x. specialize (Hpatch x). lia. }
    rewrite assemble_patches_run by (intros a; specialize (Hstride a); lia).
    rewrite Hhd, Hscan.
    rewrite !(proj2 (Z.leb_le 1 _)) by apply Hn. reflexivity.
Qed.

Lemma tiling_round_trip_raises_witness :
  exists patches,
    put_patches_numba example_volume (1, 2, 1) (1, 1, 1) example_slots
    = Return (patches, 4) /\
    assemble_patches Z 0 1 Z.add Z.div patches (1, 1, 1) example_volume
    = Raise (NameError "img").
Proof.
  apply (tiling_round_trip_raises Z 0 1 Z.add Z.div example_volume (1, 2, 1)
           (1, 1, 1) example_slots example_volume).
  - repeat constructor.
  - intros a; destruct a; cbn; lia.
  - intros a; destruct a; cbn; lia.
  - reflexivity.
  - repeat constructor.
  - reflexivity.
Defined.

(** ** Round trip and enumeration *)

Lemma assemble_tiling_raises (A : Type) (zero one : A)
    (add div : A -> A -> A) (img : array3 A) (patch_shape stride : vec3 Z)
    (scan : array3 A) :
  has_shape3 (shape3 img) img ->
  (forall a, 1 <= ax a stride) ->
  (forall a, 1 <= ax a patch_shape <= ax a (shape3 img)) ->
  shape3 scan = shape3 img ->
  assemble_patches A zero one add div (tiling img patch_shape stride) stride
    scan
  = Raise (NameError "img").
Proof.
  intros Himg Hstride Hpatch Hscan.
  assert (Hpatch0 : forall a, 0 <= ax a patch_shape <= ax a (shape3 img))
    by (intros a; specialize (Hpatch a); lia).
  pose proof (sections_at_least_one img patch_shape stride Hstride Hpatch0)
    as Hn.
  assert (B : forall a, 0 <= 0 < num_sections (shape3 img) patch_shape stride a)
    by (intros a; specialize (Hn a); lia).
  assert (Hhd : shape3 (hd [] (tiling img patch_shape stride)) = patch_shape).
  { pose proof (tiling_nth img patch_shape stride Hstride Hpatch0 0 0 0
                  (B Az) (B Ay) (B Ax)) as E.
    unfold patch_number in E. cbn [Z.mul Z.add] in E.
    unfold np_getitem in E.
    destruct (tiling img patch_shape stride) as [| p t]; [discriminate E |].
    cbn in E. injection E as ->. cbn [hd].
    apply has_shape3_shape3.
    - apply sub_volume_shape; auto.
    - intros x. specialize (Hpatch x). lia. }
  rewrite assemble_patches_run by (intros a; specialize (Hstride a); lia).
  rewrite Hhd, Hscan.
  rewrite !(proj2 (Z.leb_le 1 _)) by apply Hn. reflexivity.
Qed.

(** The grid indices of the [k]-th patch in the nested order. *)
Lemma patch_number_decode (n0 n1 n2 k : Z) :
  1 <= n1 -> 1 <= n2 -> 0 <= k < n0 * n1 * n2 ->
  0 <= k / (n1 * n2) < n0 /\
  0 <= (k / n2) mod n1 < n1 /\
  0 <= k mod n2 < n2 /\
  patch_number n1 n2 (k / (n1 * n2)) ((k / n2) mod n1) (k mod n2) = k.
Proof.
  intros H1 H2 Hk.
  assert (P : 0 < n1 * n2) by lia.
  split; [| split; [| split]].
  - split; [apply Z.div_pos; lia |].
    apply Z.div_lt_upper_bound; [exact P |].
    replace (n1 * n2 * n0) with (n0 * n1 * n2) by ring. lia.
  - apply Z.mod_pos_bound. lia.
  - apply Z.mod_pos_bound. lia.
  - unfold patch_number.
    replace (k / (n1 * n2)) with (k / n2 / n1)
      by (rewrite Z.mul_comm; apply Z.div_div; lia).
    pose proof (Z.div_mod (k / n2) n1 ltac:(lia)) as E1.
    pose proof (Z.div_mod k n2 ltac:(lia)) as E2.
    rewrite (Z.mul_comm (k / n2 / n1) n1), <- E1.
    rewrite (Z.mul_comm (k / n2) n2), <- E2. reflexivity.
Qed.

(** C1 (as the code has it).  With [stride] equal to [patch_shape], patches
    of at least one cell that fit in the volume and
    [(shape - patch_shape)] divisible by the stride on every axis, the
    tiling returns its patches, and assembling them with the same stride
    into an array of the volume's shape raises [NameError] on [img]: it
    does not return the volume. *)
Theorem tiling_round_trip_exact_raises (A : Type) (zero one : A)
    (add div : A -> A -> A) (img : array3 A) (patch_shape : vec3 Z)
    (out_arr : list (array3 A)) (scan : array3 A) :
  let n := num_sections (shape3 img) patch_shape patch_shape in
  has_shape3 (shape3 img) img ->
  (forall a, 1 <= ax a patch_shape <= ax a (shape3 img)) ->
  (forall a,
     (ax a (shape3 img) - ax a patch_shape) mod ax a patch_shape = 0) ->
  Z.of_nat (List.length out_arr) = n Az * n Ay * n Ax ->
  Forall (has_shape3 patch_shape) out_arr ->
  shape3 scan = shape3 img ->
  exists patches,
    put_patches_numba img patch_shape patch_shape out_arr
    = Return (patches, n Az * n Ay * n Ax) /\
    assemble_patches A zero one add div patches patch_shape scan
    = Raise (NameError "img") /\
    assemble_patches A zero one add div patches patch_shape scan
    <> Return img.
Proof.
  intros n Himg Hpatch _ Hlen HF Hscan.
  assert (Hstride : forall a, 1 <= ax a patch_shape)
    by (intros a; specialize (Hpatch a); lia).
  assert (Hpatch0 : forall a, 0 <= ax a patch_shape <= ax a (shape3 img))
    by (intros a; specialize (Hpatch a); lia).
  exists (tiling img patch_shape patch_shape).
  rewrite (assemble_tiling_raises A zero one add div img patch_shape
             patch_shape scan Himg Hstride Hpatch Hscan).
  split; [now apply put_patches_numba_run |].
  split; [reflexivity | discriminate].
Qed.

Lemma tiling_round_trip_exact_raises_witness :
  exists patches,
    put_patches_numba scenario_volume (5, 5, 5) (5, 5, 5) scenario_slots
    = Return (patches, 8) /\
    assemble_patches Z 0 1 Z.add Z.div patches (5, 5, 5) scenario_volume
    = Raise (NameError "img") /\
    assemble_patches Z 0 1 Z.add Z.div patches (5, 5, 5) scenario_volume
    <> Return scenario_volume.
Proof.
  apply (tiling_round_trip_exact_raises Z 0 1 Z.add Z.div scenario_volume
           (5, 5, 5) scenario_slots scenario_volume).
  - split; [reflexivity |]. repeat constructor.
  - intros a; destruct a; cbn; lia.
  - intros a; destruct a; reflexivity.
  - reflexivity.
  - repeat constructor.
  - reflexivity.
Defined.

(** C9 (as the code has it).  On a regular volume, with strides of at least
    1, a patch shape that fits in the volume and an output array of
    [n0 * n1 * n2] slots of the patch shape, where
    [n = (shape - patch_shape) // stride + 1] on each axis, the tiling
    writes exactly [n0 * n1 * n2] patches, and the [k]-th of them is the
    sub-volume that starts at [(ix * stride0, iy * stride1, iz * stride2)]
    for the [k]-th index triple of the nested order, the first index
    running slowest. *)
Theorem put_patches_numba_enumerates {A} (img : array3 A)
    (patch_shape stride : vec3 Z) (out_arr : list (array3 A)) :
  let n := num_sections (shape3 img) patch_shape stride in
  has_shape3 (shape3 img) img ->
  (forall a, 1 <= ax a stride) ->
  (forall a, 0 <= ax a patch_shape <= ax a (shape3 img)) ->
  Z.of_nat (List.length out_arr) = n Az * n Ay * n Ax ->
  Forall (has_shape3 patch_shape) out_arr ->
  exists patches,
    put_patches_numba img patch_shape stride out_arr
    = Return (patches, n Az * n Ay * n Ax) /\
    Z.of_nat (List.length patches) = n Az * n Ay * n Ax /\
    forall k,
      0 <= k < n Az * n Ay * n Ax ->
      let ix := k / (n Ay * n Ax) in
      let iy := (k / n Ax) mod n Ay in
      let iz := k mod n Ax in
      (0 <= ix < n Az /\ 0 <= iy < n Ay /\ 0 <= iz < n Ax) /\
      k = (ix * n Ay + iy) * n Ax + iz /\
      nth_error patches (Z.to_nat k)
      = Some (slice3 img
                (ix * ax Az stride, ix * ax Az stride + ax Az patch_shape)
                (iy * ax Ay stride, iy * ax Ay stride + ax Ay patch_shape)
                (iz * ax Ax stride, iz * ax Ax stride + ax Ax patch_shape)).
Proof.
  intros n Himg Hstride Hpatch Hlen HF.
  pose proof (sections_at_least_one img patch_shape stride Hstride Hpatch)
    as Hn.
  pose proof (tiling_length img patch_shape stride Hstride Hpatch) as L.
  exists (tiling img patch_shape stride).
  split; [now apply put_patches_numba_run |].
  split; [exact L |].
  intros k Hk ix iy iz.
  destruct (patch_number_decode (n Az) (n Ay) (n Ax) k (Hn Ay) (Hn Ax) Hk)
    as (Bx & By & Bz & E).
  fold ix iy iz in Bx, By, Bz, E.
  split; [repeat split; lia |].
  split; [symmetry; exact E |].
  pose proof (tiling_nth img patch_shape stride Hstride Hpatch ix iy iz
                Bx By Bz) as T.
  fold n in T. rewrite E in T.
  rewrite np_getitem_nonneg in T by (fold n in L; lia).
  exact T.
Qed.

Lemma put_patches_numba_enumerates_witness :
  exists patches,
    put_patches_numba example_volume (1, 2, 1) (1, 1, 1) example_slots
    = Return (patches, 4) /\
    nth_error patches 3 = Some [[[6]; [8]]].
Proof.
  destruct (put_patches_numba_enumerates example_volume (1, 2, 1) (1, 1, 1)
              example_slots) as (patches & E & _ & P).
  - split; [reflexivity |]. repeat constructor.
  - intros a; destruct a; cbn; lia.
  - intros a; destruct a; cbn; lia.
  - reflexivity.
  - repeat constructor.
  - exists patches. split; [exact E |].
    destruct (P 3 ltac:(vm_compute; split; [discriminate | reflexivity]))
      as (_ & _ & T).
    exact T.
Defined.

(** C9 as stated, without a lower bound on the stride, fails: on a volume
    of shape (3, 3, 1) with unit patches and stride (-1, -1, 1) the formula
    gives (-1) * (-1) * 1 = 1 patch, and the loops, over empty ranges, write
    none. *)
Lemma put_patches_numba_negative_stride_counterexample :
  ~ (forall (img : array3 Z) (patch_shape stride : vec3 Z)
            (out_arr : list (array3 Z)),
        let n := num_sections (shape3 img) patch_shape stride in
        has_shape3 (shape3 img) img ->
        (forall a, 0 <= ax a patch_shape <= ax a (shape3 img)) ->
        Z.of_nat (List.length out_arr) = n Az * n Ay * n Ax ->
        Forall (has_shape3 patch_shape) out_arr ->
        exists patches,
          put_patches_numba img patch_shape stride out_arr
          = Return (patches, n Az * n Ay * n Ax)).
Proof.
  intros H.
  destruct (H [[[1]; [2]; [3]]; [[4]; [5]; [6]]; [[7]; [8]; [9]]]
              (1, 1, 1) (-1, -1, 1) [[[[0]]]]) as (patches & E).
  - split; [reflexivity |]. repeat constructor.
  - intros a; destruct a; cbn; lia.
  - reflexivity.
  - repeat constructor.
  - vm_compute in E. discriminate E.
Qed.

(** ** Cropping boxes *)

Lemma np_zeros4_shape (n : nat) (size : vec3 Z) :
  (forall a, 0 <= ax a size) ->
  exists slots,
    np_zeros4 n size = Return slots /\
    List.length slots = n /\ Forall (has_shape3 size) slots.
Proof.
  intros H. unfold np_zeros4.
  pose proof (H Az). pose proof (H Ay). pose proof (H Ax).
  destruct (Z.ltb_spec (ax Az size) 0); [lia |].
  destruct (Z.ltb_spec (ax Ay size) 0); [lia |].
  destruct (Z.ltb_spec (ax Ax size) 0); [lia |].
  cbn [orb]. eexists. split; [reflexivity |]. split.
  - apply repeat_length.
  - apply Forall_forall. intros s Hs. apply repeat_spec in Hs. subst s.
    split.
    + rewrite repeat_length. lia.
    + apply Forall_forall. intros plane Hp. apply repeat_spec in Hp.
      subst plane. split.
      * rewrite repeat_length. lia.
      * apply Forall_forall. intros row Hr. apply repeat_spec in Hr.
        subst row. rewrite repeat_length. lia.
Qed.

Lemma put_patch_slots {A} (sh : vec3 Z) (pre post : list (array3 A))
    (slot patch : array3 A) (i : Z) :
  i = Z.of_nat (List.length pre) ->
  has_shape3 sh slot -> has_shape3 sh patch ->
  put_patch (pre ++ slot :: post) i patch = Return (pre ++ patch :: post).
Proof. intros ->. apply put_patch_slot. Qed.

(** The loop of [get_nodules_numba] over the positions from [k] on. *)
Lemma crop_loop (data : array3 Q) (size : vec3 Z) (positions : list (vec3 Z))
    (rest : list (vec3 Z)) :
  forall (k : nat) (pre slots : list (array3 Q)),
    List.length pre = k ->
    List.length slots = List.length rest ->
    Forall (has_shape3 size) slots ->
    Forall (fun p => has_shape3 size (crop data p size)) rest ->
    (forall j p, nth_error rest j = Some p ->
                 np_getitem positions (Z.of_nat (k + j)) = Some p) ->
    for_each (map Z.of_nat (seq k (List.length rest)))
      (fun i out_arr =>
         match np_getitem positions i with
         | None => Raise IndexError
         | Some p => put_patch out_arr i (crop data p size)
         end)
      (pre ++ slots)
    = Return (pre ++ map (fun p => crop data p size) rest).
Proof.
  induction rest as [| p rest IH]; intros k pre slots Hk Hl HF HC Hp.
  - destruct slots; [reflexivity | discriminate].
  - destruct slots as [| slot slots]; [discriminate |].
    cbn [List.length seq map for_each].
    
    pose proof (Hp 0%nat p eq_refl) as E0.
    rewrite Nat.add_0_r in E0. rewrite E0.
    rewrite (put_patch_slots size);
      [| now rewrite Hk | now inversion HF | now inversion HC].
    cbn [obind].
    replace (pre ++ crop data p size :: slots)
      with ((pre ++ [crop data p size]) ++ slots)
      by (now rewrite <- app_assoc).
    rewrite (IH (S k)).
    + now rewrite <- app_assoc.
    + rewrite length_app. cbn. lia.
    + now injection Hl.
    + now inversion HF.
    + now inversion HC.
    + intros j q Hq. replace (S k + j)%nat with (k + S j)%nat by lia.
      now apply Hp.
Qed.

Lemma np_getitem_nth_error {A} (l : list A) (i : nat) (x : A) :
  nth_error l i = Some x -> np_getitem l (Z.of_nat i) = Some x.
Proof.
  intros H. rewrite np_getitem_nonneg, Nat2Z.id; [exact H |].
  assert (i < List.length l)%nat by (apply nth_error_Some; now rewrite H).
  lia.
Qed.

Lemma np_getitem_concat_blocks {A} (m : Z) (blocks : list (list A))
    (i : nat) (b : list A) (a : Z) :
  Forall (fun b => Z.of_nat (List.length b) = m) blocks ->
  nth_error blocks i = Some b -> 0 <= a < m ->
  np_getitem (List.concat blocks) (Z.of_nat i * m + a) = np_getitem b a.
Proof.
  intros HF Hb Ha.
  assert (Hlen : forall x, In x blocks -> List.length (id x) = Z.to_nat m).
  { intros x Hx. unfold id.
    pose proof (proj1 (Forall_forall _ _) HF x Hx) as E. cbv beta in E. lia. }
  assert (Eb : Z.of_nat (List.length b) = m).
  { apply nth_error_In in Hb.
    exact (proj1 (Forall_forall _ _) HF b Hb). }
  assert (E : nth_error (List.concat blocks) (i * Z.to_nat m + Z.to_nat a)
              = nth_error b (Z.to_nat a)).
  { rewrite <- (map_id blocks) at 1. rewrite <- flat_map_concat_map.
    apply (nth_error_flat_map_blocks id (Z.to_nat m) blocks i (Z.to_nat a) b);
      [exact Hlen | exact Hb | lia]. }
  rewrite (np_getitem_nonneg b) by lia.
  replace (Z.of_nat i * m + a)
    with (Z.of_nat (i * Z.to_nat m + Z.to_nat a)) by nia.
  destruct (nth_error b (Z.to_nat a)) as [x |] eqn:Ex.
  - now apply np_getitem_nth_error.
  - apply nth_error_None in Ex. lia.
Qed.

Lemma crops_shape (data : array3 Q) (positions : list (vec3 Z))
    (size : vec3 Z) :
  has_shape3 (shape3 data) data ->
  (forall a, 0 <= ax a size) ->
  Forall (fun p =>
            forall a, 0 <= ax a p /\ ax a p + ax a size <= ax a (shape3 data))
         positions ->
  Forall (fun p => has_shape3 size (crop data p size)) positions.
Proof.
  intros Hdata Hsize Hpos.
  eapply Forall_impl; [| exact Hpos]. intros p Hp. cbv beta.
  unfold crop. apply (slice3_shape data (shape3 data)); auto.
  - specialize (Hp Az). specialize (Hsize Az). lia.
  - specialize (Hp Ay). specialize (Hsize Ay). lia.
  - specialize (Hp Ax). specialize (Hsize Ax). lia.
Qed.

Lemma get_nodules_numba_run (data : array3 Q) (positions : list (vec3 Z))
    (size : vec3 Z) :
  (forall a, 0 <= ax a size) ->
  Forall (fun p => has_shape3 size (crop data p size)) positions ->
  get_nodules_numba data positions size
  = Return (List.concat (map (fun p => crop data p size) positions)).
Proof.
  intros Hsize HC.
  destruct (np_zeros4_shape (List.length positions) size Hsize)
    as (slots & Ez & Hl & HF).
  unfold get_nodules_numba. rewrite Ez. cbn [obind].
  unfold range. rewrite Nat2Z.id.
  pose proof (crop_loop data size positions positions 0 [] slots
                eq_refl Hl HF HC
                (fun j p H => np_getitem_nth_error positions j p H)) as R.
  cbn [app] in R. rewrite R. reflexivity.
Qed.

Lemma joined_crops_shape (data : array3 Q) (positions : list (vec3 Z))
    (size : vec3 Z) :
  (forall a, 0 <= ax a size) ->
  Forall (fun p => has_shape3 size (crop data p size)) positions ->
  has_shape3 (Z.of_nat (List.length positions) * ax Az size,
              ax Ay size, ax Ax size)
    (List.concat (map (fun p => crop data p size) positions)).
Proof.
  intros Hsize HC. split; cbn [ax].
  - rewrite <- flat_map_concat_map.
    rewrite (flat_map_length_blocks _ (Z.to_nat (ax Az size))).
    + specialize (Hsize Az). now rewrite Nat2Z.inj_mul, Z2Nat.id by lia.
    + intros p Hp.
      pose proof (proj1 (Forall_forall _ _) HC p Hp) as [E _]. lia.
  - apply Forall_concat. apply Forall_map.
    eapply Forall_impl; [| exact HC].
    intros p [_ Hp]. exact Hp.
Qed.

(** X6 ([get_nodules_numba]).  On regular data, for a non-negative box size
    and start positions whose boxes lie inside the data, the function
    returns an array of shape [(n * size0, size1, size2)] in which the box
    of the [i]-th position occupies the planes from [i * size0] on: the
    cell [(i * size0 + a, b, c)] is the data cell
    [(p0 + a, p1 + b, p2 + c)]. *)
Theorem get_nodules_numba_crops (data : array3 Q) (positions : list (vec3 Z))
    (size : vec3 Z) :
  has_shape3 (shape3 data) data ->
  (forall a, 0 <= ax a size) ->
  Forall (fun p =>
            forall a, 0 <= ax a p /\ ax a p + ax a size <= ax a (shape3 data))
         positions ->
  exists out,
    get_nodules_numba data positions size = Return out /\
    has_shape3 (Z.of_nat (List.length positions) * ax Az size,
                ax Ay size, ax Ax size) out /\
    forall (i : nat) (p : vec3 Z),
      nth_error positions i = Some p ->
      forall a b c,
        0 <= a < ax Az size -> 0 <= b < ax Ay size -> 0 <= c < ax Ax size ->
        get3 out (Z.of_nat i * ax Az size + a) b c
        = get3 data (ax Az p + a) (ax Ay p + b) (ax Ax p + c).
Proof.
  intros Hdata Hsize Hpos.
  pose proof (crops_shape data positions size Hdata Hsize Hpos) as HC.
  exists (List.concat (map (fun p => crop data p size) positions)).
  split; [| split].
  - now apply get_nodules_numba_run.
  - now apply joined_crops_shape.
  - intros i p Hi a b c Ha Hb Hc.
    unfold get3 at 1.
    rewrite (np_getitem_concat_blocks (ax Az size) _ i (crop data p size) a).
    + fold (get3 (crop data p size) a b c). unfold crop.
      pose proof (proj1 (Forall_forall _ _) Hpos p (nth_error_In _ _ Hi))
        as Hp.
      apply (slice3_get3 data (shape3 data)); auto.
      * specialize (Hp Az). lia.
      * specialize (Hp Ay). lia.
      * specialize (Hp Ax). lia.
    + apply Forall_map. eapply Forall_impl; [| exact HC].
      intros q [E _]. exact E.
    + rewrite nth_error_map, Hi. reflexivity.
    + exact Ha.
Qed.

Lemma get_nodules_numba_crops_witness :
  exists out,
    get_nodules_numba example_scan [(0, 0, 1); (1, 0, 0)] (1, 2, 1) = Return out /\
    has_shape3 (2 * 1, 2, 1) out.
Proof.
  destruct (get_nodules_numba_crops example_scan [(0, 0, 1); (1, 0, 0)]
              (1, 2, 1)) as (out & H1 & H2 & _).
  - repeat constructor.
  - intros a; destruct a; cbn; lia.
  - repeat constructor; destruct a; cbn; lia.
  - exists out. split; [exact H1 | exact H2].
Defined.

(** ** The registry after a refresh *)

Lemma Forall2_map_right {X Y} (R : X -> Y -> Prop) (f : X -> Y) (l : list X) :
  (forall x, In x l -> R x (f x)) -> Forall2 R l (map f l).
Proof.
  induction l as [| x l IH]; intros H; cbn [map]; constructor.
  - apply H. now left.
  - apply IH. intros; apply H; now right.
Qed.

Lemma positions_ok_In {A} (table : list A) (nodules : list Nodule.t)
    (nd : Nodule.t) :
  positions_ok table nodules = true -> In nd nodules ->
  exists v, np_getitem table (Nodule.patient_pos nd) = Some v.
Proof.
  intros H Hin. unfold positions_ok in H.
  apply (proj1 (forallb_forall _ _) H) in Hin.
  destruct (np_getitem table (Nodule.patient_pos nd)) as [v |];
    [now exists v | discriminate].
Qed.

(** X7 ([_refresh_nodules_info], result).  When the patient position of
    every record indexes the batch's four per-patient tables, the refresh
    returns and changes nothing but the registry, in which every record
    keeps its patient position, centre, size and the last two components of
    its offset, while the first component of its offset, its spacing, its
    origin and its image size are those of its patient. *)
Theorem refresh_nodules_info_consistent (self : Batch.t)
    (nodules : list Nodule.t) :
  Batch.nodules self = Some nodules ->
  positions_ok (Batch.lower_bounds self) nodules = true ->
  positions_ok (Batch.spacing self) nodules = true ->
  positions_ok (Batch.origin self) nodules = true ->
  positions_ok (Batch.shape self) nodules = true ->
  exists nodules',
    _refresh_nodules_info self
    = Run (Return tt) (with_nodules self nodules') [] /\
    Forall2
      (fun nd nd' =>
         Nodule.patient_pos nd' = Nodule.patient_pos nd /\
         Nodule.nodule_center nd' = Nodule.nodule_center nd /\
         Nodule.nodule_size nd' = Nodule.nodule_size nd /\
         ax Ay (Nodule.offset nd') = ax Ay (Nodule.offset nd) /\
         ax Ax (Nodule.offset nd') = ax Ax (Nodule.offset nd) /\
         np_getitem (Batch.lower_bounds self) (Nodule.patient_pos nd)
           = Some (ax Az (Nodule.offset nd')) /\
         np_getitem (Batch.spacing self) (Nodule.patient_pos nd)
           = Some (Nodule.spacing nd') /\
         np_getitem (Batch.origin self) (Nodule.patient_pos nd)
           = Some (Nodule.origin nd') /\
         np_getitem (Batch.shape self) (Nodule.patient_pos nd)
           = Some (Nodule.img_size nd'))
      nodules nodules'.
Proof.
  intros Hn H1 H2 H3 H4.
  exists (map (refreshed self 4) nodules). split.
  - rewrite refresh_run, Hn. cbv zeta. unfold refresh_stage.
    rewrite H1, H2, H3, H4. reflexivity.
  - apply Forall2_map_right. intros nd Hin.
    destruct (positions_ok_In _ _ nd H1 Hin) as [v1 E1].
    destruct (positions_ok_In _ _ nd H2 Hin) as [v2 E2].
    destruct (positions_ok_In _ _ nd H3 Hin) as [v3 E3].
    destruct (positions_ok_In _ _ nd H4 Hin) as [v4 E4].
    unfold refreshed, refresh_one.
    destruct nd as [pos [[oz oy] ox] img c s sp o].
    cbn [Nodule.patient_pos] in E1, E2, E3, E4.
    cbn [Nodule.patient_pos]. rewrite E1.
    unfold set_offset0. cbn [Nodule.patient_pos Nodule.offset]. rewrite E2.
    unfold set_spacing. cbn [Nodule.patient_pos]. rewrite E3.
    unfold set_origin. cbn [Nodule.patient_pos]. rewrite E4.
    unfold set_img_size. cbn. repeat split; reflexivity.
Qed.

Lemma refresh_nodules_info_consistent_witness :
  exists nodules',
    _refresh_nodules_info example_batch
    = Run (Return tt) (with_nodules example_batch nodules') [].
Proof.
  destruct (refresh_nodules_info_consistent example_batch
              [scenario_nodule 5; scenario_nodule 1])
    as (nodules' & H & _); try reflexivity.
  exists nodules'. exact H.
Defined.

(** ** The scaled mask *)

Lemma np_zeros3_returns (shape : vec3 Z) :
  (forall a, 0 <= ax a shape) -> exists m, np_zeros3 shape = Return m.
Proof.
  intros H. unfold np_zeros3.
  pose proof (H Az). pose proof (H Ay). pose proof (H Ax).
  destruct (Z.ltb_spec (ax Az shape) 0); [lia |].
  destruct (Z.ltb_spec (ax Ay shape) 0); [lia |].
  destruct (Z.ltb_spec (ax Ax shape) 0); [lia |].
  cbn [orb]. now eexists.
Qed.

Lemma mask_dims_nonneg (self : Batch.t) (mask_shape : vec3 Z) :
  (forall a, 0 <= ax a mask_shape) ->
  forall a, 0 <= ax a (Batch.len self * ax Az mask_shape,
                       ax Ay mask_shape, ax Ax mask_shape).
Proof.
  intros H a. destruct a.
  - change (0 <= Batch.len self * ax Az mask_shape).
    apply Z.mul_nonneg_nonneg; [unfold Batch.len; lia | apply H].
  - exact (H Ay).
  - exact (H Ax).
Qed.

(** X8 ([fetch_mask_data], no registry).  With [self.nodules] unset, a
    non-negative mask shape and at least one patient, the method logs that
    nothing happened and then raises [AttributeError] on
    [self.nodules.nodule_center]; the batch is left as it was. *)
Theorem fetch_mask_data_without_registry
    (make_mask_numba : array3 Q -> list (vec3 Z) -> list (vec3 Z) ->
                       list (vec3 Z) -> list (vec3 Z) -> array3 Q)
    (self : Batch.t) (mask_shape : vec3 Z) :
  Batch.nodules self = None ->
  (forall a, 0 <= ax a mask_shape) ->
  Batch.shape self <> [] ->
  fetch_mask_data make_mask_numba mask_shape self
  = Run (Raise AttributeError) self
      ["Info about nodules location must be loaded before calling this method. Nothing happened."%string].
Proof.
  intros Hn Hm Hs. unfold fetch_mask_data. rewrite bind_get_self, Hn.
  cbn [is_some].
  erewrite bind_return by (unfold logger_warning; reflexivity).
  destruct (np_zeros3_returns _ (mask_dims_nonneg self mask_shape Hm))
    as [m ->].
  erewrite bind_return by reflexivity.
  destruct (Batch.shape self) as [| shape0 rest] eqn:E; [contradiction |].
  erewrite bind_return by reflexivity.
  erewrite bind_raise by (apply self_nodules_none; exact Hn).
  reflexivity.
Qed.

Lemma fetch_mask_data_without_registry_witness :
  fetch_mask_data (fun m _ _ _ _ => m) (1, 1, 2) empty_batch
  = Run (Raise AttributeError) empty_batch
      ["Info about nodules location must be loaded before calling this method. Nothing happened."%string].
Proof.
  apply fetch_mask_data_without_registry.
  - reflexivity.
  - intros a; destruct a; cbn; lia.
  - discriminate.
Defined.

(** X9 ([fetch_mask_data], with a registry).  With the registry present, a
    non-negative mask shape and at least one patient, the method returns a
    mask, logs nothing and leaves the batch, its [mask] attribute included,
    as it was. *)
Theorem fetch_mask_data_keeps_batch
    (make_mask_numba : array3 Q -> list (vec3 Z) -> list (vec3 Z) ->
                       list (vec3 Z) -> list (vec3 Z) -> array3 Q)
    (self : Batch.t) (nodules : list Nodule.t) (mask_shape : vec3 Z) :
  Batch.nodules self = Some nodules ->
  (forall a, 0 <= ax a mask_shape) ->
  Batch.shape self <> [] ->
  exists mask,
    fetch_mask_data make_mask_numba mask_shape self
    = Run (Return mask) self [].
Proof.
  intros Hn Hm Hs. unfold fetch_mask_data. rewrite bind_get_self, Hn.
  cbn [is_some].
  erewrite bind_return by reflexivity.
  destruct (np_zeros3_returns _ (mask_dims_nonneg self mask_shape Hm))
    as [m ->].
  erewrite bind_return by reflexivity.
  destruct (Batch.shape self) as [| shape0 rest] eqn:E; [contradiction |].
  erewrite bind_return by reflexivity.
  erewrite bind_return by (apply self_nodules_some; exact Hn).
  eexists. reflexivity.
Qed.

Lemma fetch_mask_data_keeps_batch_witness :
  exists mask,
    fetch_mask_data (fun m _ _ _ _ => m) (4, 4, 4) example_batch
    = Run (Return mask) example_batch [].
Proof.
  apply (fetch_mask_data_keeps_batch (fun m _ _ _ _ => m) example_batch
           [scenario_nodule 5; scenario_nodule 1]).
  - reflexivity.
  - intros a; destruct a; cbn; lia.
  - discriminate.
Defined.

(** ** The boxes that [sample_nodules] crops *)

Lemma moderate_without_jitter (nd : Nodule.t) (size : vec3 Z) (d : vec3 Q)
    (a : axis) :
  moderate nd size (Some d) a -> moderate nd size None a.
Proof.
  intros (H1 & H2 & H3 & H4 & _). repeat (split; [assumption |]). exact I.
Qed.

(** One entry of a returned row: the clamped start plus the offset, cast. *)
Lemma row_within_block (nd : Nodule.t) (size : vec3 Z)
    (shift : option (vec3 Q)) (a : axis) :
  moderate nd size shift a ->
  ax a size <= ax a (Nodule.img_size nd) ->
  ax a (Nodule.offset nd)
  <= ax a (vmap F64.astype_int
             (vmap2 F64.add (fst (fit_row nd size shift))
                (vmap F64.of_Z (Nodule.offset nd))))
  <= ax a (Nodule.offset nd) + (ax a (Nodule.img_size nd) - ax a size).
Proof.
  intros Hm Hsize.
  destruct (fit_row_moderate nd size shift a Hm)
    as (s & e & Es & _ & P0 & P1 & _).
  specialize (P1 Hsize).
  destruct Hm as (_ & Hs & Hi & Ho & _). unfold moderate_bound in *.
  rewrite ax_vmap, ax_vmap2, ax_vmap, Es.
  set (off := ax a (Nodule.offset nd)) in *.
  set (img := ax a (Nodule.img_size nd)) in *.
  set (sz := ax a size) in *.
  rewrite of_Z_small by lia. rewrite fadd_Fin.
  pose proof (inject_Z_moderate _ _ _ Hs) as Qs.
  pose proof (inject_Z_moderate _ _ _ Hi) as Qi.
  pose proof (inject_Z_moderate _ _ _ Ho) as Qo.
  change (inject_Z 0) with 0%Q in Qs, Qi, Qo.
  change (inject_Z 1099511627776) with 1099511627776%Q in Qs, Qi, Qo.
  destruct (round_small (s + inject_Z off)) as (r & Er & _ & Nr & Gr & _);
    [apply Qabs_Qle_condition; split; lra |].
  rewrite Er. unfold F64.astype_int.
  assert (Hr : (inject_Z off <= r)%Q) by (apply Gr; lra).
  assert (Hr0 : (0 <= r)%Q) by lra.
  rewrite (astype_int_floor r Hr0).
  pose proof (Qfloor_le r) as Fl.
  pose proof (Qfloor_resp_le _ _ Hr) as Fo. rewrite Qfloor_Z in Fo.
  assert (Fu : Qfloor r <= off + (img - sz)).
  { assert (K : (inject_Z (Qfloor r) < inject_Z (off + (img - sz) + 1))%Q).
    { unfold Z.sub. rewrite !inject_Z_plus, inject_Z_opp.
      change (inject_Z 1) with 1%Q. lra. }
    rewrite <- Zlt_Qlt in K. lia. }
  replace ((- 2 ^ 63 <=? Qfloor r) && (Qfloor r <? 2 ^ 63)) with true;
    [lia |].
  symmetry. apply andb_true_iff. split; [apply Z.leb_le | apply Z.ltb_lt]; lia.
Qed.

Lemma fit_into_bounds_run (self : Batch.t) (nodules : list Nodule.t)
    (size : vec3 Z) (variance : option (vec3 Q)) (rnd : draws) :
  Batch.nodules self = Some nodules ->
  exists rows,
    _fit_into_bounds self size variance rnd = Return rows /\
    List.length rows = List.length nodules /\
    forall k nd,
      nth_error nodules k = Some nd ->
      exists row,
        nth_error rows k = Some row /\
        forall a,
          moderate nd size (jitter variance rnd k) a ->
          ax a size <= ax a (Nodule.img_size nd) ->
          ax a (Nodule.offset nd) <= ax a row
          <= ax a (Nodule.offset nd)
             + (ax a (Nodule.img_size nd) - ax a size).
Proof.
  intros Hn. unfold _fit_into_bounds. rewrite Hn.
  eexists. split; [reflexivity |]. split; [apply imap_from_length |].
  intros k nd Hk. rewrite imap_from_nth_error, Hk. cbn [option_map].
  eexists. split; [reflexivity |].
  intros a Hm Hsize. cbn [Nat.add]. now apply row_within_block.
Qed.

(** X10 ([_fit_into_bounds], result).  With a registry, the method returns
    one integer start per nodule and, for a record whose pixel centre on an
    axis is finite and whose magnitudes are moderate, on every axis on which
    the box is no larger than the patient's image, that start lies between
    the record's offset and the offset plus the image size minus the box
    size: the box stays inside the patient's block of the stacked data,
    with or without jitter. *)
Theorem fit_into_bounds_within_block (self : Batch.t)
    (nodules : list Nodule.t) (size : vec3 Z) (variance : option (vec3 Q))
    (rnd : draws) :
  Batch.nodules self = Some nodules ->
  exists rows,
    _fit_into_bounds self size variance rnd = Return rows /\
    List.length rows = List.length nodules /\
    forall k nd,
      nth_error nodules k = Some nd ->
      exists row,
        nth_error rows k = Some row /\
        forall a,
          moderate nd size (jitter variance rnd k) a ->
          ax a size <= ax a (Nodule.img_size nd) ->
          ax a (Nodule.offset nd) <= ax a row /\
          ax a row + ax a size
          <= ax a (Nodule.offset nd) + ax a (Nodule.img_size nd).
Proof.
  intros Hn.
  destruct (fit_into_bounds_run self nodules size variance rnd Hn)
    as (rows & E & L & F).
  exists rows. split; [exact E |]. split; [exact L |].
  intros k nd Hk. destruct (F k nd Hk) as (row & Hr & Hb).
  exists row. split; [exact Hr |].
  intros a Hm Ha. specialize (Hb a Hm Ha). lia.
Qed.

Lemma fit_into_bounds_within_block_witness :
  exists rows,
    _fit_into_bounds example_batch (4, 4, 4) (Some (1, 1, 1)%Q) example_draws
    = Return rows /\
    List.length rows = 2%nat.
Proof.
  destruct (fit_into_bounds_within_block example_batch
              [scenario_nodule 5; scenario_nodule 1] (4, 4, 4)
              (Some (1, 1, 1)%Q) example_draws eq_refl) as (rows & E & L & _).
  exists rows. split; [exact E | exact L].
Defined.

Lemma bind_value {A B} (m : M A) (k : A -> M B) (self : Batch.t) (a : A) :
  value (m self) = Return a ->
  value (bind m k self) = value (k a (self_after (m self))) /\
  self_after (bind m k self) = self_after (k a (self_after (m self))).
Proof. intros E. unfold bind. rewrite E. split; reflexivity. Qed.

Lemma bind_unchanged {A B} (m : M A) (k : A -> M B) :
  (forall self, self_after (m self) = self) ->
  (forall a self, self_after (k a self) = self) ->
  forall self, self_after (bind m k self) = self.
Proof.
  intros Hm Hk self. unfold bind.
  destruct (value (m self)) as [a | e]; cbn [self_after].
  - now rewrite Hk, Hm.
  - apply Hm.
Qed.

Lemma np_random_choice_unchanged population size replace drawn self :
  self_after (np_random_choice population size replace drawn self) = self.
Proof.
  unfold np_random_choice.
  destruct (size <? 0); [reflexivity |].
  destruct ((population <=? 0) && (0 <? size)); [reflexivity |].
  destruct (negb replace && (Z.max population 0 <? size)); reflexivity.
Qed.

Lemma indexed_unchanged {A} (o : option A) self :
  self_after (indexed o self) = self.
Proof. destruct o; reflexivity. Qed.

Lemma sample_random_nodules_unchanged num_nodules nodule_size rnd self :
  self_after (sample_random_nodules num_nodules nodule_size rnd self) = self.
Proof.
  revert self. unfold sample_random_nodules.
  apply bind_unchanged; [reflexivity |]. intros s.
  apply bind_unchanged; [apply np_random_choice_unchanged |].
  intros sampled. apply bind_unchanged; [apply indexed_unchanged |].
  intros lower. apply bind_unchanged; [apply indexed_unchanged |].
  reflexivity.
Qed.

Lemma sample_nodules_indices_unchanged batch_size nodule_size share variance
    rnd self :
  self_after
    (sample_nodules_indices batch_size nodule_size share variance rnd self)
  = self.
Proof.
  revert self. unfold sample_nodules_indices.
  apply bind_unchanged; [reflexivity |]. intros s.
  apply bind_unchanged; [intros; now destruct (is_some _) |].
  intros _. apply bind_unchanged.
  { intros self. destruct variance as [v |]; [| reflexivity].
    destruct (map Np.astype_int v) as [| a [| b [| c [| d rest]]]];
      reflexivity. }
  intros v. apply bind_unchanged.
  { intros self. destruct (py_int _); reflexivity. }
  intros n. cbv zeta. apply bind_unchanged.
  { intros self. destruct (num_nodules s =? 0); [reflexivity |].
    revert self. apply bind_unchanged; [apply np_random_choice_unchanged |].
    intros idx self.
    destruct (_fit_into_bounds s nodule_size v rnd); [| reflexivity].
    apply indexed_unchanged. }
  intros c. apply bind_unchanged; [apply sample_random_nodules_unchanged |].
  reflexivity.
Qed.

Lemma np_getitem_In {A} (l : list A) (i : Z) (x : A) :
  np_getitem l i = Some x -> In x l.
Proof.
  unfold np_getitem.
  destruct ((0 <=? i) && (i <? Z.of_nat (List.length l)));
    [apply nth_error_In |].
  destruct ((- Z.of_nat (List.length l) <=? i) && (i <? 0));
    [apply nth_error_In | discriminate].
Qed.

Lemma Forall2_Forall_right {X Y} (R : X -> Y -> Prop) (P : X -> Prop)
    (Q : Y -> Prop) (l : list X) (m : list Y) :
  (forall x y, P x -> R x y -> Q y) ->
  Forall P l -> Forall2 R l m -> Forall Q m.
Proof.
  intros H HP HR. induction HR as [| x y l m Hxy _ IH]; constructor.
  - eapply H; [| exact Hxy]. now inversion HP.
  - apply IH. now inversion HP.
Qed.

(** The two blocks of start positions, on a batch whose patients' blocks
    lie inside the data. *)
Lemma sample_nodules_indices_boxes (self : Batch.t) (nodules : list Nodule.t)
    (batch_size : Z) (nodule_size : vec3 Z) (share : Q)
    (variance : option (list Q)) (rnd : draws) (dshape : vec3 Z) :
  Batch.nodules self = Some nodules ->
  0 <= batch_size <= 281474976710656 -> (0 <= share)%Q -> (share <= 1)%Q ->
  0 < Batch.len self ->
  List.length (Batch.lower_bounds self) = List.length (Batch.indices self) ->
  List.length (Batch.shape self) = List.length (Batch.indices self) ->
  (num_nodules self <> 0 ->
   forall i, 0 <= sample_indices rnd i < num_nodules self) ->
  (forall i, 0 <= sampled_indices rnd i < Batch.len self) ->
  (forall i a, (0 <= ax a (uniform rnd i))%Q /\ (ax a (uniform rnd i) < 1)%Q) ->
  Forall (fun nd =>
            block_inside dshape nodule_size (Nodule.offset nd)
              (Nodule.img_size nd))
         nodules ->
  (forall i nd a,
     In nd nodules ->
     moderate nd nodule_size (Some (normal_shift rnd i)) a) ->
  (forall i lower shape,
     np_getitem (Batch.lower_bounds self) i = Some lower ->
     np_getitem (Batch.shape self) i = Some shape ->
     block_inside dshape nodule_size (lower, 0, 0) shape) ->
  exists c r,
    value (sample_nodules_indices batch_size nodule_size share variance rnd self)
      = Return (c, r) /\
    Z.of_nat (List.length (c ++ r)) = batch_size /\
    Forall (box_inside dshape nodule_size) (c ++ r).
Proof.
  intros Hn Hb Hs0 Hs1 Hlen Hlb Hsh Hsi Hidx Hu Hnod Hmod Hpat.
  destruct (share_count share batch_size Hs0 Hs1 Hb) as (n & En & Ht).
  assert (Hnum : num_nodules self = Z.of_nat (List.length nodules)).
  { unfold num_nodules. rewrite Hn. now rewrite length_map. }
  set (n_pos := Z.min n (num_nodules self)).
  assert (Hpos : 0 <= n_pos <= batch_size /\ n_pos <= num_nodules self)
    by (subst n_pos; lia).
  unfold sample_nodules_indices. rewrite bind_get_self, Hn. cbn [is_some].
  erewrite bind_value_pure by reflexivity.
  match goal with
  | |- context [bind ?m _ self] =>
      assert (Hv : exists v l, m self = Run (Return v) self l)
  end.
  { destruct variance as [v |]; [| now eexists; eexists].
    destruct (map Np.astype_int v) as [| a [| b [| c [| d rest]]]];
      eexists; eexists; reflexivity. }
  destruct Hv as (v & l & Hv). erewrite bind_value_pure by exact Hv.
  rewrite En. erewrite bind_value_pure by reflexivity.
  cbv zeta. rewrite gtb_min. fold n_pos.
  match goal with
  | |- context [bind ?m _ self] =>
      assert (Hc : exists c, m self = Run (Return c) self [] /\
                             Z.of_nat (List.length c) = n_pos /\
                             Forall (box_inside dshape nodule_size) c)
  end.
  { destruct (Z.eqb_spec (num_nodules self) 0) as [E | E].
    - exists []. split; [reflexivity |]. split; [| constructor].
      cbn [List.length]. lia.
    - destruct (fit_into_bounds_run self nodules nodule_size v rnd Hn)
        as (rows & Er & Lr & Fr).
      rewrite Er.
      assert (Br : Forall (box_inside dshape nodule_size) rows).
      { apply Forall_forall. intros row Hrow.
        apply In_nth_error in Hrow. destruct Hrow as [k Hk].
        assert (Kl : (k < List.length nodules)%nat).
        { rewrite <- Lr. apply nth_error_Some. now rewrite Hk. }
        destruct (nth_error nodules k) as [nd |] eqn:Ek;
          [| apply nth_error_None in Ek; lia].
        destruct (Fr k nd Ek) as (row' & Hk' & Hrb).
        rewrite Hk in Hk'. injection Hk' as <-.
        pose proof (nth_error_In _ _ Ek) as Hin.
        pose proof (proj1 (Forall_forall _ _) Hnod nd Hin) as Hblock.
        intros a. destruct (Hblock a) as (B1 & B2 & B3).
        assert (Hm : moderate nd nodule_size (jitter v rnd k) a).
        { destruct v; cbn [jitter];
            [apply Hmod, Hin
            | apply (moderate_without_jitter _ _ (normal_shift rnd k)),
                Hmod, Hin]. }
        specialize (Hrb a Hm B1). lia. }
      destruct (np_take_in_range rows
                  (map (sample_indices rnd) (seq 0 (Z.to_nat n_pos))))
        as (c & Ec & Fc).
      { apply Forall_forall. intros i Hi. apply in_map_iff in Hi.
        destruct Hi as (k & <- & _). rewrite Lr, <- Hnum. now apply Hsi. }
      exists c. split; [| split].
      + unfold bind.
        rewrite np_random_choice_returns by lia.
        cbn [value self_after logged app]. rewrite Ec. reflexivity.
      + rewrite <- (Forall2_length Fc), length_map, length_seq. lia.
      + refine (Forall2_Forall_right _ (fun _ => True) _ _ _ _ _ Fc).
        * intros i x _ Hx. apply np_getitem_In in Hx.
          exact (proj1 (Forall_forall _ _) Br x Hx).
        * apply Forall_forall. intros; exact I. }
  destruct Hc as (c & Hc & Lc & Bc). erewrite bind_value_pure by exact Hc.
  destruct (sample_random_nodules_returns self (batch_size - n_pos) nodule_size
              rnd ltac:(lia) Hlen Hlb Hsh Hidx Hu) as (r & Er & Lr & Hr).
  erewrite bind_value_pure by exact Er.
  exists c, r. split; [reflexivity |]. split.
  - rewrite length_app, Nat2Z.inj_add, Lc, Lr. lia.
  - apply Forall_app. split; [exact Bc |].
    apply Forall_forall. intros x Hx.
    apply In_nth_error in Hx. destruct Hx as [k Hk].
    assert (K : (k < Z.to_nat (batch_size - n_pos))%nat).
    { rewrite <- Lr. apply nth_error_Some. now rewrite Hk. }
    destruct (Hr k K) as (row & lower & shape & E1 & E2 & E3 & Hrow).
    rewrite Hk in E1. injection E1 as <-.
    intros a. destruct (Hpat _ _ _ E2 E3 a) as (B1 & B2 & B3).
    specialize (Hrow a B1). lia.
Qed.

(** X11 ([sample_nodules], the cropped data).  On a batch with a registry
    whose patients' blocks, as recorded in the registry and in the batch's
    tables, lie inside the regular stacked data and are at least as large as
    the box, whose records have finite pixel centres and moderate
    magnitudes, with [0 <= share <= 1], [0 <= batch_size <= 2 ^ 48] and
    valid random draws, [sample_nodules] reaches and passes the cropping of
    the data: it crops [batch_size] boxes, the cropped array has the shape
    [(batch_size * size0, size1, size2)], and the batch is not modified. *)
Theorem sample_nodules_data_shape (self : Batch.t) (nodules : list Nodule.t)
    (batch_size : Z) (nodule_size : vec3 Z) (share : Q)
    (variance : option (list Q)) (rnd : draws) :
  let dshape := shape3 (Batch.data self) in
  Batch.nodules self = Some nodules ->
  0 <= batch_size <= 281474976710656 -> (0 <= share)%Q -> (share <= 1)%Q ->
  0 < Batch.len self ->
  List.length (Batch.lower_bounds self) = List.length (Batch.indices self) ->
  List.length (Batch.shape self) = List.length (Batch.indices self) ->
  (num_nodules self <> 0 ->
   forall i, 0 <= sample_indices rnd i < num_nodules self) ->
  (forall i, 0 <= sampled_indices rnd i < Batch.len self) ->
  (forall i a, (0 <= ax a (uniform rnd i))%Q /\ (ax a (uniform rnd i) < 1)%Q) ->
  has_shape3 dshape (Batch.data self) ->
  (forall a, 0 <= ax a nodule_size) ->
  Forall (fun nd =>
            block_inside dshape nodule_size (Nodule.offset nd)
              (Nodule.img_size nd))
         nodules ->
  (forall i nd a,
     In nd nodules ->
     moderate nd nodule_size (Some (normal_shift rnd i)) a) ->
  (forall i lower shape,
     np_getitem (Batch.lower_bounds self) i = Some lower ->
     np_getitem (Batch.shape self) i = Some shape ->
     block_inside dshape nodule_size (lower, 0, 0) shape) ->
  exists data,
    value (sample_nodules_data batch_size nodule_size share variance rnd self)
      = Return data /\
    self_after
      (sample_nodules_data batch_size nodule_size share variance rnd self)
      = self /\
    has_shape3 (batch_size * ax Az nodule_size, ax Ay nodule_size,
                ax Ax nodule_size) data.
Proof.
  intros dshape Hn Hb Hs0 Hs1 Hlen Hlb Hsh Hsi Hidx Hu Hdata Hsize Hnod Hmod
    Hpat.
  destruct (sample_nodules_indices_boxes self nodules batch_size nodule_size
              share variance rnd dshape Hn Hb Hs0 Hs1 Hlen Hlb Hsh Hsi Hidx
              Hu Hnod Hmod Hpat) as (c & r & Ev & L & F).
  pose proof (crops_shape (Batch.data self) (c ++ r) nodule_size Hdata Hsize F)
    as HC.
  exists (List.concat
            (map (fun p => crop (Batch.data self) p nodule_size) (c ++ r))).
  unfold sample_nodules_data.
  match goal with
  | |- context [bind ?m ?k self] =>
      destruct (bind_value m k self (c, r) Ev) as [V S]
  end.
  rewrite V, S, sample_nodules_indices_unchanged.
  cbv zeta. cbn [fst snd]. rewrite bind_get_self.
  rewrite get_nodules_numba_run by assumption.
  split; [reflexivity |]. split; [reflexivity |].
  rewrite <- L. now apply joined_crops_shape.
Qed.

Lemma sample_nodules_data_shape_witness :
  exists data,
    value (sample_nodules_data 2 (1, 1, 1) (1 # 2) None example_draws
             stacked_batch)
      = Return data /\
    has_shape3 (2 * 1, 1, 1) data.
Proof.
  destruct (sample_nodules_data_shape stacked_batch
              [Nodule.mk 0 (0, 0, 0) (2, 2, 2) (1, 1, 1)%Q (1, 1, 1)%Q
                 (1, 1, 1)%Q (0, 0, 0)%Q;
               Nodule.mk 1 (2, 0, 0) (2, 2, 2) (0, 1, 0)%Q (1, 1, 1)%Q
                 (1, 1, 1)%Q (0, 0, 0)%Q]
              2 (1, 1, 1) (1 # 2) None example_draws)
    as (data & V & _ & H).
  - reflexivity.
  - lia.
  - discriminate.
  - discriminate.
  - reflexivity.
  - reflexivity.
  - reflexivity.
  - intros _ i. change (num_nodules stacked_batch) with 2.
    change (sample_indices example_draws i) with (Z.of_nat (Nat.modulo i 2)).
    pose proof (Nat.mod_upper_bound i 2). lia.
  - intros i. vm_compute. split; [discriminate | reflexivity].
  - intros i a. destruct a; vm_compute; split; (discriminate || reflexivity).
  - repeat constructor.
  - intros a; destruct a; cbn; lia.
  - repeat constructor; destruct a; cbn; lia.
  - intros i nd a [<- | [<- | []]]; destruct a;
      (split; [vm_compute; reflexivity |]);
      unfold moderate_bound;
      cbn [ax Nodule.img_size Nodule.offset fst snd];
      (repeat split; try lia); vm_compute; discriminate.
  - intros i lower shape E1 E2.
    apply np_getitem_In in E1. apply np_getitem_In in E2.
    cbn in E1, E2.
    destruct E2 as [<- | [<- | []]];
      destruct E1 as [<- | [<- | []]];
      intros a; destruct a; cbn; lia.
  - exists data. split; [exact V | exact H].
Defined.

(** ** Ingesting the annotation table *)

Lemma index_get_pos_range (indices : list string) (pat_id : string) (pos : Z) :
  index_get_pos indices pat_id = Some pos ->
  0 <= pos < Z.of_nat (List.length indices).
Proof.
  revert pos. induction indices as [| i rest IH]; intros pos H;
    cbn [index_get_pos] in H; [discriminate |].
  destruct (String.eqb i pat_id).
  - injection H as <-. cbn [List.length]. lia.
  - destruct (index_get_pos rest pat_id) as [p |]; [| discriminate].
    injection H as <-. specialize (IH p eq_refl). cbn [List.length]. lia.
Qed.

Lemma index_get_pos_In (indices : list string) (pat_id : string) :
  In pat_id indices -> exists pos, index_get_pos indices pat_id = Some pos.
Proof.
  induction indices as [| i rest IH]; intros H; [contradiction |].
  cbn [index_get_pos]. destruct (String.eqb_spec i pat_id) as [E | E].
  - now eexists.
  - destruct H as [H | H]; [contradiction |].
    destruct (IH H) as [p ->]. now eexists.
Qed.

Lemma insert_sorted_In (x y : string) (l : list string) :
  In x (insert_sorted y l) <-> x = y \/ In x l.
Proof.
  induction l as [| z l IH]; cbn [insert_sorted].
  - cbn. intuition.
  - destruct (String.leb y z); cbn [In]; [intuition |].
    rewrite IH. intuition.
Qed.

Lemma sorted_In (x : string) (l : list string) :
  In x (fold_right insert_sorted [] l) <-> In x l.
Proof.
  induction l as [| y l IH]; cbn [fold_right]; [reflexivity |].
  rewrite insert_sorted_In, IH. cbn. intuition.
Qed.

Lemma existsb_eqb_In (x : string) (l : list string) :
  existsb (String.eqb x) l = true <-> In x l.
Proof.
  rewrite existsb_exists. split.
  - intros (y & Hy & E). apply String.eqb_eq in E. now subst.
  - intros H. exists x. split; [exact H | apply String.eqb_refl].
Qed.

Lemma intersect1d_In (x : string) (a b : list string) :
  In x (intersect1d a b) <-> In x a /\ In x b.
Proof.
  unfold intersect1d. rewrite sorted_In, filter_In, nodup_In.
  now rewrite existsb_eqb_In.
Qed.

Lemma loc_In (df : list annotation) (labels : list string) (r : annotation) :
  In r (loc df labels) <-> In r df /\ In (seriesuid r) labels.
Proof.
  unfold loc. rewrite in_flat_map. split.
  - intros (l & Hl & Hr). apply filter_In in Hr. destruct Hr as [Hr E].
    apply String.eqb_eq in E. subst l. now split.
  - intros [Hr Hl]. exists (seriesuid r). split; [exact Hl |].
    apply filter_In. split; [exact Hr | apply String.eqb_refl].
Qed.

Lemma fetch_row_run (counter : nat) (row : annotation) (self : Batch.t)
    (nodules : list Nodule.t) (pos : Z) :
  Batch.nodules self = Some nodules ->
  index_get_pos (Batch.indices self) (seriesuid row) = Some pos ->
  fetch_row counter row self
  = Run (Return tt)
      (with_nodules self
         (list_set nodules counter
            (let nd := nth counter nodules zero_nodule in
             Nodule.mk pos (Nodule.offset nd) (Nodule.img_size nd)
               (coordZ row, coordY row, coordX row)
               (diameter_mm row, diameter_mm row, diameter_mm row)
               (Nodule.spacing nd) (Nodule.origin nd))))
      [].
Proof.
  intros Hn Hp. unfold fetch_row. rewrite bind_get_self, Hp.
  erewrite bind_return by reflexivity.
  erewrite bind_return by (apply self_nodules_some; exact Hn).
  reflexivity.
Qed.

Lemma fetch_rows_run (indices : list string) (todo : list annotation) :
  forall (done : list annotation) (self : Batch.t),
    Batch.indices self = indices ->
    Batch.nodules self
    = Some (map (annotated_record indices) done
            ++ repeat zero_nodule (List.length todo)) ->
    (forall r, In r todo -> In (seriesuid r) indices) ->
    fetch_rows (List.length done) todo self
    = Run (Return tt)
        (with_nodules self (map (annotated_record indices) (done ++ todo)))
        [].
Proof.
  induction todo as [| row todo IH]; intros done self Hi Hn Hin.
  - cbn [fetch_rows]. cbn [List.length repeat] in Hn.
    rewrite !app_nil_r in *. unfold ret, with_nodules.
    destruct self; cbn in *. now rewrite Hn.
  - cbn [fetch_rows].
    destruct (index_get_pos_In indices (seriesuid row)
                (Hin row (or_introl eq_refl))) as [pos Hp].
    erewrite bind_return
      by (apply (fetch_row_run _ _ _ _ pos Hn); now rewrite Hi).
    cbn [List.length repeat].
    replace (List.length done)
      with (List.length (map (annotated_record indices) done))
      by apply length_map.
    rewrite list_set_middle, app_nth2, Nat.sub_diag by lia.
    cbn [nth]. rewrite length_map.
    assert (E : Nodule.mk pos (Nodule.offset zero_nodule)
                  (Nodule.img_size zero_nodule)
                  (coordZ row, coordY row, coordX row)
                  (diameter_mm row, diameter_mm row, diameter_mm row)
                  (Nodule.spacing zero_nodule) (Nodule.origin zero_nodule)
                = annotated_record indices row).
    { unfold annotated_record. now rewrite Hp. }
    cbv zeta. rewrite E.
    pose proof (IH (done ++ [row])
                  (with_nodules self
                     (map (annotated_record indices) done
                      ++ annotated_record indices row
                         :: repeat zero_nodule (List.length todo)))) as R.
    replace (S (List.length done)) with (List.length (done ++ [row]))
      by (rewrite length_app; cbn; lia).
    rewrite R.
    + rewrite <- app_assoc. reflexivity.
    + exact Hi.
    + cbn [with_nodules Batch.nodules]. rewrite map_app, <- app_assoc.
      reflexivity.
    + intros r Hr. apply Hin. now right.
Qed.

Lemma positions_ok_annotated {A} (table : list A) (indices : list string)
    (rows : list annotation) :
  List.length table = List.length indices ->
  (forall r, In r rows -> In (seriesuid r) indices) ->
  positions_ok table (map (annotated_record indices) rows) = true.
Proof.
  intros Hl Hin. unfold positions_ok. apply forallb_forall.
  intros nd Hnd. apply in_map_iff in Hnd. destruct Hnd as (r & <- & Hr).
  destruct (index_get_pos_In indices (seriesuid r) (Hin r Hr)) as [pos Hp].
  unfold annotated_record. rewrite Hp. cbn [Nodule.patient_pos].
  apply index_get_pos_range in Hp.
  destruct (np_getitem_in_range table pos) as [v ->]; [lia | reflexivity].
Qed.

Lemma loc_in_batch (self : Batch.t) (nodules_df : list annotation)
    (r : annotation) :
  In r (loc nodules_df
          (intersect1d (nodup string_dec (map seriesuid nodules_df))
             (Batch.indices self))) ->
  In (seriesuid r) (Batch.indices self).
Proof.
  intros Hr. apply loc_In in Hr. destruct Hr as [_ Hr].
  now apply intersect1d_In in Hr.
Qed.

Lemma fetch_nodules_info_run (self : Batch.t) (nodules_df : list annotation)
    (update : bool) :
  update = true \/ Batch.nodules self = None ->
  List.length (Batch.lower_bounds self) = List.length (Batch.indices self) ->
  List.length (Batch.spacing self) = List.length (Batch.indices self) ->
  List.length (Batch.origin self) = List.length (Batch.indices self) ->
  List.length (Batch.shape self) = List.length (Batch.indices self) ->
  fetch_nodules_info nodules_df update self
  = Run (Return Self)
      (with_nodules self
         (map (refreshed self 4)
            (map (annotated_record (Batch.indices self))
               (loc nodules_df
                  (intersect1d (nodup string_dec (map seriesuid nodules_df))
                     (Batch.indices self))))))
      [].
Proof.
  intros Hu H1 H2 H3 H4.
  set (indices := Batch.indices self).
  set (rows := loc nodules_df
                 (intersect1d (nodup string_dec (map seriesuid nodules_df))
                    indices)).
  assert (Hin : forall r, In r rows -> In (seriesuid r) indices)
    by (intros r; apply loc_in_batch).
  set (written := map (annotated_record indices) rows).
  unfold fetch_nodules_info. rewrite bind_get_self.
  replace (is_some (Batch.nodules self) && negb update) with false
    by (destruct Hu as [-> | ->]; [now rewrite andb_false_r | reflexivity]).
  cbv zeta. fold indices. fold rows.
  erewrite bind_return by (unfold set_nodules; reflexivity).
  pose proof (fetch_rows_run indices rows []
                (with_nodules self (repeat zero_nodule (List.length rows)))
                eq_refl eq_refl Hin) as R.
  cbn [List.length app] in R.
  erewrite bind_return by exact R.
  assert (Hst : refresh_stage self written = 4%nat).
  { unfold refresh_stage, written.
    now rewrite !positions_ok_annotated by assumption. }
  assert (Q : _refresh_nodules_info
                (with_nodules
                   (with_nodules self
                      (repeat zero_nodule (List.length rows)))
                   written)
              = Run (Return tt)
                  (with_nodules self (map (refreshed self 4) written)) []).
  { rewrite refresh_run.
    change (Batch.nodules (with_nodules ?a written)) with (Some written).
    cbv beta iota zeta.
    change (refresh_stage (with_nodules ?a ?b) written)
      with (refresh_stage self written).
    rewrite Hst. reflexivity. }
  erewrite bind_return by exact Q.
  reflexivity.
Qed.

(** X12 ([fetch_nodules_info], ingestion).  When the registry is unset or
    [update] is true, on a batch whose four per-patient tables have one row
    per patient, the method returns, logs nothing and changes only the
    registry, which gets one record for each row that [loc] selects, in that
    order: its patient position is the position of the row's [seriesuid] in
    the batch, its centre the row's coordinates, its size the diameter on
    every axis, its offset [(lower_bound, 0, 0)], and its spacing, origin
    and image size those of the patient. *)
Theorem fetch_nodules_info_populates (self : Batch.t)
    (nodules_df : list annotation) (update : bool) :
  update = true \/ Batch.nodules self = None ->
  List.length (Batch.lower_bounds self) = List.length (Batch.indices self) ->
  List.length (Batch.spacing self) = List.length (Batch.indices self) ->
  List.length (Batch.origin self) = List.length (Batch.indices self) ->
  List.length (Batch.shape self) = List.length (Batch.indices self) ->
  exists nodules,
    fetch_nodules_info nodules_df update self
    = Run (Return Self) (with_nodules self nodules) [] /\
    Forall2
      (fun row nd =>
         index_get_pos (Batch.indices self) (seriesuid row)
           = Some (Nodule.patient_pos nd) /\
         Nodule.nodule_center nd = (coordZ row, coordY row, coordX row) /\
         Nodule.nodule_size nd
           = (diameter_mm row, diameter_mm row, diameter_mm row) /\
         ax Ay (Nodule.offset nd) = 0 /\
         ax Ax (Nodule.offset nd) = 0 /\
         np_getitem (Batch.lower_bounds self) (Nodule.patient_pos nd)
           = Some (ax Az (Nodule.offset nd)) /\
         np_getitem (Batch.spacing self) (Nodule.patient_pos nd)
           = Some (Nodule.spacing nd) /\
         np_getitem (Batch.origin self) (Nodule.patient_pos nd)
           = Some (Nodule.origin nd) /\
         np_getitem (Batch.shape self) (Nodule.patient_pos nd)
           = Some (Nodule.img_size nd))
      (loc nodules_df
         (intersect1d (nodup string_dec (map seriesuid nodules_df))
            (Batch.indices self)))
      nodules.
Proof.
  intros Hu H1 H2 H3 H4.
  set (indices := Batch.indices self).
  set (rows := loc nodules_df
                 (intersect1d (nodup string_dec (map seriesuid nodules_df))
                    indices)).
  assert (Hin : forall r, In r rows -> In (seriesuid r) indices)
    by (intros r; apply loc_in_batch).
  exists (map (refreshed self 4) (map (annotated_record indices) rows)).
  split.
  - now apply fetch_nodules_info_run.
  - rewrite map_map. apply Forall2_map_right.
    intros row Hr.
    destruct (index_get_pos_In indices (seriesuid row) (Hin row Hr))
      as [pos Hp].
    pose proof (index_get_pos_range _ _ _ Hp) as Hpos. unfold indices in Hpos.
    destruct (np_getitem_in_range (Batch.lower_bounds self) pos) as [v1 E1];
      [lia |].
    destruct (np_getitem_in_range (Batch.spacing self) pos) as [v2 E2];
      [lia |].
    destruct (np_getitem_in_range (Batch.origin self) pos) as [v3 E3];
      [lia |].
    destruct (np_getitem_in_range (Batch.shape self) pos) as [v4 E4];
      [lia |].
    unfold annotated_record. fold indices. rewrite Hp.
    unfold refreshed, refresh_one. cbn [Nodule.patient_pos]. rewrite E1.
    unfold set_offset0. cbn [Nodule.patient_pos Nodule.offset]. rewrite E2.
    unfold set_spacing. cbn [Nodule.patient_pos]. rewrite E3.
    unfold set_origin. cbn [Nodule.patient_pos]. rewrite E4.
    unfold set_img_size. cbn. repeat split; (reflexivity || assumption).
Qed.

Lemma fetch_nodules_info_populates_witness :
  exists nodules,
    fetch_nodules_info example_table true example_batch
    = Run (Return Self) (with_nodules example_batch nodules) [].
Proof.
  destruct (fetch_nodules_info_populates example_batch example_table true)
    as (nodules & H & _); try reflexivity.
  - now left.
  - exists nodules. exact H.
Defined.

Lemma insert_sorted_NoDup (x : string) (l : list string) :
  ~ In x l -> NoDup l -> NoDup (insert_sorted x l).
Proof.
  induction l as [| y l IH]; intros Hx Hl; cbn [insert_sorted].
  - constructor; [exact Hx | constructor].
  - destruct (String.leb x y); [now constructor |].
    inversion Hl as [| ? ? Hy Hl']; subst. constructor.
    + rewrite insert_sorted_In. intros [-> | H]; [| contradiction].
      apply Hx. now left.
    + apply IH; [| exact Hl']. intros H. apply Hx. now right.
Qed.

Lemma intersect1d_NoDup (a b : list string) : NoDup (intersect1d a b).
Proof.
  unfold intersect1d.
  assert (H : NoDup (filter (fun x => existsb (String.eqb x) b)
                       (nodup string_dec a)))
    by (apply NoDup_filter, NoDup_nodup).
  induction H as [| x l Hx Hl IH]; cbn [fold_right]; [constructor |].
  apply insert_sorted_NoDup; [| exact IH]. now rewrite sorted_In.
Qed.

Lemma loc_cons_length (r : annotation) (df : list annotation)
    (labels : list string) :
  List.length (loc (r :: df) labels)
  = (List.length (filter (String.eqb (seriesuid r)) labels)
     + List.length (loc df labels))%nat.
Proof.
  unfold loc. induction labels as [| l labels IH]; [reflexivity |].
  cbn [flat_map]. rewrite !length_app, IH. cbn [filter].
  destruct (String.eqb (seriesuid r) l); cbn [List.length]; lia.
Qed.

Lemma filter_eqb_NoDup (x : string) (l : list string) :
  NoDup l ->
  List.length (filter (String.eqb x) l)
  = if existsb (String.eqb x) l then 1%nat else 0%nat.
Proof.
  induction 1 as [| y l Hy Hl IH]; [reflexivity |].
  cbn [filter existsb]. destruct (String.eqb_spec x y) as [E | E].
  - subst y. cbn [orb List.length]. rewrite IH.
    destruct (existsb (String.eqb x) l) eqn:Ex; [| reflexivity].
    apply existsb_eqb_In in Ex. contradiction.
  - cbn [orb]. exact IH.
Qed.

Lemma loc_length (df : list annotation) (labels : list string) :
  NoDup labels ->
  List.length (loc df labels)
  = List.length
      (filter (fun r => existsb (String.eqb (seriesuid r)) labels) df).
Proof.
  intros Hl. induction df as [| r df IH].
  - unfold loc. cbn [filter List.length].
    induction labels as [| l labels IHl]; [reflexivity |].
    cbn [flat_map filter app]. apply IHl. now inversion Hl.
  - rewrite loc_cons_length, IH, filter_eqb_NoDup by exact Hl.
    cbn [filter].
    destruct (existsb (String.eqb (seriesuid r)) labels);
      cbn [List.length]; lia.
Qed.

Lemma loc_intersect_length (df : list annotation) (indices : list string) :
  List.length
    (loc df (intersect1d (nodup string_dec (map seriesuid df)) indices))
  = List.length (rows_in_batch df indices).
Proof.
  rewrite loc_length by apply intersect1d_NoDup.
  unfold rows_in_batch. f_equal. apply filter_ext_in. intros r Hr.
  apply eq_true_iff_eq.
  rewrite !existsb_eqb_In, intersect1d_In, nodup_In.
  split; [intros [_ H]; exact H |].
  intros H. split; [| exact H]. now apply in_map.
Qed.

(** X13 ([fetch_nodules_info], count).  Under the same conditions, after the
    call [num_nodules] is the number of rows of the table whose [seriesuid]
    is one of the batch's indices; rows of other patients are dropped and a
    patient's several rows are all kept. *)
Theorem fetch_nodules_info_count (self : Batch.t)
    (nodules_df : list annotation) (update : bool) :
  update = true \/ Batch.nodules self = None ->
  List.length (Batch.lower_bounds self) = List.length (Batch.indices self) ->
  List.length (Batch.spacing self) = List.length (Batch.indices self) ->
  List.length (Batch.origin self) = List.length (Batch.indices self) ->
  List.length (Batch.shape self) = List.length (Batch.indices self) ->
  num_nodules (self_after (fetch_nodules_info nodules_df update self))
  = Z.of_nat (List.length (rows_in_batch nodules_df (Batch.indices self))).
Proof.
  intros Hu H1 H2 H3 H4.
  rewrite fetch_nodules_info_run by assumption.
  cbn [self_after]. unfold num_nodules. cbn [with_nodules Batch.nodules].
  now rewrite !length_map, loc_intersect_length.
Qed.

Lemma fetch_nodules_info_count_witness :
  num_nodules (self_after (fetch_nodules_info example_table true example_batch))
  = 1.
Proof.
  rewrite (fetch_nodules_info_count example_batch example_table true);
    try reflexivity.
  now left.
Defined.

(** ** Growing the nodules after a projection *)



(** ** Tiling without overlap *)

Lemma sections_same_stride (s p : Z) : 1 <= p -> (s - p) / p + 1 = s / p.
Proof.
  intros Hp. replace (s - p) with (s + (-1) * p) by ring.
  rewrite Z.div_add by lia. ring.
Qed.

Lemma cell_in_grid (s p x : Z) :
  1 <= p -> s mod p = 0 -> 0 <= x < s ->
  0 <= x / p < (s - p) / p + 1 /\
  0 <= x mod p < p /\ x / p * p + x mod p = x.
Proof.
  intros Hp Hd Hx. rewrite sections_same_stride by exact Hp.
  pose proof (Z.div_mod x p ltac:(lia)) as E.
  pose proof (Z.div_mod s p ltac:(lia)) as Es. rewrite Hd in Es.
  pose proof (Z.mod_pos_bound x p ltac:(lia)) as M.
  split; [| split; [exact M | lia]].
  split; [apply Z.div_pos; lia |].
  apply Z.div_lt_upper_bound; lia.
Qed.

(** X15 ([put_patches_numba], no overlap).  When the stride equals the patch
    shape and the patch shape divides the image shape on every axis, the
    patches cover the image: the cell [(x, y, z)] of the image is the cell
    [(x mod p0, y mod p1, z mod p2)] of the patch with grid indices
    [(x // p0, y // p1, z // p2)]. *)
Theorem put_patches_numba_covers {A} (img : array3 A) (patch_shape : vec3 Z)
    (out_arr : list (array3 A)) :
  let n := num_sections (shape3 img) patch_shape patch_shape in
  has_shape3 (shape3 img) img ->
  (forall a, 1 <= ax a patch_shape <= ax a (shape3 img)) ->
  (forall a, ax a (shape3 img) mod ax a patch_shape = 0) ->
  Z.of_nat (List.length out_arr) = n Az * n Ay * n Ax ->
  Forall (has_shape3 patch_shape) out_arr ->
  exists patches,
    put_patches_numba img patch_shape patch_shape out_arr
    = Return (patches, n Az * n Ay * n Ax) /\
    forall x y z,
      0 <= x < ax Az (shape3 img) -> 0 <= y < ax Ay (shape3 img) ->
      0 <= z < ax Ax (shape3 img) ->
      exists p,
        np_getitem patches
          (patch_number (n Ay) (n Ax) (x / ax Az patch_shape)
             (y / ax Ay patch_shape) (z / ax Ax patch_shape))
        = Some p /\
        get3 p (x mod ax Az patch_shape) (y mod ax Ay patch_shape)
             (z mod ax Ax patch_shape)
        = get3 img x y z.
Proof.
  intros n Himg Hpatch Hdiv Hlen HF.
  assert (Hstride : forall a, 1 <= ax a patch_shape)
    by (intros a; specialize (Hpatch a); lia).
  assert (Hpatch0 : forall a, 0 <= ax a patch_shape <= ax a (shape3 img))
    by (intros a; specialize (Hpatch a); lia).
  exists (tiling img patch_shape patch_shape). split.
  - now apply put_patches_numba_run.
  - intros x y z Hx Hy Hz.
    destruct (cell_in_grid _ _ x (Hstride Az) (Hdiv Az) Hx) as (Gx & Mx & Ex).
    destruct (cell_in_grid _ _ y (Hstride Ay) (Hdiv Ay) Hy) as (Gy & My & Ey).
    destruct (cell_in_grid _ _ z (Hstride Ax) (Hdiv Ax) Hz) as (Gz & Mz & Ez).
    exists (sub_volume img patch_shape patch_shape (x / ax Az patch_shape)
              (y / ax Ay patch_shape) (z / ax Ax patch_shape)).
    split.
    + now apply tiling_nth.
    + rewrite sub_volume_get3 by assumption.
      now rewrite Ex, Ey, Ez.
Qed.

Lemma put_patches_numba_covers_witness :
  exists patches,
    put_patches_numba example_volume (1, 2, 1) (1, 2, 1) example_slots
    = Return (patches, 4).
Proof.
  destruct (put_patches_numba_covers example_volume (1, 2, 1) example_slots)
    as (patches & H & _).
  - repeat constructor.
  - intros a; destruct a; cbn; lia.
  - intros a; destruct a; reflexivity.
  - reflexivity.
  - repeat constructor.
  - exists patches. exact H.
Defined.

(** ** Building the mask *)

Lemma create_mask_run
    (make_mask_numba : array3 Q -> list (vec3 Z) -> list (vec3 Z) ->
                       list (vec3 Z) -> list (vec3 Z) -> array3 Q)
    (self : Batch.t) (nodules : list Nodule.t) :
  Batch.nodules self = Some nodules ->
  create_mask make_mask_numba self
  = Run (Return Self)
      (Batch.mk (Batch.indices self) (Batch.data self)
         (Batch.lower_bounds self) (Batch.shape self) (Batch.spacing self)
         (Batch.origin self)
         (Some (make_mask_numba (zeros_like (Batch.data self))
                  (map Nodule.offset nodules)
                  (map (fun nd =>
                          vmap2 Z.add (Nodule.img_size nd) (Nodule.offset nd))
                       nodules)
                  (map mask_start_pix nodules)
                  (map mask_size_pix nodules)))
         (Some nodules))
      [].
Proof.
  intros Hn. unfold create_mask. rewrite bind_get_self, Hn. cbn [is_some].
  erewrite bind_return by reflexivity.
  erewrite bind_return by (unfold set_mask; reflexivity).
  erewrite bind_return by (apply self_nodules_some; exact Hn).
  erewrite bind_return by (unfold set_mask; reflexivity).
  cbn [Batch.indices Batch.data Batch.lower_bounds Batch.shape Batch.spacing
       Batch.origin Batch.mask Batch.nodules].
  rewrite Hn. reflexivity.
Qed.

(** X16 ([create_mask], with a registry).  With a registry, [create_mask]
    returns, logs nothing and replaces only [self.mask], by a mask computed
    from the data and the registry alone: the previous mask plays no part,
    and a second call right after the first leaves the batch as the first
    left it. *)
Theorem create_mask_idempotent
    (make_mask_numba : array3 Q -> list (vec3 Z) -> list (vec3 Z) ->
                       list (vec3 Z) -> list (vec3 Z) -> array3 Q)
    (self : Batch.t) (nodules : list Nodule.t) (old_mask : option (array3 Q)) :
  Batch.nodules self = Some nodules ->
  let once := create_mask make_mask_numba self in
  let twice := create_mask make_mask_numba (self_after once) in
  value once = Return Self /\ logged once = [] /\
  Batch.data (self_after once) = Batch.data self /\
  Batch.nodules (self_after once) = Batch.nodules self /\
  twice = once /\
  create_mask make_mask_numba
    (Batch.mk (Batch.indices self) (Batch.data self) (Batch.lower_bounds self)
       (Batch.shape self) (Batch.spacing self) (Batch.origin self)
       old_mask (Batch.nodules self))
  = once.
Proof.
  intros Hn. cbv zeta.
  rewrite (create_mask_run make_mask_numba self nodules Hn).
  cbn [value logged self_after Batch.data Batch.nodules].
  split; [reflexivity |]. split; [reflexivity |]. split; [reflexivity |].
  split; [symmetry; exact Hn |]. split.
  - erewrite create_mask_run by reflexivity. reflexivity.
  - erewrite create_mask_run by exact Hn. reflexivity.
Qed.

Lemma create_mask_idempotent_witness :
  create_mask (fun m _ _ _ _ => m)
    (self_after (create_mask (fun m _ _ _ _ => m) example_batch))
  = create_mask (fun m _ _ _ _ => m) example_batch.
Proof.
  destruct (create_mask_idempotent (fun m _ _ _ _ => m) example_batch
              [scenario_nodule 5; scenario_nodule 1] None eq_refl)
    as (_ & _ & _ & _ & H & _).
  exact H.
Defined.

(** ** The variance argument *)

(** X17 ([sample_nodules], malformed variance).  With a registry, a
    [variance] argument that does not have exactly three entries is dropped
    with a warning: the start positions computed and the batch are those of
    a call with [variance=None], and the log has the warning in front. *)
Theorem sample_nodules_drops_bad_variance (self : Batch.t)
    (nodules : list Nodule.t) (batch_size : Z) (nodule_size : vec3 Z)
    (share : Q) (v : list Q) (rnd : draws) :
  Batch.nodules self = Some nodules ->
  List.length v <> 3%nat ->
  let bad :=
    sample_nodules_indices batch_size nodule_size share (Some v) rnd self in
  let plain :=
    sample_nodules_indices batch_size nodule_size share None rnd self in
  value bad = value plain /\
  self_after bad = self_after plain /\
  logged bad
  = "Argument variance be np.array-likeand has shape (3,). Would be used no-scale-shift."%string
    :: logged plain.
Proof.
  intros Hn Hv. cbv zeta. unfold sample_nodules_indices.
  rewrite !bind_get_self, Hn. cbn [is_some].
  erewrite !(bind_return (ret tt)) by reflexivity.
  assert (E : forall B (k : option (vec3 Q) -> M B),
             bind
               match map Np.astype_int v with
               | [vz; vy; vx] =>
                   ret (Some (inject_Z vz, inject_Z vy, inject_Z vx))
               | _ =>
                   bind
                     (logger_warning
                        "Argument variance be np.array-likeand has shape (3,). Would be used no-scale-shift.")
                     (fun _ => ret None)
               end k self
             = Run (value (k None self)) (self_after (k None self))
                 ("Argument variance be np.array-likeand has shape (3,). Would be used no-scale-shift."%string
                  :: logged (k None self))).
  { intros B k. apply (bind_return _ k self None self [_]).
    assert (L : List.length (map Np.astype_int v) <> 3%nat)
      by now rewrite length_map.
    destruct (map Np.astype_int v) as [| a [| b [| c [| d rest]]]];
      try reflexivity.
    now contradiction L. }
  rewrite E.
  erewrite (bind_return (ret None)) by reflexivity.
  cbn [value self_after logged app]. repeat split.
Qed.

Lemma sample_nodules_drops_bad_variance_witness :
  value (sample_nodules_indices 2 (4, 4, 4) (3 # 4) (Some [1; 2]%Q)
           example_draws example_batch)
  = value (sample_nodules_indices 2 (4, 4, 4) (3 # 4) None example_draws
             example_batch).
Proof.
  destruct (sample_nodules_drops_bad_variance example_batch
              [scenario_nodule 5; scenario_nodule 1] 2 (4, 4, 4) (3 # 4)
              [1; 2]%Q example_draws eq_refl) as (H & _).
  - discriminate.
  - exact H.
Defined.
